(** * Savings-goal plant visualisation: the progress-to-plant-stage mapper

    Shallow embedding of [app/components/plant-visualization.tsx].

    The component receives [progressPercentage : number] and an optional
    [plantType : string]; it derives a growth stage, a few geometry values and
    a colour, and returns an SVG whose children are gated on those values.

    A JavaScript [number] is an IEEE 754 binary64 value.  It is modelled by
    the Standard Library's [spec_float] at precision 53 and maximal exponent
    1024, with the library's own correctly rounded operations ([SFmul],
    [SFdiv], [SFadd], [SFsub]) and comparison ([SFcompare]).  [Math.max],
    [Math.floor], [ToLength] and [Array.from] follow ECMA-262. *)

From Stdlib Require Import ZArith Bool List String Ascii Lia.
From Stdlib Require Import SpecFloat DecimalString.
Import ListNotations.

Local Open Scope Z_scope.

(** ** JavaScript numbers *)

Module JS.

Definition number : Set := spec_float.

Definition prec : Z := 53.
Definition emax : Z := 1024.

Definition NaN : number := S754_nan.
Definition Infinity : number := S754_infinity false.
Definition neg_Infinity : number := S754_infinity true.

(** An integer literal.  Every literal of the component is below [2^53], so
    the conversion is exact. *)
Definition of_Z (z : Z) : number := binary_normalize prec emax z 0 false.

Definition mul (a b : number) : number := SFmul prec emax a b.
Definition div (a b : number) : number := SFdiv prec emax a b.
Definition sub (a b : number) : number := SFsub prec emax a b.
Definition add (a b : number) : number := SFadd prec emax a b.

(** A decimal literal [m / 10^k]: the binary64 value nearest to it, which is
    the correctly rounded quotient of the two (exact) integers. *)
Definition decimal (m : Z) (k : Z) : number := div (of_Z m) (of_Z (10 ^ k)).

(** [IsLessThan(a, b)]: [None] is the specification's [undefined], the answer
    when either operand is [NaN]. *)
Definition IsLessThan (a b : number) : option bool :=
  match SFcompare a b with
  | None => None
  | Some Lt => Some true
  | Some _ => Some false
  end.

(** [a < b]: [undefined] counts as [false]. *)
Definition ltb (a b : number) : bool :=
  match IsLessThan a b with
  | Some true => true
  | _ => false
  end.

(** [a >= b]: [false] when [a < b] is [true] or [undefined]. *)
Definition geb (a b : number) : bool :=
  match IsLessThan a b with
  | Some false => true
  | _ => false
  end.

(** [a <= b]: [false] when [b < a] is [true] or [undefined]. *)
Definition leb (a b : number) : bool :=
  match IsLessThan b a with
  | Some false => true
  | _ => false
  end.

Definition is_nan (a : number) : bool :=
  match a with S754_nan => true | _ => false end.

Definition is_pos_zero (a : number) : bool :=
  match a with S754_zero false => true | _ => false end.

Definition is_neg_zero (a : number) : bool :=
  match a with S754_zero true => true | _ => false end.

(** [Math.max(a, b)]: [NaN] if either argument is [NaN]; otherwise the
    running maximum from [-Infinity], where [+0] beats [-0]. *)
Definition max_step (highest n : number) : number :=
  if is_pos_zero n && is_neg_zero highest then n
  else if ltb highest n then n
  else highest.

Definition Math_max (a b : number) : number :=
  if is_nan a || is_nan b then NaN
  else max_step (max_step neg_Infinity a) b.

(** [Math.floor(x)]: [x] itself when it is [NaN], infinite, a zero or already
    integral; otherwise the greatest integer not above [x], which has at most
    as many bits as [x]'s mantissa and so is exact.  A positive [x] below one
    gives [+0]. *)
Definition Math_floor (x : number) : number :=
  match x with
  | S754_finite s m e =>
      if 0 <=? e then x
      else binary_normalize prec emax
             (Z.shiftr (cond_Zopp s (Zpos m)) (- e)) 0 false
  | _ => x
  end.

(** The mathematical integer [truncate(x)] of a finite number. *)
Definition truncate (x : number) : Z :=
  match x with
  | S754_finite s m e =>
      cond_Zopp s (if 0 <=? e then Z.shiftl (Zpos m) e
                   else Z.shiftr (Zpos m) (- e))
  | _ => 0
  end.

(** [ToLength(x)]: [ToIntegerOrInfinity], then clamped to [0 .. 2^53 - 1]. *)
Definition ToLength (x : number) : Z :=
  match x with
  | S754_nan => 0
  | S754_infinity true => 0
  | S754_infinity false => 2 ^ 53 - 1
  | _ => Z.min (Z.max (truncate x) 0) (2 ^ 53 - 1)
  end.

(** A completion: a value, or a thrown [RangeError] (the only exception the
    component can meet). *)
Inductive exn : Set := RangeError.

Inductive completion (A : Type) : Type :=
  | Normal (a : A)
  | Throw (e : exn).
Arguments Normal {A} a.
Arguments Throw {A} e.

Definition bind {A B : Type} (c : completion A) (k : A -> completion B)
  : completion B :=
  match c with
  | Normal a => k a
  | Throw e => Throw e
  end.

(** The indices [0, 1, ..., len - 1]. *)
Definition indices (len : Z) : list Z :=
  List.map Z.of_nat (List.seq 0 (Z.to_nat len)).

(** [Array.from({ length }, (_, i) => mapfn(i))] on an array-like object that
    has only a [length]: [len = ToLength(length)]; the array is built by
    [new Array(len)], which throws a [RangeError] unless [len] fits an
    unsigned 32-bit integer; then [mapfn] is called on [0 .. len - 1]. *)
Definition Array_from {A : Type} (length : number) (mapfn : number -> A)
  : completion (list A) :=
  let len := ToLength length in
  if 2 ^ 32 - 1 <? len then Throw RangeError
  else Normal (List.map (fun k => mapfn (of_Z k)) (indices len)).

End JS.

Declare Scope js_scope.
Delimit Scope js_scope with js.
Bind Scope js_scope with JS.number.
Notation "a <? b" := (JS.ltb a b) : js_scope.
Notation "a >=? b" := (JS.geb a b) (at level 70) : js_scope.
Notation "a <=? b" := (JS.leb a b) : js_scope.
Notation "a * b" := (JS.mul a b) : js_scope.
Notation "a / b" := (JS.div a b) : js_scope.
Notation "a - b" := (JS.sub a b) : js_scope.
Notation "a + b" := (JS.add a b) : js_scope.
Notation "x <- c ;; k" := (JS.bind c (fun x => k))
  (at level 61, c at next level, right associativity).
Notation "# z" := (JS.of_Z z) (at level 5, format "# z") : js_scope.

(** ** The component *)

(** The seven stage labels; [stage_label] gives the source's string. *)
Inductive Stage : Set :=
  | seed | sprout | small | medium | large | flowering | fruiting.

Definition stage_label (s : Stage) : string :=
  match s with
  | seed => "seed" | sprout => "sprout" | small => "small"
  | medium => "medium" | large => "large"
  | flowering => "flowering" | fruiting => "fruiting"
  end.

Definition Stage_eqb (a b : Stage) : bool :=
  match a, b with
  | seed, seed | sprout, sprout | small, small | medium, medium
  | large, large | flowering, flowering | fruiting, fruiting => true
  | _, _ => false
  end.

Definition getStage (percentage : JS.number) : Stage :=
  if (percentage <? #10)%js then seed
  else if (percentage <? #25)%js then sprout
  else if (percentage <? #50)%js then small
  else if (percentage <? #75)%js then medium
  else if (percentage <? #95)%js then large
  else if (percentage <? #100)%js then flowering
  else fruiting.

(** The [size] prop only selects the wrapper's CSS classes. *)
Inductive Size : Set := size_small | size_medium | size_large.

Definition getSizeClasses (size : Size) : string :=
  match size with
  | size_small => "w-32 h-32"
  | size_large => "w-96 h-96"
  | size_medium => "w-64 h-64"
  end.

(** [plantType = 'sunflower'] in the parameter list: the default applies when
    the prop is omitted ([None]). *)
Definition plantType_default (plantType : option string) : string :=
  match plantType with
  | Some t => t
  | None => "sunflower"
  end.

Definition getPlantHeight (progressPercentage : JS.number) : JS.number :=
  let baseHeight := (progressPercentage * JS.decimal 8 1)%js in
  JS.Math_max baseHeight (#5)%js.

Definition getPlantColor (plantType : string) : string :=
  if (plantType =? "rose")%string then "#ff6b9d"
  else if (plantType =? "tulip")%string then "#c44569"
  else if (plantType =? "daisy")%string then "#f8b500"
  else "#ffd700".

Definition plantHeight (progressPercentage : JS.number) : JS.number :=
  getPlantHeight progressPercentage.

Definition plantColor (plantType : option string) : string :=
  getPlantColor (plantType_default plantType).

Definition stemHeight (progressPercentage : JS.number) : JS.number :=
  JS.Math_max (plantHeight progressPercentage * JS.decimal 6 1)%js (#10)%js.

Definition leafCount (progressPercentage : JS.number) : JS.number :=
  JS.Math_floor (progressPercentage / #20)%js.

(** The values computed before the [return]: what the specification calls the
    mapper's output. *)
Record Derived : Set := mkDerived {
  d_stage : Stage;
  d_plantHeight : JS.number;
  d_plantColor : string;
  d_stemHeight : JS.number;
  d_leafCount : JS.number
}.

Definition derive (progressPercentage : JS.number) (plantType : option string)
  : Derived :=
  {| d_stage := getStage progressPercentage;
     d_plantHeight := plantHeight progressPercentage;
     d_plantColor := plantColor plantType;
     d_stemHeight := stemHeight progressPercentage;
     d_leafCount := leafCount progressPercentage |}.

(** *** The rendered children

    The children of the [<svg>] element, in source order.  Attributes that
    are constants of the markup (fill colours of fixed shapes, radii,
    animation timings) are left out; of a leaf only its index [i] is kept
    (its path is a function of [i]), and of a petal its index, its rotation
    [i * 45] and its fill (its centre goes through [Math.cos] and
    [Math.sin]). *)
Inductive element : Set :=
  | soil
  | stem (y height : JS.number)
  | leaf (i : JS.number)
  | flower_center (cy : JS.number) (fill : string)
  | petal (i rotate : JS.number) (fill : string)
  | fruit (cy : JS.number)
  | seed_shape
  | sprout_shape
  | sparkle (i cx cy : JS.number).

(** [{cond && (<el/>)}]: [false] renders nothing. *)
Definition when (cond : bool) (e : element) : option element :=
  if cond then Some e else None.

Definition rendered (child : option element) : list element :=
  match child with
  | Some e => [e]
  | None => []
  end.

Definition is_flower (stage : Stage) : bool :=
  Stage_eqb stage flowering || Stage_eqb stage fruiting.

Definition stemChild (progressPercentage : JS.number) : option element :=
  let stage := getStage progressPercentage in
  let stemHeight := stemHeight progressPercentage in
  when (negb (Stage_eqb stage seed))
       (stem (#190 - stemHeight)%js stemHeight).

Definition leafChildren (progressPercentage : JS.number)
  : JS.completion (list element) :=
  JS.Array_from (leafCount progressPercentage) (fun i => leaf i).

Definition flowerCenterChild (progressPercentage : JS.number)
    (plantType : option string) : option element :=
  let stage := getStage progressPercentage in
  if is_flower stage
  then Some (flower_center (#190 - stemHeight progressPercentage)%js
                           (plantColor plantType))
  else None.

Definition petalChildren (progressPercentage : JS.number)
    (plantType : option string) : JS.completion (list element) :=
  let stage := getStage progressPercentage in
  if is_flower stage
  then JS.Array_from (#8)%js
         (fun i => petal i (i * #45)%js (plantColor plantType))
  else JS.Normal [].

Definition fruitChild (progressPercentage : JS.number) : option element :=
  let stage := getStage progressPercentage in
  when (Stage_eqb stage fruiting)
       (fruit (#190 - stemHeight progressPercentage)%js).

Definition seedChild (progressPercentage : JS.number) : option element :=
  when (Stage_eqb (getStage progressPercentage) seed) seed_shape.

Definition sproutChild (progressPercentage : JS.number) : option element :=
  when (Stage_eqb (getStage progressPercentage) sprout) sprout_shape.

Definition sparkleChildren (progressPercentage : JS.number)
  : JS.completion (list element) :=
  if (progressPercentage >=? #25)%js
  then JS.Array_from (#3)%js
         (fun i => sparkle i (#80 + i * #40)%js (#150 - i * #10)%js)
  else JS.Normal [].

(** The component: the child expressions are evaluated in source order, and
    the first exception aborts the render.  The wrapping [<div>], with its
    size classes and the rounded percentage it prints, is left out. *)
Definition PlantVisualization (progressPercentage : JS.number)
    (plantType : option string) : JS.completion (list element) :=
  let stemC := stemChild progressPercentage in
  leaves <- leafChildren progressPercentage ;;
  let center := flowerCenterChild progressPercentage plantType in
  petals <- petalChildren progressPercentage plantType ;;
  let fruitC := fruitChild progressPercentage in
  let seedC := seedChild progressPercentage in
  let sproutC := sproutChild progressPercentage in
  sparkles <- sparkleChildren progressPercentage ;;
  JS.Normal ([soil] ++ rendered stemC ++ leaves ++ rendered center ++ petals
             ++ rendered fruitC ++ rendered seedC ++ rendered sproutC
             ++ sparkles).

(** ** Notions used to state and prove the properties *)

(** The order of the stages: [seed < sprout < ... < fruiting]. *)
Definition stage_rank (s : Stage) : nat :=
  match s with
  | seed => 0 | sprout => 1 | small => 2 | medium => 3
  | large => 4 | flowering => 5 | fruiting => 6
  end%nat.

Definition stage_le (a b : Stage) : Prop := (stage_rank a <= stage_rank b)%nat.

(** A binary64 value: the mantissa is canonical for the exponent and the
    exponent is in range.  Every JavaScript number is one. *)
Definition binary64 (x : JS.number) : Prop :=
  valid_binary JS.prec JS.emax x = true.

(** Neither [NaN] nor infinite. *)
Definition is_real (x : JS.number) : bool :=
  match x with
  | S754_zero _ | S754_finite _ _ _ => true
  | _ => false
  end.

(** The value of a real number in units of [2^-1074], the smallest positive
    binary64 value: an integer for every binary64 value. *)
Definition scaled (x : JS.number) : Z :=
  match x with
  | S754_finite s m e => cond_Zopp s (Zpos m * 2 ^ (e + 1074))
  | _ => 0
  end.

(** Bookkeeping of a truncated quotient [a / b]: the mantissa is the integer
    quotient, the round bit says whether the remainder reaches one half, the
    sticky bit whether it is neither zero nor exactly one half. *)
Definition located (a b : Z) (mrs : shr_record) : Prop :=
  shr_m mrs = a / b /\
  shr_r mrs = (b <=? 2 * (a mod b)) /\
  shr_s mrs = negb ((a mod b =? 0) || (2 * (a mod b) =? b)).

(** The integer nearest to [a / b], ties to even. *)
Definition rne (a b : Z) : Z :=
  match 2 * (a mod b) ?= b with
  | Lt => a / b
  | Eq => if Z.even (a / b) then a / b else a / b + 1
  | Gt => a / b + 1
  end.

(** The exponent function of binary64. *)
Definition fexp64 (k : Z) : Z := Z.max (k - 53) (-1074).

(** The literal [20] of [leafCount]. *)
Definition my20 : positive := 5629499534213120.
Definition twenty : JS.number := S754_finite false my20 (-48).

(** Division by twenty on scaled integers: the quotient at the precision of
    its binade, rounded to nearest even. *)
Definition Kexp (N : Z) : Z := Z.max (Zdigits2 (N / 20) - 53) 0.
Definition Rnd20 (N : Z) : Z := 2 ^ Kexp N * rne N (20 * 2 ^ Kexp N).
Definition Rnd20s (N : Z) : Z := if N <? 0 then - Rnd20 (- N) else Rnd20 N.

(** [Math.floor] on scaled integers. *)
Definition floor_scaled (Y : Z) : Z := Y / 2 ^ 1074 * 2 ^ 1074.

(** The sign bit; [NaN] has none. *)
Definition sign_bit (x : JS.number) : bool :=
  match x with
  | S754_zero s | S754_infinity s | S754_finite s _ _ => s
  | S754_nan => false
  end.

(** The leaves as stated: the number of leaves rendered is
    [max(floor(percentage / 20), 0)]. *)
Definition leaf_count_as_stated (p : JS.number) : Prop :=
  exists leaves : list element,
    leafChildren p = JS.Normal leaves /\
    Z.of_nat (List.length leaves) = Z.max (JS.truncate (leafCount p)) 0.

(** The sparkles as stated: rendering them, [percentage >= 25] and a stage
    of at least [small] are one and the same condition. *)
Definition sparkles_as_stated (p : JS.number) : Prop :=
  (sparkleChildren p <> JS.Normal [] <-> (p >=? #25)%js = true) /\
  ((p >=? #25)%js = true <-> stage_le small (getStage p)).

(** Selecting the children of one kind. *)
Definition is_stem (e : element) : bool :=
  match e with stem _ _ => true | _ => false end.
Definition is_leaf (e : element) : bool :=
  match e with leaf _ => true | _ => false end.
Definition is_petal (e : element) : bool :=
  match e with petal _ _ _ => true | _ => false end.
Definition is_fruit (e : element) : bool :=
  match e with fruit _ => true | _ => false end.
Definition is_sparkle (e : element) : bool :=
  match e with sparkle _ _ _ => true | _ => false end.

(** The stem as stated: from 10 percent on a stem of height [stemHeight] is
    present in the render, and below 10 percent no stem is rendered. *)
Definition stem_as_stated (p : JS.number) : Prop :=
  ((p >=? #10)%js = true ->
   forall t : option string,
   exists (els : list element) (y : JS.number),
     PlantVisualization p t = JS.Normal els /\
     In (stem y (stemHeight p)) els) /\
  ((p <? #10)%js = true ->
   forall (t : option string) (els : list element),
     PlantVisualization p t = JS.Normal els ->
     List.filter is_stem els = []).

(** The eight petals, [i = 0 .. 7], rotated by [45 i] degrees. *)
Definition eight_petals (fill : string) : list element :=
  List.map (fun i => petal (#i)%js (#(45 * i))%js fill) [0; 1; 2; 3; 4; 5; 6; 7].

(** The three sparkles. *)
Definition three_sparkles : list element :=
  List.map (fun i => sparkle (#i)%js (#(80 + 40 * i))%js (#(150 - 10 * i))%js)
           [0; 1; 2].

Ltac cmp_cases :=
  repeat match goal with
  | H : context [Z.compare ?x ?y] |- _ => destruct (Z.compare_spec x y)
  | H : context [Pos.compare_cont Eq ?x ?y] |- _ =>
      change (Pos.compare_cont Eq x y) with (Pos.compare x y) in H;
      destruct (Pos.compare_spec x y)
  | |- context [Z.compare ?x ?y] => destruct (Z.compare_spec x y)
  | |- context [Pos.compare_cont Eq ?x ?y] =>
      change (Pos.compare_cont Eq x y) with (Pos.compare x y);
      destruct (Pos.compare_spec x y)
  end.

Ltac chain :=
  repeat match goal with
  | H : true = true -> _ |- _ => specialize (H eq_refl)
  | H : false = true -> _ |- _ => clear H
  end; congruence.

Ltac stage_cases p :=
  repeat match goal with
  | |- context [(p <? ?u)%js] => destruct (p <? u)%js
  end; cbn [stage_rank]; lia.

Ltac kind_of H :=
  revert H; apply Forall_impl; intros ? ?;
  repeat match goal with H' : exists _, _ |- _ => destruct H' end;
  subst; reflexivity.

Ltac bool_cases :=
  repeat match goal with
  | |- context [?x <=? ?y] => destruct (Z.leb_spec x y)
  | |- context [?x =? ?y] => destruct (Z.eqb_spec x y)
  end; cbn [negb orb andb].

(** ** The rest of the component

    What the component computes besides the children of the [<svg>]: the
    percentage it prints under the plant. *)

(** [Math.round(x)]: the integer nearest to [x], a tie going towards
    [+Infinity]; [x] itself when it is [NaN], infinite, a zero or already
    integral.  A value in [(0, 0.5)] gives [+0] and one in [[-0.5, 0)] gives
    [-0].  For [x = m * 2^e] with [e < 0] the result is
    [floor((2 m + 2^-e) / 2^(1 - e))], which has no more bits than [m]. *)
Definition Math_round (x : JS.number) : JS.number :=
  match x with
  | S754_finite s m e =>
      if 0 <=? e then x
      else
        let z := Z.shiftr (2 * cond_Zopp s (Zpos m) + 2 ^ (- e)) (1 - e) in
        if z =? 0 then S754_zero s
        else binary_normalize JS.prec JS.emax z 0 false
  | _ => x
  end.

(** The number in [{Math.round(progressPercentage)}%], the text overlay. *)
Definition progressText (progressPercentage : JS.number) : JS.number :=
  Math_round progressPercentage.

(** The remaining kinds of children. *)
Definition is_soil (e : element) : bool :=
  match e with soil => true | _ => false end.
Definition is_seed_shape (e : element) : bool :=
  match e with seed_shape => true | _ => false end.
Definition is_sprout_shape (e : element) : bool :=
  match e with sprout_shape => true | _ => false end.
Definition is_flower_center (e : element) : bool :=
  match e with flower_center _ _ => true | _ => false end.

(** ** Rounding on scaled integers *)

(** The quotient [A / B] of two scaled integers at the precision of its
    binade, rounded to nearest even: what [binary_round_aux] computes. *)
Definition KexpQ (A B : Z) : Z := Z.max (Zdigits2 (A / B) - 53) 0.
Definition RndQ (A B : Z) : Z := 2 ^ KexpQ A B * rne A (B * 2 ^ KexpQ A B).

(** A scaled integer rounded to the nearest binary64 value. *)
Definition RndS (X : Z) : Z := if X <? 0 then - RndQ (- X) 1 else RndQ X 1.

(** Multiplication by a positive constant of scaled value [C]. *)
Definition MulS (C X : Z) : Z :=
  if X <? 0 then - RndQ (- X * C) (2 ^ 1074) else RndQ (X * C) (2 ^ 1074).

(** [Math.round] on scaled integers. *)
Definition round_scaled (Y : Z) : Z :=
  (2 * Y + 2 ^ 1074) / (2 * 2 ^ 1074) * 2 ^ 1074.

(** ** The deployment scripts

    [scripts/check-data-retention.js] holds three scripts: the data
    retention checker, a monitoring set-up that only logs, and the canary
    metrics checker.  [scripts/health-check.js] holds the health checker.
    Of each script the values and decisions are modelled; what it writes to
    the console is left out, but for the lines named below. *)

(** How a run of a script's entry point ends: it returns, or
    [process.exit(code)] ends the process. *)
Inductive ending (A : Type) : Type :=
  | Returned (a : A)
  | Exited (code : Z).
Arguments Returned {A} a.
Arguments Exited {A} code.

(** *** [CanaryMetricsChecker] *)

Module Canary.

Record Metrics : Set := mkMetrics {
  errorRate : JS.number;
  responseTime : JS.number;
  throughput : JS.number;
  availability : JS.number
}.

Record Thresholds : Set := mkThresholds {
  maxErrorRate : JS.number;
  maxResponseTime : JS.number;
  minThroughput : JS.number;
  minAvailability : JS.number
}.

(** [this.thresholds]: set by the constructor and never written again. *)
Definition thresholds : Thresholds :=
  {| maxErrorRate := (#5)%js;
     maxResponseTime := (#2000)%js;
     minThroughput := (#10)%js;
     minAvailability := JS.decimal 995 1 |}.

Record Check : Set := mkCheck {
  metric : string;
  value : JS.number;
  threshold : JS.number;
  check_passed : bool;
  unit : string
}.

Record Results : Set := mkResults {
  passed : bool;
  checks : list Check
}.

(** [collectMetrics]: the four mock values, from four successive results of
    [Math.random()]. *)
Definition collectMetrics (random1 random2 random3 random4 : JS.number)
  : Metrics :=
  {| errorRate := (random1 * #10)%js;
     responseTime := (#500 + random2 * #1000)%js;
     throughput := (#15 + random3 * #10)%js;
     availability := (#99 + random4 * #1)%js |}.

(** [results.checks.push(check); if (!check.passed) results.passed = false] *)
Definition push_check (results : Results) (check : Check) : Results :=
  {| passed := if negb (check_passed check) then false else passed results;
     checks := checks results ++ [check] |}.

Definition evaluateMetrics (metrics : Metrics) : Results :=
  let results := {| passed := true; checks := [] |} in
  let errorRateCheck :=
    {| metric := "Error Rate";
       value := errorRate metrics;
       threshold := maxErrorRate thresholds;
       check_passed := (errorRate metrics <=? maxErrorRate thresholds)%js;
       unit := "%" |} in
  let results := push_check results errorRateCheck in
  let responseTimeCheck :=
    {| metric := "Response Time";
       value := responseTime metrics;
       threshold := maxResponseTime thresholds;
       check_passed :=
         (responseTime metrics <=? maxResponseTime thresholds)%js;
       unit := "ms" |} in
  let results := push_check results responseTimeCheck in
  let throughputCheck :=
    {| metric := "Throughput";
       value := throughput metrics;
       threshold := minThroughput thresholds;
       check_passed := (throughput metrics >=? minThroughput thresholds)%js;
       unit := "rps" |} in
  let results := push_check results throughputCheck in
  let availabilityCheck :=
    {| metric := "Availability";
       value := availability metrics;
       threshold := minAvailability thresholds;
       check_passed :=
         (availability metrics >=? minAvailability thresholds)%js;
       unit := "%" |} in
  let results := push_check results availabilityCheck in
  results.

(** The comparison sign that [logResults] prints next to a check. *)
Definition comparison (check : Check) : string :=
  if (metric check =? "Throughput")%string
     || (metric check =? "Availability")%string
  then ">=" else "<=".

(** [checkMetrics]: collect, evaluate, and leave with code 1 unless every
    check passed.  Nothing between [try] and [catch] throws on numbers, so
    the [catch] branch is never taken. *)
Definition checkMetrics (random1 random2 random3 random4 : JS.number)
  : ending Results :=
  let metrics := collectMetrics random1 random2 random3 random4 in
  let result := evaluateMetrics metrics in
  if negb (passed result) then Exited 1 else Returned result.

End Canary.

(** *** [checkDataRetention] *)

Module Retention.

(** What an awaited database query settles to.  A count is a non-negative
    integer, so it is a [Z] rather than a binary64 value. *)
Inductive query (A : Type) : Type :=
  | Resolved (a : A)
  | Rejected.
Arguments Resolved {A} a.
Arguments Rejected {A}.

Record Issue : Set := mkIssue {
  type : string;
  count : Z;
  severity : string;
  message : string
}.

(** A count in a template literal: an integer is printed in decimal. *)
Definition number_text (n : Z) : string := NilZero.string_of_int (Z.to_int n).

(** The [switch] of the second [forEach]: the line printed for an issue;
    there is no [default], so an unknown type prints nothing. *)
Definition recommended_action (issue : Issue) : list string :=
  if (type issue =? "user_sessions")%string
  then ["- Run: npm run cleanup:sessions"%string]
  else if (type issue =? "deleted_user_data")%string
  then ["- Run: npm run cleanup:deleted-users"%string]
  else if (type issue =? "plant_data")%string
  then ["- Run: npm run archive:completed-goals"%string]
  else if (type issue =? "child_profiles")%string
  then ["- Review and migrate adult accounts manually"%string]
  else [].

(** What a run leaves behind: the issues and the recommended actions it
    printed and the code it gave to [process.exit]; [Failed] is the [catch]
    branch, which prints the error only. *)
Inductive run : Set :=
  | Finished (issues : list Issue) (actions : list string) (code : Z)
  | Failed (code : Z).

Definition exit_code (r : run) : Z :=
  match r with
  | Finished _ _ code => code
  | Failed code => code
  end.

(** [await q] inside the [try]: a rejection goes to [catch]. *)
Definition awaited {A : Type} (q : query A) (k : A -> run) : run :=
  match q with
  | Resolved a => k a
  | Rejected => Failed 1
  end.

(** [checkDataRetention]: the four queries are awaited in turn, each result
    may push one issue; then the report and the exit code. *)
Definition checkDataRetention {Profile : Type}
    (session_count deletedUser_count savingGoal_count : query Z)
    (childProfile_findMany : query (list Profile)) : run :=
  let issues := [] in
  awaited session_count (fun oldSessions =>
  let issues :=
    if 0 <? oldSessions
    then issues ++
         [ {| type := "user_sessions";
              count := oldSessions;
              severity := "medium";
              message := number_text oldSessions
                         ++ " expired sessions should be deleted" |} ]
    else issues in
  awaited deletedUser_count (fun deletedUsers =>
  let issues :=
    if 0 <? deletedUsers
    then issues ++
         [ {| type := "deleted_user_data";
              count := deletedUsers;
              severity := "high";
              message :=
                number_text deletedUsers
                ++ " deleted user records should be permanently removed" |} ]
    else issues in
  awaited savingGoal_count (fun completedGoals =>
  let issues :=
    if 0 <? completedGoals
    then issues ++
         [ {| type := "plant_data";
              count := completedGoals;
              severity := "medium";
              message :=
                number_text completedGoals
                ++ " completed goals data should be archived or deleted" |} ]
    else issues in
  awaited childProfile_findMany (fun childProfiles =>
  let length := Z.of_nat (List.length childProfiles) in
  let issues :=
    if 0 <? length
    then issues ++
         [ {| type := "child_profiles";
              count := length;
              severity := "high";
              message :=
                number_text length
                ++ " child profiles belong to adults and need account migration"
           |} ]
    else issues in
  if Z.of_nat (List.length issues) =? 0
  then Finished [] [] 0
  else
    let actions := List.flat_map recommended_action issues in
    let hasHighSeverity :=
      List.existsb (fun issue => (severity issue =? "high")%string) issues in
    Finished issues actions (if hasHighSeverity then 1 else 0))))).

End Retention.

(** *** [HealthChecker] *)

Module Health.

(** What [makeRequest] settles to: a response with its status code, or a
    rejection (a network error or the timeout). *)
Inductive response : Set :=
  | Responded (statusCode : Z)
  | Refused.

(** What a health check resolves to.  Only [success] decides anything; the
    message, the details and the duration are for the operator and are left
    out. *)
Record CheckResult : Set := mkCheckResult { success : bool }.

(** A health check as the loop of [runAllChecks] sees it: resolved, or an
    exception. *)
Inductive check_run : Set :=
  | Resolved (result : CheckResult)
  | Threw.

Record CheckRecord : Set := mkCheckRecord {
  name : string;
  status : string
}.

Record Results : Set := mkResults {
  passed : Z;
  failed : Z;
  total : Z;
  checks : list CheckRecord
}.

Definition checkApplicationStartup (root : response) : CheckResult :=
  match root with
  | Responded statusCode =>
      if statusCode =? 200 then {| success := true |}
      else {| success := false |}
  | Refused => {| success := false |}
  end.

(** The database check is a mock: it sleeps and reports a healthy
    connection. *)
Definition checkDatabaseConnection : CheckResult := {| success := true |}.

(** The [status] of an endpoint or asset result: the status code, or the
    string ['ERROR']. *)
Inductive Status : Set :=
  | Code (statusCode : Z)
  | ERROR.

Definition status_of (r : response) : Status :=
  match r with
  | Responded statusCode => Code statusCode
  | Refused => ERROR
  end.

(** [r.status !== n] *)
Definition status_differs (s : Status) (n : Z) : bool :=
  match s with
  | Code statusCode => negb (statusCode =? n)
  | ERROR => true
  end.

Definition api_endpoints : list string :=
  ["/api/health"; "/api/goals"; "/api/plants"]%string.

Definition checkApiEndpoints (makeRequest : string -> response)
  : CheckResult :=
  let results :=
    List.map (fun endpoint => (endpoint, status_of (makeRequest endpoint)))
             api_endpoints in
  let failedEndpoints :=
    List.filter (fun r => status_differs (snd r) 200
                          && status_differs (snd r) 404) results in
  if Z.of_nat (List.length failedEndpoints) =? 0
  then {| success := true |}
  else {| success := false |}.

Definition static_assets : list string :=
  ["/favicon.ico"; "/_next/static/css"; "/_next/static/js"]%string.

(** The assets are requested and the answers recorded in the details, but
    the check reports success whatever they are. *)
Definition checkStaticAssets (makeRequest : string -> response)
  : CheckResult :=
  let results :=
    List.map (fun asset => (asset, status_of (makeRequest asset)))
             static_assets in
  {| success := true |}.

Record MemoryUsage : Set := mkMemoryUsage {
  rss : JS.number;
  heapTotal : JS.number;
  heapUsed : JS.number;
  external : JS.number
}.

(** [Math.round(bytes / 1024 / 1024)] *)
Definition megabytes (bytes : JS.number) : JS.number :=
  Math_round (bytes / #1024 / #1024)%js.

Definition checkMemoryUsage (memUsage : MemoryUsage) : CheckResult :=
  let memUsageMB :=
    {| rss := megabytes (rss memUsage);
       heapTotal := megabytes (heapTotal memUsage);
       heapUsed := megabytes (heapUsed memUsage);
       external := megabytes (external memUsage) |} in
  let heapUsagePercent :=
    (heapUsed memUsageMB / heapTotal memUsageMB * #100)%js in
  let isHealthy := (heapUsagePercent <? #80)%js in
  {| success := isHealthy |}.

(** [checkResponseTime]: the request to ['/'] and the milliseconds it took,
    the difference of two readings of [Date.now()]. *)
Definition checkResponseTime (root : response) (responseTime : Z)
  : CheckResult :=
  match root with
  | Responded _ =>
      let isHealthy := responseTime <? 2000 in
      {| success := isHealthy |}
  | Refused => {| success := false |}
  end.

(** One turn of the loop of [runAllChecks]. *)
Definition run_check (results : Results) (healthCheck : string * check_run)
  : Results :=
  match snd healthCheck with
  | Resolved result =>
      let checks :=
        checks results ++
        [ {| name := fst healthCheck;
             status := if success result then "PASSED" else "FAILED" |} ] in
      if success result
      then {| passed := passed results + 1; failed := failed results;
              total := total results + 1; checks := checks |}
      else {| passed := passed results; failed := failed results + 1;
              total := total results + 1; checks := checks |}
  | Threw =>
      {| passed := passed results; failed := failed results + 1;
         total := total results + 1;
         checks := checks results ++
                   [ {| name := fst healthCheck; status := "ERROR" |} ] |}
  end.

Definition run_checks (healthChecks : list (string * check_run)) : Results :=
  List.fold_left run_check healthChecks
    {| passed := 0; failed := 0; total := 0; checks := [] |}.

(** The checks that [printSummary] lists under [FAILED CHECKS]. *)
Definition printed_failures (results : Results) : list CheckRecord :=
  if 0 <? failed results
  then List.filter (fun check => negb (status check =? "PASSED")%string)
                   (checks results)
  else [].

(** What the six checks observe of the application and the process. *)
Record Observations : Type := mkObservations {
  startup_root : response;
  api : string -> response;
  assets : string -> response;
  memory : MemoryUsage;
  timed_root : response;
  timed_ms : Z
}.

(** The six checks, in the order of the source.  Each catches its own
    exceptions, so each resolves. *)
Definition healthChecks (o : Observations) : list (string * check_run) :=
  [ ("Application Startup"%string,
     Resolved (checkApplicationStartup (startup_root o)));
    ("Database Connection"%string, Resolved checkDatabaseConnection);
    ("API Endpoints"%string, Resolved (checkApiEndpoints (api o)));
    ("Static Assets"%string, Resolved (checkStaticAssets (assets o)));
    ("Memory Usage"%string, Resolved (checkMemoryUsage (memory o)));
    ("Response Time"%string,
     Resolved (checkResponseTime (timed_root o) (timed_ms o))) ].


End Health.

(** *** Notions used to state the properties of the scripts *)

(** A result of [Math.random()]: a binary64 value of positive sign that is
    below 1. *)
Definition random_draw (r : JS.number) : Prop :=
  binary64 r /\ sign_bit r = false /\ (r <? #1)%js = true.

(** The four issues that [checkDataRetention] can report, in the order in
    which it looks for them. *)
Definition candidate_issues (oldSessions deletedUsers completedGoals
                             adultProfiles : Z) : list Retention.Issue :=
  [ Retention.mkIssue "user_sessions" oldSessions "medium"
      (Retention.number_text oldSessions
       ++ " expired sessions should be deleted");
    Retention.mkIssue "deleted_user_data" deletedUsers "high"
      (Retention.number_text deletedUsers
       ++ " deleted user records should be permanently removed");
    Retention.mkIssue "plant_data" completedGoals "medium"
      (Retention.number_text completedGoals
       ++ " completed goals data should be archived or deleted");
    Retention.mkIssue "child_profiles" adultProfiles "high"
      (Retention.number_text adultProfiles
       ++ " child profiles belong to adults and need account migration") ].

(** A check that resolved with [success: true]. *)
Definition succeeded (run : Health.check_run) : bool :=
  match run with
  | Health.Resolved result => Health.success result
  | Health.Threw => false
  end.

Definition is_PASSED (check : Health.CheckRecord) : bool :=
  (Health.status check =? "PASSED")%string.

(** What the loop of [runAllChecks] keeps true of [results]. *)
Definition counted (results : Health.Results) : Prop :=
  Health.total results = Z.of_nat (List.length (Health.checks results)) /\
  Health.passed results =
    Z.of_nat (List.length (List.filter is_PASSED (Health.checks results))) /\
  Health.failed results =
    Z.of_nat (List.length (List.filter (fun c => negb (is_PASSED c))
                             (Health.checks results))).

(** An endpoint that answered with status 200 or 404. *)
Definition answered (r : Health.response) : Prop :=
  r = Health.Responded 200 \/ r = Health.Responded 404.


(** ** Binary64 arithmetic

    Facts about the Standard Library's operations at precision 53 that the
    properties of [leafCount], [plantHeight] and [stemHeight] rest on. *)

(** *** Number of binary digits *)

Lemma digits2_pos_size (p : positive) : digits2_pos p = Pos.size p.
Proof. induction p; simpl; congruence. Qed.

Lemma Zdigits2_log2 (z : Z) : 0 < z -> Zdigits2 z = Z.log2 z + 1.
Proof.
  destruct z as [|p|p]; try lia. intros _.
  destruct p; simpl; rewrite ?digits2_pos_size; lia.
Qed.

Lemma Zdigits2_bounds (z : Z) :
  0 < z -> 2 ^ (Zdigits2 z - 1) <= z < 2 ^ Zdigits2 z.
Proof.
  intros Hz. rewrite Zdigits2_log2 by assumption.
  replace (Z.log2 z + 1 - 1) with (Z.log2 z) by lia.
  replace (Z.log2 z + 1) with (Z.succ (Z.log2 z)) by lia.
  apply Z.log2_spec; assumption.
Qed.

Lemma Zdigits2_nonneg (z : Z) : 0 <= Zdigits2 z.
Proof. destruct z; simpl; lia. Qed.

Lemma Zdigits2_pos (z : Z) : 0 < z -> 0 < Zdigits2 z.
Proof. destruct z; simpl; lia. Qed.

Lemma Zdigits2_unique (z d : Z) :
  2 ^ (d - 1) <= z < 2 ^ d -> 0 < z -> Zdigits2 z = d.
Proof.
  intros H Hz. rewrite Zdigits2_log2 by assumption.
  assert (0 <= d - 1).
  { destruct (Z.le_gt_cases 0 (d - 1)); [assumption|].
    destruct (Z.le_gt_cases 0 d).
    - assert (d = 0) by lia. subst d. simpl in H. lia.
    - rewrite (Z.pow_neg_r 2 d) in H by lia. lia. }
  rewrite (Z.log2_unique z (d - 1)); [lia|lia|].
  replace (Z.succ (d - 1)) with d by lia. assumption.
Qed.

Lemma Zdigits2_le (a b : Z) : 0 <= a <= b -> Zdigits2 a <= Zdigits2 b.
Proof.
  intros [Ha Hab]. destruct (Z.eq_dec a 0) as [->|Hz].
  - apply Zdigits2_nonneg.
  - rewrite !Zdigits2_log2 by lia.
    pose proof (Z.log2_le_mono a b Hab). lia.
Qed.

Lemma Zdigits2_lt_pow (z d : Z) : 0 <= z -> 0 <= d -> z < 2 ^ d -> Zdigits2 z <= d.
Proof.
  intros Hz Hd H. destruct (Z.eq_dec z 0) as [->|Hnz]; [simpl; lia|].
  rewrite Zdigits2_log2 by lia.
  destruct (Z.le_gt_cases (Z.log2 z + 1) d); [assumption|].
  assert (2 ^ d <= 2 ^ Z.log2 z) by (apply Z.pow_le_mono_r; lia).
  pose proof (Z.log2_spec z ltac:(lia)). lia.
Qed.

Lemma Zdigits2_ge_pow (z d : Z) : 0 <= d -> 2 ^ d <= z -> d + 1 <= Zdigits2 z.
Proof.
  intros Hd H.
  assert (0 < 2 ^ d) by (apply Z.pow_pos_nonneg; lia).
  rewrite Zdigits2_log2 by lia.
  pose proof (Z.log2_le_mono _ _ H). rewrite Z.log2_pow2 in * by lia. lia.
Qed.

Lemma shr_1_div2 (m : Z) (r s : bool) :
  0 <= m ->
  shr_1 (Build_shr_record m r s) =
  Build_shr_record (m / 2) (Z.odd m) (r || s).
Proof.
  intros Hm. destruct m as [|p|p]; try lia.
  - reflexivity.
  - destruct p as [p|p|]; simpl; f_equal.
    + change (Z.pos p~1) with (2 * Z.pos p + 1).
      symmetry. rewrite Z.add_comm, Z.mul_comm, Z.div_add by lia. reflexivity.
    + change (Z.pos p~0) with (2 * Z.pos p).
      symmetry. rewrite Z.mul_comm, Z.div_mul by lia. reflexivity.
Qed.

Lemma located_shr_1 (a b : Z) (mrs : shr_record) :
  0 <= a -> 0 < b -> located a b mrs -> located a (b * 2) (shr_1 mrs).
Proof.
  intros Ha Hb (Hm & Hr & Hs). destruct mrs as [m r s].
  cbn [shr_m shr_r shr_s] in Hm, Hr, Hs.
  assert (Hm0 : 0 <= m) by (subst m; apply Z.div_pos; lia).
  rewrite shr_1_div2 by assumption.
  pose proof (Z.mod_pos_bound a b Hb) as Hab.
  pose proof (Z.mod_pos_bound m 2 ltac:(lia)) as Hm2.
  assert (Hrem : a mod (b * 2) = a mod b + b * (m mod 2))
    by (subst m; apply Z.rem_mul_r; lia).
  assert (Hodd : Z.odd m = (m mod 2 =? 1)).
  { rewrite Zmod_odd. destruct (Z.odd m); reflexivity. }
  unfold located; cbn [shr_m shr_r shr_s]. rewrite Hrem, Hodd, Hr, Hs.
  split; [subst m; rewrite Z.div_div by lia; reflexivity|].
  generalize dependent (a mod b). intros t Ht _.
  assert (m mod 2 = 0 \/ m mod 2 = 1) as [E|E] by lia; rewrite E;
    repeat match goal with
    | |- context [?x <=? ?y] => destruct (Z.leb_spec x y)
    | |- context [?x =? ?y] => destruct (Z.eqb_spec x y)
    end; cbn [negb orb andb]; split; try reflexivity; exfalso; lia.
Qed.

Lemma pow2_xO (p : positive) : 2 ^ Z.pos p~0 = 2 ^ Z.pos p * 2 ^ Z.pos p.
Proof. rewrite <- Z.pow_add_r by lia. f_equal. lia. Qed.

Lemma pow2_xI (p : positive) : 2 ^ Z.pos p~1 = 2 * (2 ^ Z.pos p * 2 ^ Z.pos p).
Proof.
  rewrite <- Z.pow_add_r by lia.
  rewrite <- (Z.pow_succ_r 2 (Z.pos p + Z.pos p)) by lia. f_equal. lia.
Qed.

Lemma located_iter_shr_1 (p : positive) :
  forall (a b : Z) (mrs : shr_record),
  0 <= a -> 0 < b -> located a b mrs ->
  located a (b * 2 ^ Zpos p) (iter_pos shr_1 p mrs).
Proof.
  induction p as [p IH|p IH|]; intros a b mrs Ha Hb H; simpl iter_pos.
  - replace (b * 2 ^ Z.pos p~1) with (((b * 2) * 2 ^ Z.pos p) * 2 ^ Z.pos p)
      by (rewrite pow2_xI; ring).
    assert (0 < 2 ^ Z.pos p) by (apply Z.pow_pos_nonneg; lia).
    apply IH; try lia. apply IH; try lia. apply located_shr_1; assumption.
  - replace (b * 2 ^ Z.pos p~0) with ((b * 2 ^ Z.pos p) * 2 ^ Z.pos p)
      by (rewrite pow2_xO; ring).
    assert (0 < 2 ^ Z.pos p) by (apply Z.pow_pos_nonneg; lia).
    apply IH; try lia. apply IH; try lia. assumption.
  - rewrite Z.pow_1_r. apply located_shr_1; assumption.
Qed.

Lemma round_nearest_even_located (a b : Z) (mrs : shr_record) :
  0 <= a -> 0 < b -> located a b mrs ->
  round_nearest_even (shr_m mrs) (loc_of_shr_record mrs) = rne a b.
Proof.
  intros Ha Hb (Hm & Hr & Hs). destruct mrs as [m r s].
  cbn [shr_m shr_r shr_s] in *. unfold rne. rewrite <- Hm.
  pose proof (Z.mod_pos_bound a b Hb).
  destruct (Z.compare_spec (2 * (a mod b)) b) as [E|E|E];
    revert Hr Hs;
    repeat match goal with
    | |- context [?x <=? ?y] => destruct (Z.leb_spec x y)
    | |- context [?x =? ?y] => destruct (Z.eqb_spec x y)
    end; cbn [negb orb andb]; intros -> ->; try reflexivity; exfalso; lia.
Qed.

Lemma located_exact (m : Z) : located m 1 (Build_shr_record m false false).
Proof.
  unfold located; cbn [shr_m shr_r shr_s].
  rewrite Z.div_1_r, Z.mod_1_r. repeat split.
Qed.

Lemma shr_located (a b : Z) (mrs : shr_record) (e n : Z) :
  0 <= a -> 0 < b -> located a b mrs ->
  located a (b * 2 ^ Z.max 0 n) (fst (shr mrs e n)) /\
  snd (shr mrs e n) = e + Z.max 0 n.
Proof.
  intros Ha Hb H. destruct n as [|p|p]; cbn [shr fst snd].
  - rewrite Z.max_id, Z.pow_0_r, Z.mul_1_r, Z.add_0_r. auto.
  - rewrite Z.max_r by lia. split; [|reflexivity].
    apply located_iter_shr_1; assumption.
  - rewrite Z.max_l by lia. rewrite Z.pow_0_r, Z.mul_1_r, Z.add_0_r. auto.
Qed.

Lemma located_new_location (a b : Z) :
  0 <= a -> 0 < b ->
  located a b (shr_record_of_loc (a / b) (new_location b (a mod b))).
Proof.
  intros Ha Hb. pose proof (Z.mod_pos_bound a b Hb) as Hab.
  unfold located. generalize dependent (a mod b). intros t Ht.
  unfold new_location, new_location_even, new_location_odd.
  destruct (Z.even b) eqn:Eb.
  - destruct (Z.eqb_spec t 0) as [Hz|Hz];
      [|destruct (Z.compare_spec (2 * t) b)]; unfold located;
      cbn [shr_record_of_loc shr_m shr_r shr_s]; bool_cases;
      repeat split; exfalso; lia.
  - assert (Hodd : 2 * t <> b).
    { intros <-. rewrite Z.even_mul in Eb. discriminate. }
    destruct (Z.eqb_spec t 0) as [Hz|Hz];
      [|destruct (Z.compare_spec (2 * t + 1) b)]; unfold located;
      cbn [shr_record_of_loc shr_m shr_r shr_s]; bool_cases;
      repeat split; exfalso; lia.
Qed.

Section Round.
Variables prec emax : Z.

Lemma binary_round_aux_spec (s : bool) (mx ex : Z) (lx : location) (a b : Z) :
  0 <= a -> 0 < b -> located a b (shr_record_of_loc mx lx) ->
  let n := Z.max 0 (fexp prec emax (Zdigits2 mx + ex) - ex) in
  let M := rne a (b * 2 ^ n) in
  let e1 := ex + n in
  let n2 := Z.max 0 (fexp prec emax (Zdigits2 M + e1) - e1) in
  binary_round_aux prec emax s mx ex lx =
  match M / 2 ^ n2 with
  | Z0 => S754_zero s
  | Zpos m => if e1 + n2 <=? emax - prec then S754_finite s m (e1 + n2)
              else S754_infinity s
  | Zneg _ => S754_nan
  end.
Proof.
  intros Ha Hb Hloc n M e1 n2.
  unfold binary_round_aux, shr_fexp.
  pose proof (shr_located a b _ ex (fexp prec emax (Zdigits2 mx + ex) - ex)
                Ha Hb Hloc) as [H1 H1e].
  destruct (shr (shr_record_of_loc mx lx) ex
              (fexp prec emax (Zdigits2 mx + ex) - ex)) as [mrs' e'].
  cbn [fst snd] in H1, H1e. fold n in H1, H1e. fold e1 in H1e. subst e'.
  assert (Hbn : 0 < b * 2 ^ n).
  { apply Z.mul_pos_pos; [assumption|]. apply Z.pow_pos_nonneg; lia. }
  rewrite (round_nearest_even_located a (b * 2 ^ n)) by assumption.
  fold M.
  assert (HM : 0 <= M).
  { unfold M, rne. pose proof (Z.div_pos a (b * 2 ^ n) Ha Hbn).
    destruct (2 * (a mod (b * 2 ^ n)) ?= b * 2 ^ n); try lia.
    destruct (Z.even _); lia. }
  pose proof (shr_located M 1 _ e1 (fexp prec emax (Zdigits2 M + e1) - e1)
                HM ltac:(lia) (located_exact M)) as [H2 H2e].
  change (shr_record_of_loc M loc_Exact) with (Build_shr_record M false false).
  destruct (shr (Build_shr_record M false false) e1
              (fexp prec emax (Zdigits2 M + e1) - e1)) as [mrs'' e''].
  cbn [fst snd] in H2, H2e. fold n2 in H2, H2e. subst e''.
  destruct H2 as (H2 & _). rewrite H2, Z.mul_1_l. reflexivity.
Qed.

End Round.

Lemma fexp_64 (k : Z) : fexp 53 1024 k = fexp64 k.
Proof. reflexivity. Qed.

Lemma binary_round_aux_64 (s : bool) (mx ex : Z) (lx : location)
      (a b n M n2 : Z) :
  0 <= a -> 0 < b -> located a b (shr_record_of_loc mx lx) ->
  n = Z.max 0 (fexp64 (Zdigits2 mx + ex) - ex) ->
  M = rne a (b * 2 ^ n) ->
  n2 = Z.max 0 (fexp64 (Zdigits2 M + (ex + n)) - (ex + n)) ->
  binary_round_aux 53 1024 s mx ex lx =
  match M / 2 ^ n2 with
  | Z0 => S754_zero s
  | Zpos m => if ex + n + n2 <=? 971 then S754_finite s m (ex + n + n2)
              else S754_infinity s
  | Zneg _ => S754_nan
  end.
Proof.
  intros Ha Hb Hloc -> -> ->.
  exact (binary_round_aux_spec 53 1024 s mx ex lx a b Ha Hb Hloc).
Qed.

Lemma literal_20 : (#20)%js = twenty.
Proof. reflexivity. Qed.

Lemma bounded_inv (m : positive) (e : Z) :
  bounded 53 1024 m e = true ->
  e = fexp64 (Zdigits2 (Zpos m) + e) /\ e <= 971.
Proof.
  unfold bounded, canonical_mantissa. rewrite fexp_64.
  intros H. apply andb_prop in H. destruct H as [H1 H2].
  apply Z.eqb_eq in H1. apply Z.leb_le in H2. simpl Zdigits2. lia.
Qed.

Lemma SFdiv_core_20 (m : positive) (e : Z) :
  bounded 53 1024 m e = true ->
  let e' := Z.max (Zdigits2 (Zpos m) + e - 58) (-1074) in
  let a := Zpos m * 2 ^ (e + 48 - e') in
  SFdiv_core_binary 53 1024 (Zpos m) e (Zpos my20) (-48) =
  (a / Zpos my20, e', new_location (Zpos my20) (a mod Zpos my20)).
Proof.
  intros Hb e' a. apply bounded_inv in Hb. destruct Hb as [Hc He].
  unfold fexp64 in Hc.
  pose proof (Zdigits2_pos (Zpos m) ltac:(lia)) as Hd.
  unfold SFdiv_core_binary. rewrite fexp_64. unfold fexp64.
  change (Zdigits2 (Z.pos my20)) with 53.
  replace (Z.min (Z.max (Zdigits2 (Z.pos m) + e - (53 + -48) - 53) (-1074))
             (e - -48)) with e' by (unfold e'; lia).
  replace (e - -48 - e') with (e + 48 - e') by lia.
  assert (Hs : 0 < e + 48 - e') by (unfold e'; lia).
  destruct (e + 48 - e') as [|s|s] eqn:Es; try lia.
  rewrite Z.shiftl_mul_pow2 by lia. fold a.
  unfold Z.div, Z.modulo. destruct (Z.div_eucl a (Z.pos my20)). reflexivity.
Qed.

(** *** Rounding to nearest even *)
Lemma rne_bounds (a b : Z) : 0 < b -> a / b <= rne a b <= a / b + 1.
Proof.
  intros Hb. unfold rne.
  destruct (2 * (a mod b) ?= b); try lia. destruct (Z.even _); lia.
Qed.

Lemma rne_exact (j b : Z) : 0 < b -> rne (j * b) b = j.
Proof.
  intros Hb. unfold rne. rewrite Z.mod_mul, Z.div_mul by lia.
  rewrite Z.mul_0_r. destruct (Z.compare_spec 0 b); lia.
Qed.

Lemma rne_mono (a a' b : Z) : 0 < b -> a <= a' -> rne a b <= rne a' b.
Proof.
  intros Hb Ha.
  pose proof (Z.div_le_mono a a' b Hb Ha) as Hq.
  pose proof (rne_bounds a b Hb) as B. pose proof (rne_bounds a' b Hb) as B'.
  destruct (Z.eq_dec (a / b) (a' / b)) as [E|E]; [|lia].
  assert (Ht : a mod b <= a' mod b).
  { rewrite !Z.mod_eq by lia. rewrite <- E. lia. }
  unfold rne in *. rewrite <- E in *.
  destruct (Z.compare_spec (2 * (a mod b)) b),
           (Z.compare_spec (2 * (a' mod b)) b); try lia.
Qed.

Lemma rne_scale (a b k : Z) : 0 < b -> 0 < k -> rne (a * k) (b * k) = rne a b.
Proof.
  intros Hb Hk. unfold rne.
  rewrite Z.div_mul_cancel_r by lia.
  rewrite Z.mul_mod_distr_r by lia.
  replace (2 * (a mod b * k)) with ((2 * (a mod b)) * k) by ring.
  rewrite <- (Zmult_compare_compat_r (2 * (a mod b)) b k) by lia.
  reflexivity.
Qed.

Lemma rne_ge (a b j : Z) : 0 < b -> j * b <= a -> j <= rne a b.
Proof.
  intros Hb H. rewrite <- (rne_exact j b Hb). apply rne_mono; assumption.
Qed.

Lemma rne_le (a b j : Z) : 0 < b -> a <= j * b -> rne a b <= j.
Proof.
  intros Hb H. rewrite <- (rne_exact j b Hb). apply rne_mono; assumption.
Qed.

Lemma Kexp_mono (N1 N2 : Z) : 0 <= N1 <= N2 -> Kexp N1 <= Kexp N2.
Proof.
  intros [H0 H]. unfold Kexp.
  assert (Zdigits2 (N1 / 20) <= Zdigits2 (N2 / 20)).
  { apply Zdigits2_le. split; [apply Z.div_pos; lia|].
    apply Z.div_le_mono; lia. }
  lia.
Qed.

Lemma Rnd20_mono (N1 N2 : Z) : 0 <= N1 <= N2 -> Rnd20 N1 <= Rnd20 N2.
Proof.
  intros [H0 H].
  pose proof (Kexp_mono N1 N2 (conj H0 H)) as HK.
  unfold Rnd20.
  assert (Hk1 : 0 <= Kexp N1) by (unfold Kexp; lia).
  assert (Hp1 : 0 < 2 ^ Kexp N1) by (apply Z.pow_pos_nonneg; lia).
  assert (Hp2 : 0 < 2 ^ Kexp N2) by (apply Z.pow_pos_nonneg; lia).
  destruct (Z.eq_dec (Kexp N1) (Kexp N2)) as [E|E].
  - rewrite E. apply Z.mul_le_mono_nonneg_l; [lia|].
    apply rne_mono; lia.
  - (* a strictly larger binade *)
    assert (Hlt : Kexp N1 < Kexp N2) by lia.
    set (k1 := Kexp N1) in *. set (k2 := Kexp N2) in *.
    assert (Hd2 : Zdigits2 (N2 / 20) = k2 + 53) by (unfold k2, Kexp in *; lia).
    assert (Hd1 : Zdigits2 (N1 / 20) <= k1 + 53) by (unfold k1, Kexp; lia).
    assert (Hq2 : 0 < N2 / 20).
    { destruct (Z.eq_dec (N2 / 20) 0) as [Z0|Z0].
      - rewrite Z0 in Hd2. simpl in Hd2. lia.
      - pose proof (Z.div_pos N2 20). lia. }
    pose proof (Zdigits2_bounds _ Hq2) as B2. rewrite Hd2 in B2.
    replace (k2 + 53 - 1) with (52 + k2) in B2 by lia.
    rewrite Z.pow_add_r in B2 by lia.
    (* lower bound for the larger one *)
    assert (L2 : 2 ^ 52 <= rne N2 (20 * 2 ^ k2)).
    { apply rne_ge; [lia|].
      pose proof (Z.mul_div_le N2 20 ltac:(lia)). nia. }
    (* upper bound for the smaller one *)
    assert (U1 : N1 / 20 < 2 ^ (k1 + 53)).
    { destruct (Z.eq_dec (N1 / 20) 0) as [Z0|Z0].
      - rewrite Z0. apply Z.pow_pos_nonneg; lia.
      - pose proof (Z.div_pos N1 20 H0 ltac:(lia)).
        pose proof (Zdigits2_bounds (N1 / 20) ltac:(lia)) as B1.
        assert (2 ^ Zdigits2 (N1 / 20) <= 2 ^ (k1 + 53))
          by (apply Z.pow_le_mono_r; lia).
        lia. }
    rewrite Z.pow_add_r in U1 by lia.
    assert (L1 : rne N1 (20 * 2 ^ k1) <= 2 ^ 53).
    { apply rne_le; [lia|].
      pose proof (Z.mod_pos_bound N1 20 ltac:(lia)).
      pose proof (Z.div_mod N1 20 ltac:(lia)). nia. }
    assert (Hpk : 2 * 2 ^ k1 <= 2 ^ k2).
    { replace (2 * 2 ^ k1) with (2 ^ (k1 + 1))
        by (rewrite Z.pow_add_r by lia; lia).
      apply Z.pow_le_mono_r; lia. }
    transitivity (2 ^ k1 * 2 ^ 53); [apply Z.mul_le_mono_nonneg_l; lia|].
    transitivity (2 ^ k2 * 2 ^ 52); [|apply Z.mul_le_mono_nonneg_l; lia].
    change (2 ^ 53) with (2 * 2 ^ 52). nia.
Qed.

Lemma Zdigits2_scale (A k : Z) :
  1 <= A / 20 -> 0 <= k ->
  Zdigits2 (A * 2 ^ k / 20) = Zdigits2 (A / 20) + k.
Proof.
  intros Hq Hk.
  assert (Hp : 0 < 2 ^ k) by (apply Z.pow_pos_nonneg; lia).
  pose proof (Z.div_mod A 20 ltac:(lia)) as HA.
  pose proof (Z.mod_pos_bound A 20 ltac:(lia)) as Hr.
  set (q := A / 20) in *.
  assert (L : q * 2 ^ k <= A * 2 ^ k / 20)
    by (apply Z.div_le_lower_bound; nia).
  assert (U : A * 2 ^ k / 20 < (q + 1) * 2 ^ k)
    by (apply Z.div_lt_upper_bound; nia).
  pose proof (Zdigits2_bounds q ltac:(lia)) as B.
  pose proof (Zdigits2_pos q ltac:(lia)) as Dq.
  apply Zdigits2_unique; [|lia].
  replace (Zdigits2 q + k - 1) with (Zdigits2 q - 1 + k) by lia.
  rewrite !Z.pow_add_r by lia. nia.
Qed.

Lemma my20_eq : Zpos my20 = 20 * 2 ^ 48.
Proof. reflexivity. Qed.

Lemma Kexp_quotient_bounds (N : Z) :
  0 <= N ->
  let qn := N / (20 * 2 ^ Kexp N) in
  0 <= qn < 2 ^ 53 /\ (0 < Kexp N -> 2 ^ 52 <= qn).
Proof.
  intros HN qn.
  assert (Hk : 0 <= Kexp N) by (unfold Kexp; lia).
  assert (Hp : 0 < 2 ^ Kexp N) by (apply Z.pow_pos_nonneg; lia).
  assert (Hqn : qn = N / 20 / 2 ^ Kexp N)
    by (unfold qn; rewrite Z.div_div by lia; reflexivity).
  pose proof (Z.div_pos N 20 HN ltac:(lia)) as HQ.
  destruct (Z.eq_dec (N / 20) 0) as [Z0|Z0].
  - assert (Kexp N = 0) by (unfold Kexp; rewrite Z0; simpl; lia).
    rewrite Hqn, Z0. rewrite Z.div_0_l by lia. lia.
  - pose proof (Zdigits2_bounds (N / 20) ltac:(lia)) as B.
    destruct (Z.le_gt_cases (Zdigits2 (N / 20)) 53) as [Hd|Hd].
    + assert (HK0 : Kexp N = 0) by (unfold Kexp; lia).
      rewrite Hqn, HK0, Z.pow_0_r, Z.div_1_r.
      assert (2 ^ Zdigits2 (N / 20) <= 2 ^ 53)
        by (apply Z.pow_le_mono_r; lia).
      lia.
    + assert (HK : Zdigits2 (N / 20) = 53 + Kexp N) by (unfold Kexp; lia).
      rewrite HK in B.
      replace (53 + Kexp N - 1) with (52 + Kexp N) in B by lia.
      rewrite !Z.pow_add_r in B by lia.
      rewrite Hqn. split; [split|intros _].
      * apply Z.div_pos; lia.
      * apply Z.div_lt_upper_bound; lia.
      * apply Z.div_le_lower_bound; lia.
Qed.

Lemma div20_finite (s : bool) (m : positive) (e : Z) :
  bounded 53 1024 m e = true ->
  let r := SFdiv 53 1024 (S754_finite s m e) twenty in
  is_real r = true /\ valid_binary 53 1024 r = true /\
  scaled r = cond_Zopp s (Rnd20 (Zpos m * 2 ^ (e + 1074))).
Proof.
  intros Hb. pose proof (bounded_inv m e Hb) as [Hc He].
  unfold fexp64 in Hc.
  pose proof (Zdigits2_pos (Zpos m) ltac:(lia)) as Hd.
  pose proof (Zdigits2_bounds (Zpos m) ltac:(lia)) as Bm.
  cbv zeta. unfold SFdiv, twenty.
  rewrite (SFdiv_core_20 m e Hb). cbv zeta.
  set (d := Zdigits2 (Zpos m)) in *.
  set (e' := Z.max (d + e - 58) (-1074)).
  set (a := Zpos m * 2 ^ (e + 48 - e')).
  set (N := Zpos m * 2 ^ (e + 1074)).
  assert (He' : -1074 <= e' <= e) by (unfold e'; lia).
  set (A := Zpos m * 2 ^ (e - e')).
  assert (HA0 : 0 < A).
  { unfold A. apply Z.mul_pos_pos; [lia|apply Z.pow_pos_nonneg; lia]. }
  assert (Ha : a = A * 2 ^ 48).
  { unfold a, A. replace (e + 48 - e') with (e - e' + 48) by lia.
    rewrite Z.pow_add_r by lia. ring. }
  assert (HN : N = A * 2 ^ (e' + 1074)).
  { unfold N, A. replace (e + 1074) with (e - e' + (e' + 1074)) by lia.
    rewrite Z.pow_add_r by lia. ring. }
  assert (Hc0 : 0 < 2 ^ (e' + 1074)) by (apply Z.pow_pos_nonneg; lia).
  assert (HN0 : 0 < N) by (rewrite HN; lia).
  assert (Hq : a / Zpos my20 = A / 20).
  { rewrite Ha, my20_eq. apply Z.div_mul_cancel_r; lia. }
  set (n := Z.max 0 (fexp64 (Zdigits2 (A / 20) + e') - e')).
  set (e1 := e' + n).
  set (M := rne N (20 * 2 ^ Kexp N)).
  set (n2 := Z.max 0 (fexp64 (Zdigits2 M + e1) - e1)).
  assert (Hn : 0 <= n) by (unfold n; lia).
  (* the exponent of the rounded quotient *)
  assert (HK : e1 + 1074 = Kexp N).
  { unfold e1, n, Kexp, fexp64.
    destruct (Z.eq_dec e' (-1074)) as [E|E].
    - rewrite HN, E. change (-1074 + 1074) with 0.
      rewrite Z.pow_0_r, Z.mul_1_r. lia.
    - assert (d = 53) by (unfold e' in E; lia).
      assert (Ee' : e' = e - 5) by (unfold e'; lia).
      assert (HA : A = Zpos m * 32).
      { unfold A. replace (e - e') with 5 by lia. reflexivity. }
      assert (Hq52 : 2 ^ 52 <= A / 20).
      { apply Z.div_le_lower_bound; [lia|].
        replace (d - 1) with 52 in Bm by lia. lia. }
      rewrite HN. rewrite Zdigits2_scale by lia.
      pose proof (Zdigits2_ge_pow (A / 20) 52 ltac:(lia) Hq52). lia. }
  assert (HKn : 2 ^ Kexp N = 2 ^ (e' + 1074) * 2 ^ n).
  { rewrite <- HK. unfold e1.
    replace (e' + n + 1074) with (e' + 1074 + n) by lia.
    apply Z.pow_add_r; lia. }
  assert (Hpn : 0 < 2 ^ n) by (apply Z.pow_pos_nonneg; lia).
  assert (HM : M = rne a (Zpos my20 * 2 ^ n)).
  { unfold M. rewrite HKn, Ha, my20_eq, HN.
    replace (20 * 2 ^ 48 * 2 ^ n) with (20 * 2 ^ n * 2 ^ 48) by ring.
    rewrite rne_scale by lia.
    replace (20 * (2 ^ (e' + 1074) * 2 ^ n))
      with (20 * 2 ^ n * 2 ^ (e' + 1074)) by ring.
    rewrite rne_scale by lia. reflexivity. }
  rewrite (binary_round_aux_64 (xorb s false) _ e' _ a (Zpos my20) n M n2);
    [ | lia | lia | apply located_new_location; lia
      | rewrite Hq; reflexivity | exact HM | reflexivity ].
  rewrite xorb_false_r. fold e1.
  assert (HR : Rnd20 N = 2 ^ Kexp N * M) by reflexivity.
  assert (HKpos : 0 < 2 ^ Kexp N) by (rewrite HKn; lia).
  pose proof (Kexp_quotient_bounds N ltac:(lia)) as [Bq Bq'].
  pose proof (rne_bounds N (20 * 2 ^ Kexp N) ltac:(lia)) as BM. fold M in BM.
  (* the result does not exceed the dividend's exponent *)
  assert (He1 : e1 <= Z.max (e - 4) (-1074)).
  { assert (HQ0 : e + 1123 < 0 -> N / 20 = 0).
    { intros U. apply Z.div_small. split; [lia|]. unfold N.
      assert (e = -1074) by lia. subst e. change (-1074 + 1074) with 0.
      rewrite Z.pow_0_r, Z.mul_1_r.
      assert (2 ^ d <= 2 ^ 4) by (apply Z.pow_le_mono_r; lia).
      change (2 ^ 4) with 16 in *. lia. }
    destruct (Z.le_gt_cases 0 (e + 1123)) as [U|U].
    - assert (N / 20 < 2 ^ (e + 1123)).
      { apply Z.div_lt_upper_bound; [lia|].
        assert (2 ^ d <= 2 ^ 53) by (apply Z.pow_le_mono_r; lia).
        assert (Zpos m * 2 ^ (e + 1074) < 2 ^ 53 * 2 ^ (e + 1074))
          by (apply Z.mul_lt_mono_pos_r; [apply Z.pow_pos_nonneg|]; lia).
        replace (e + 1123) with (49 + (e + 1074)) by lia.
        rewrite Z.pow_add_r by lia. unfold N.
        change (2 ^ 53) with (16 * 2 ^ 49) in *. lia. }
      pose proof (Zdigits2_lt_pow (N / 20) (e + 1123)
                    ltac:(apply Z.div_pos; lia) U H) as D.
      unfold Kexp in HK. lia.
    - unfold Kexp in HK. rewrite (HQ0 U) in HK.
      change (Zdigits2 0) with 0 in HK. lia. }
  assert (HM53 : M < 2 ^ 53 \/ M = 2 ^ 53) by lia.
  clearbody M. rewrite HR. clear HR HM.
  destruct HM53 as [HM53|HM53].
  - (* no carry *)
    assert (HdM : Zdigits2 M <= 53) by (apply Zdigits2_lt_pow; lia).
    assert (Hn2 : n2 = 0) by (unfold n2, fexp64; lia).
    rewrite Hn2, Z.pow_0_r, Z.div_1_r, Z.add_0_r.
    destruct M as [|p|p] eqn:EM; try lia.
    + cbn [is_real valid_binary scaled]. rewrite Z.mul_0_r.
      destruct s; repeat split.
    + replace (e1 <=? 971) with true by (symmetry; apply Z.leb_le; lia).
      cbn [is_real valid_binary scaled]. split; [reflexivity|]. split.
      * unfold bounded, canonical_mantissa. rewrite fexp_64.
        apply andb_true_intro. split; [apply Z.eqb_eq|apply Z.leb_le; lia].
        change (Z.pos (digits2_pos p)) with (Zdigits2 (Zpos p)).
        unfold fexp64.
        destruct (Z.eq_dec e1 (-1074)) as [E1|E1]; [lia|].
        assert (2 ^ 52 <= Zpos p) by (specialize (Bq' ltac:(lia)); lia).
        pose proof (Zdigits2_ge_pow (Zpos p) 52 ltac:(lia) H). lia.
      * rewrite HK. f_equal. ring.
  - (* carry into the next binade *)
    assert (Hn2 : n2 = 1).
    { unfold n2. rewrite HM53. change (Zdigits2 (2 ^ 53)) with 54.
      unfold fexp64. lia. }
    rewrite Hn2, HM53.
    change (2 ^ 53 / 2 ^ 1) with (Zpos 4503599627370496).
    replace (e1 + 1 <=? 971) with true by (symmetry; apply Z.leb_le; lia).
    cbn [is_real valid_binary scaled]. split; [reflexivity|]. split.
    + unfold bounded, canonical_mantissa. rewrite fexp_64.
      apply andb_true_intro. split; [apply Z.eqb_eq|apply Z.leb_le; lia].
      change (Z.pos (digits2_pos 4503599627370496)) with 53.
      unfold fexp64. lia.
    + replace (e1 + 1 + 1074) with (1 + Kexp N) by lia.
      rewrite Z.pow_add_r by (unfold Kexp; lia). f_equal.
      change (2 ^ 53) with (4503599627370496 * 2 ^ 1). ring.
Qed.

(** Order of valid numbers *)
Lemma bounded_digits (m : positive) (e : Z) :
  bounded 53 1024 m e = true ->
  -1074 <= e <= 971 /\ Zpos m < 2 ^ 53 /\ (-1074 < e -> 2 ^ 52 <= Zpos m).
Proof.
  intros Hb. apply bounded_inv in Hb. destruct Hb as [Hc He].
  unfold fexp64 in Hc.
  pose proof (Zdigits2_bounds (Zpos m) ltac:(lia)) as B.
  pose proof (Zdigits2_pos (Zpos m) ltac:(lia)) as D.
  split; [lia|]. split.
  - assert (2 ^ Zdigits2 (Zpos m) <= 2 ^ 53) by (apply Z.pow_le_mono_r; lia).
    lia.
  - intros H. replace (Zdigits2 (Z.pos m) - 1) with 52 in B by lia. lia.
Qed.

Lemma scaled_lt_of_exp_lt (m1 m2 : positive) (e1 e2 : Z) :
  bounded 53 1024 m1 e1 = true -> bounded 53 1024 m2 e2 = true ->
  e1 < e2 ->
  Zpos m1 * 2 ^ (e1 + 1074) < Zpos m2 * 2 ^ (e2 + 1074).
Proof.
  intros H1 H2 He.
  apply bounded_digits in H1. apply bounded_digits in H2.
  destruct H1 as (B1 & U1 & _), H2 as (B2 & _ & L2).
  specialize (L2 ltac:(lia)).
  replace (e2 + 1074) with ((e2 - e1 - 1) + 1 + (e1 + 1074)) by lia.
  rewrite (Z.pow_add_r 2 (e2 - e1 - 1 + 1) (e1 + 1074)) by lia.
  rewrite (Z.pow_add_r 2 (e2 - e1 - 1) 1) by lia.
  assert (0 < 2 ^ (e1 + 1074)) by (apply Z.pow_pos_nonneg; lia).
  assert (0 < 2 ^ (e2 - e1 - 1)) by (apply Z.pow_pos_nonneg; lia).
  change (2 ^ 1) with 2. change (2 ^ 53) with (2 * 2 ^ 52) in U1.
  set (c := 2 ^ (e1 + 1074)) in *. set (k := 2 ^ (e2 - e1 - 1)) in *.
  set (h := 2 ^ 52) in *.
  assert (Zpos m1 * c < 2 * h * c) by (apply Z.mul_lt_mono_pos_r; lia).
  assert (h * (k * 2 * c) <= Zpos m2 * (k * 2 * c))
    by (apply Z.mul_le_mono_nonneg_r; nia).
  assert (h * (1 * 2 * c) <= h * (k * 2 * c)).
  { apply Z.mul_le_mono_nonneg_l; [unfold h; lia|].
    apply Z.mul_le_mono_nonneg_r; [lia|]. apply Z.mul_le_mono_nonneg_r; lia. }
  lia.
Qed.

Lemma lex_compare_scaled (m1 m2 : positive) (e1 e2 : Z) :
  bounded 53 1024 m1 e1 = true -> bounded 53 1024 m2 e2 = true ->
  match e1 ?= e2 with
  | Lt => Lt
  | Gt => Gt
  | Eq => Pos.compare_cont Eq m1 m2
  end = (Zpos m1 * 2 ^ (e1 + 1074) ?= Zpos m2 * 2 ^ (e2 + 1074)).
Proof.
  intros H1 H2. destruct (Z.compare_spec e1 e2) as [E|E|E].
  - subst e2. apply bounded_digits in H1.
    change (Pos.compare_cont Eq m1 m2) with (Zpos m1 ?= Zpos m2).
    apply Zmult_compare_compat_r.
    assert (0 < 2 ^ (e1 + 1074)) by (apply Z.pow_pos_nonneg; lia). lia.
  - symmetry. apply Z.compare_lt_iff. apply scaled_lt_of_exp_lt; assumption.
  - symmetry. apply Z.compare_gt_iff. apply scaled_lt_of_exp_lt; assumption.
Qed.

Lemma scaled_finite_pos (m : positive) (e : Z) :
  bounded 53 1024 m e = true -> 0 < Zpos m * 2 ^ (e + 1074).
Proof.
  intros H. apply bounded_digits in H.
  apply Z.mul_pos_pos; [lia|apply Z.pow_pos_nonneg; lia].
Qed.

Lemma SFcompare_scaled (x y : spec_float) :
  valid_binary 53 1024 x = true -> valid_binary 53 1024 y = true ->
  is_real x = true -> is_real y = true ->
  SFcompare x y = Some (scaled x ?= scaled y).
Proof.
  destruct x as [sx|sx| |sx mx ex], y as [sy|sy| |sy my ey];
    try discriminate; cbn [valid_binary is_real scaled SFcompare];
    intros Hx Hy _ _.
  - reflexivity.
  - pose proof (scaled_finite_pos my ey Hy).
    destruct sy; cbn [cond_Zopp]; f_equal; symmetry;
      [apply Z.compare_gt_iff|apply Z.compare_lt_iff]; lia.
  - pose proof (scaled_finite_pos mx ex Hx).
    destruct sx; cbn [cond_Zopp]; f_equal; symmetry;
      [apply Z.compare_lt_iff|apply Z.compare_gt_iff]; lia.
  - pose proof (scaled_finite_pos mx ex Hx).
    pose proof (scaled_finite_pos my ey Hy).
    pose proof (lex_compare_scaled mx my ex ey Hx Hy) as L.
    destruct sx, sy; cbn [cond_Zopp]; f_equal.
    + rewrite Z.compare_opp.
      rewrite (Z.compare_antisym (Zpos mx * 2 ^ (ex + 1074))), <- L.
      destruct (ex ?= ey); reflexivity.
    + symmetry. apply Z.compare_lt_iff. lia.
    + symmetry. apply Z.compare_gt_iff. lia.
    + exact L.
Qed.

(** Exact integers *)
Lemma iter_xO_pow (p d : positive) :
  Zpos (Pos.iter xO p d) = Zpos p * 2 ^ Zpos d.
Proof.
  induction d as [|d IH] using Pos.peano_ind.
  - cbn [Pos.iter]. rewrite Z.pow_1_r. lia.
  - rewrite Pos.iter_succ, Pos2Z.inj_xO, IH, Pos2Z.inj_succ.
    rewrite Z.pow_succ_r by lia. ring.
Qed.

Lemma binary_round_exact_eq (s : bool) (p : positive) :
  Zpos p < 2 ^ 53 ->
  exists mz : positive,
    binary_round 53 1024 s p 0 = S754_finite s mz (Zdigits2 (Zpos p) - 53) /\
    Zpos mz = Zpos p * 2 ^ (53 - Zdigits2 (Zpos p)) /\
    Zdigits2 (Zpos mz) = 53.
Proof.
  intros Hp.
  pose proof (Zdigits2_bounds (Zpos p) ltac:(lia)) as B.
  pose proof (Zdigits2_pos (Zpos p) ltac:(lia)) as D.
  pose proof (Zdigits2_lt_pow (Zpos p) 53 ltac:(lia) ltac:(lia) Hp) as D53.
  unfold binary_round. change (fexp 53 1024) with fexp64.
  change (Z.pos (digits2_pos p)) with (Zdigits2 (Zpos p)).
  set (d := Zdigits2 (Zpos p)) in *.
  assert (Hsh : exists mz, shl_align p 0 (fexp64 (d + 0)) = (mz, d - 53) /\
                           Zpos mz = Zpos p * 2 ^ (53 - d)).
  { unfold shl_align, fexp64. rewrite Z.add_0_r, Z.sub_0_r.
    replace (Z.max (d - 53) (-1074)) with (d - 53) by lia.
    destruct (d - 53) as [|q|q] eqn:E; try lia.
    - exists p. replace (53 - d) with 0 by lia.
      rewrite Z.pow_0_r, Z.mul_1_r. auto.
    - exists (Pos.iter xO p q). split; [reflexivity|].
      rewrite iter_xO_pow. f_equal. f_equal. lia. }
  destruct Hsh as (mz & -> & Hmz).
  assert (Hp2 : 0 < 2 ^ (53 - d)) by (apply Z.pow_pos_nonneg; lia).
  assert (Hdz : Zdigits2 (Zpos mz) = 53).
  { apply Zdigits2_unique; [|lia]. rewrite Hmz.
    assert (E1 : 2 ^ (53 - 1) = 2 ^ (d - 1) * 2 ^ (53 - d))
      by (rewrite <- Z.pow_add_r by lia; f_equal; lia).
    assert (E2 : 2 ^ 53 = 2 ^ d * 2 ^ (53 - d))
      by (rewrite <- Z.pow_add_r by lia; f_equal; lia).
    rewrite E1, E2. nia. }
  exists mz. split; [|split; assumption].
  rewrite (binary_round_aux_64 s _ _ _ (Zpos mz) 1 0 (Zpos mz) 0).
  - rewrite Z.pow_0_r, Z.div_1_r, !Z.add_0_r.
    replace (d - 53 <=? 971) with true by (symmetry; apply Z.leb_le; lia).
    reflexivity.
  - lia.
  - lia.
  - apply located_exact.
  - rewrite Hdz. unfold fexp64. lia.
  - rewrite Z.pow_0_r, Z.mul_1_r.
    rewrite <- (Z.mul_1_r (Zpos mz)) at 2. rewrite rne_exact; lia.
  - rewrite Hdz. unfold fexp64. lia.
Qed.

Lemma binary_round_exact (s : bool) (p : positive) :
  Zpos p < 2 ^ 53 ->
  let r := binary_round 53 1024 s p 0 in
  is_real r = true /\ valid_binary 53 1024 r = true /\
  scaled r = cond_Zopp s (Zpos p * 2 ^ 1074).
Proof.
  intros Hp. cbv zeta.
  pose proof (Zdigits2_pos (Zpos p) ltac:(lia)) as D.
  pose proof (Zdigits2_lt_pow (Zpos p) 53 ltac:(lia) ltac:(lia) Hp) as D53.
  destruct (binary_round_exact_eq s p Hp) as (mz & -> & Hmz & Hdz).
  set (d := Zdigits2 (Zpos p)) in *.
  cbn [is_real valid_binary scaled]. split; [reflexivity|]. split.
  - unfold bounded, canonical_mantissa. change (fexp 53 1024) with fexp64.
    change (Z.pos (digits2_pos mz)) with (Zdigits2 (Zpos mz)). rewrite Hdz.
    apply andb_true_intro. split; [apply Z.eqb_eq|apply Z.leb_le]; 
      unfold fexp64; lia.
  - f_equal. rewrite Hmz.
    assert (E : 2 ^ 1074 = 2 ^ (53 - d) * 2 ^ (d - 53 + 1074))
      by (rewrite <- Z.pow_add_r by lia; f_equal; lia).
    rewrite E. generalize (2 ^ (53 - d)) (2 ^ (d - 53 + 1074)). intros; ring.
Qed.

Lemma binary_normalize_exact (z : Z) :
  Z.abs z < 2 ^ 53 ->
  let r := binary_normalize 53 1024 z 0 false in
  is_real r = true /\ valid_binary 53 1024 r = true /\
  scaled r = z * 2 ^ 1074.
Proof.
  intros Hz. destruct z as [|p|p]; cbv zeta; cbn [binary_normalize].
  - split; [reflexivity|]. split; [reflexivity|].
    cbn [scaled]. rewrite Z.mul_0_l. reflexivity.
  - apply (binary_round_exact false p). lia.
  - pose proof (binary_round_exact true p ltac:(lia)) as (H1 & H2 & H3).
    cbv zeta in *. split; [assumption|]. split; [assumption|].
    rewrite H3. cbn [cond_Zopp]. generalize (2 ^ 1074). intros; lia.
Qed.

Lemma Math_floor_real (y : spec_float) :
  valid_binary 53 1024 y = true -> is_real y = true ->
  is_real (JS.Math_floor y) = true /\
  valid_binary 53 1024 (JS.Math_floor y) = true /\
  scaled (JS.Math_floor y) = floor_scaled (scaled y).
Proof.
  unfold floor_scaled.
  assert (Hu : 0 < 2 ^ 1074) by (apply Z.pow_pos_nonneg; lia).
  destruct y as [s|s| |s m e]; try discriminate; intros Hv _.
  - split; [reflexivity|]. split; [reflexivity|].
    cbn [JS.Math_floor scaled]. rewrite Z.div_0_l by lia. reflexivity.
  - cbn [valid_binary] in Hv. pose proof (bounded_digits m e Hv) as (Be & Um & _).
    cbn [JS.Math_floor]. unfold JS.prec, JS.emax.
    destruct (Z.leb_spec 0 e) as [He|He].
    + split; [reflexivity|]. split; [assumption|].
      cbn [scaled].
      assert (E : cond_Zopp s (Zpos m * 2 ^ (e + 1074)) =
                  cond_Zopp s (Zpos m * 2 ^ e) * 2 ^ 1074).
      { rewrite Z.pow_add_r by lia. generalize dependent (2 ^ 1074).
        intros u _. destruct s; cbn [cond_Zopp]; ring. }
      rewrite E, Z.div_mul by lia. reflexivity.
    + set (z := Z.shiftr (cond_Zopp s (Zpos m)) (- e)).
      assert (Hp : 0 < 2 ^ (- e)) by (apply Z.pow_pos_nonneg; lia).
      assert (Hz : z = cond_Zopp s (Zpos m) / 2 ^ (- e))
        by (unfold z; apply Z.shiftr_div_pow2; lia).
      assert (Habs : Z.abs z < 2 ^ 53).
      { rewrite Hz. destruct s; cbn [cond_Zopp].
        - assert (- Zpos m <= - Zpos m / 2 ^ (- e))
            by (apply Z.div_le_lower_bound; nia).
          assert (- Zpos m / 2 ^ (- e) < 0)
            by (apply Z.div_lt_upper_bound; lia).
          lia.
        - assert (0 <= Zpos m / 2 ^ (- e)) by (apply Z.div_pos; lia).
          assert (Zpos m / 2 ^ (- e) <= Zpos m).
          { apply Z.div_le_upper_bound; [lia|]. nia. }
          lia. }
      pose proof (binary_normalize_exact z Habs) as (R1 & R2 & R3).
      cbv zeta in R1, R2, R3.
      split; [assumption|]. split; [assumption|].
      rewrite R3. f_equal. rewrite Hz. cbn [scaled].
      assert (E1 : 2 ^ 1074 = 2 ^ (- e) * 2 ^ (e + 1074))
        by (rewrite <- Z.pow_add_r by lia; f_equal; lia).
      assert (Hp2 : 0 < 2 ^ (e + 1074)) by (apply Z.pow_pos_nonneg; lia).
      rewrite E1.
      replace (cond_Zopp s (Zpos m * 2 ^ (e + 1074)))
        with (cond_Zopp s (Zpos m) * 2 ^ (e + 1074))
        by (destruct s; cbn [cond_Zopp]; ring).
      rewrite Z.div_mul_cancel_r by lia. reflexivity.
Qed.

Lemma floor_scaled_mono (a b : Z) : a <= b -> floor_scaled a <= floor_scaled b.
Proof.
  intros H. unfold floor_scaled.
  assert (Hu : 0 < 2 ^ 1074) by (apply Z.pow_pos_nonneg; lia).
  apply Z.mul_le_mono_nonneg_r; [lia|]. apply Z.div_le_mono; assumption.
Qed.

Lemma Rnd20_nonneg (N : Z) : 0 <= N -> 0 <= Rnd20 N.
Proof.
  intros HN. unfold Rnd20.
  assert (0 <= Kexp N) by (unfold Kexp; lia).
  assert (0 < 2 ^ Kexp N) by (apply Z.pow_pos_nonneg; lia).
  pose proof (rne_bounds N (20 * 2 ^ Kexp N) ltac:(lia)).
  pose proof (Z.div_pos N (20 * 2 ^ Kexp N) HN ltac:(lia)).
  apply Z.mul_nonneg_nonneg; lia.
Qed.

Lemma Rnd20s_mono (N1 N2 : Z) : N1 <= N2 -> Rnd20s N1 <= Rnd20s N2.
Proof.
  intros H. unfold Rnd20s.
  destruct (Z.ltb_spec N1 0), (Z.ltb_spec N2 0).
  - pose proof (Rnd20_mono (- N2) (- N1) ltac:(lia)). lia.
  - pose proof (Rnd20_nonneg (- N1) ltac:(lia)).
    pose proof (Rnd20_nonneg N2 ltac:(lia)). lia.
  - lia.
  - apply Rnd20_mono. lia.
Qed.

Lemma div20_real (x : spec_float) :
  valid_binary 53 1024 x = true -> is_real x = true ->
  is_real (SFdiv 53 1024 x twenty) = true /\
  valid_binary 53 1024 (SFdiv 53 1024 x twenty) = true /\
  scaled (SFdiv 53 1024 x twenty) = Rnd20s (scaled x).
Proof.
  destruct x as [s|s| |s m e]; try discriminate; intros Hv _.
  - repeat split.
  - cbn [valid_binary] in Hv.
    pose proof (div20_finite s m e Hv) as (R1 & R2 & R3). cbv zeta in *.
    split; [assumption|]. split; [assumption|].
    rewrite R3. cbn [scaled]. unfold Rnd20s.
    pose proof (scaled_finite_pos m e Hv).
    destruct s; cbn [cond_Zopp].
    + destruct (Z.ltb_spec (- (Zpos m * 2 ^ (e + 1074))) 0); [|lia].
      rewrite Z.opp_involutive. reflexivity.
    + destruct (Z.ltb_spec (Zpos m * 2 ^ (e + 1074)) 0); [lia|]. reflexivity.
Qed.

(** ** Order of numbers

    [SFcompare] orders by sign, then exponent, then mantissa; that is a
    total preorder on the numbers other than [NaN], whether or not the
    mantissas are canonical. *)

Section NumberOrder.

Lemma ltb_trans (a b c : JS.number) :
  (a <? b)%js = true -> (b <? c)%js = true -> (a <? c)%js = true.
Proof.
  unfold JS.ltb, JS.IsLessThan, SFcompare.
  destruct a as [[|]|[|]| |[|] ma ea], b as [[|]|[|]| |[|] mb eb],
           c as [[|]|[|]| |[|] mc ec]; simpl; try discriminate; try reflexivity;
    intros; cmp_cases; simpl in *; try discriminate; try reflexivity; try lia.
Qed.

Lemma leb_ltb_trans (a b c : JS.number) :
  (a <=? b)%js = true -> (b <? c)%js = true -> (a <? c)%js = true.
Proof.
  unfold JS.leb, JS.ltb, JS.IsLessThan, SFcompare.
  destruct a as [[|]|[|]| |[|] ma ea], b as [[|]|[|]| |[|] mb eb],
           c as [[|]|[|]| |[|] mc ec]; simpl; try discriminate; try reflexivity;
    intros; cmp_cases; simpl in *; try discriminate; try reflexivity; try lia.
Qed.

Lemma geb_not_ltb (a b : JS.number) :
  (a >=? b)%js = true -> (a <? b)%js = false.
Proof.
  unfold JS.geb, JS.ltb. destruct (JS.IsLessThan a b) as [[|]|];
    intros; try discriminate; reflexivity.
Qed.

Lemma geb_not_nan (a b : JS.number) :
  (a >=? b)%js = true -> JS.is_nan a = false /\ JS.is_nan b = false.
Proof.
  unfold JS.geb, JS.IsLessThan.
  destruct a as [sa|sa| |sa ma ea], b as [sb|sb| |sb mb eb];
    simpl; try discriminate; auto.
Qed.

Lemma ltb_false_geb (a b : JS.number) :
  JS.is_nan a = false -> JS.is_nan b = false ->
  (a <? b)%js = false -> (a >=? b)%js = true.
Proof.
  unfold JS.geb, JS.ltb, JS.IsLessThan.
  destruct a as [sa|sa| |sa ma ea], b as [sb|sb| |sb mb eb];
    try discriminate; intros _ _;
    match goal with |- context [SFcompare ?x ?y] =>
      destruct (SFcompare x y) as [[| |]|] eqn:E end;
    try discriminate; try reflexivity; simpl in E; discriminate.
Qed.

Lemma geb_refl (a : JS.number) : JS.is_nan a = false -> (a >=? a)%js = true.
Proof.
  unfold JS.geb, JS.IsLessThan, SFcompare.
  destruct a as [[|]|[|]| |[|] ma ea]; try discriminate; intros _;
    try reflexivity; rewrite Z.compare_refl;
    change (Pos.compare_cont Eq ma ma) with (Pos.compare ma ma);
    rewrite Pos.compare_refl; reflexivity.
Qed.

(** [Math.max] of two numbers is at least the second. *)
Lemma Math_max_ge_r (x c : JS.number) :
  JS.is_nan x = false -> JS.is_nan c = false ->
  (JS.Math_max x c >=? c)%js = true.
Proof.
  intros Hx Hc. unfold JS.Math_max. rewrite Hx, Hc. cbn [orb].
  assert (H1 : JS.is_nan (JS.max_step JS.neg_Infinity x) = false).
  { unfold JS.max_step. destruct x as [[|]|[|]| |[|] m e]; try discriminate;
      reflexivity. }
  generalize dependent (JS.max_step JS.neg_Infinity x). intros h Hh.
  unfold JS.max_step.
  destruct (JS.is_pos_zero c && JS.is_neg_zero h); [apply geb_refl; assumption|].
  destruct (h <? c)%js eqn:E; [apply geb_refl; assumption|].
  apply ltb_false_geb; assumption.
Qed.

End NumberOrder.

(** ** Operations that never produce [NaN] from numbers *)

Section NotNaN.

Lemma binary_round_aux_not_nan (prec emax : Z) (s : bool) (mx ex : Z)
      (lx : location) (a b : Z) :
  0 <= a -> 0 < b -> located a b (shr_record_of_loc mx lx) ->
  JS.is_nan (binary_round_aux prec emax s mx ex lx) = false.
Proof.
  intros Ha Hb Hloc.
  rewrite (binary_round_aux_spec prec emax s mx ex lx a b Ha Hb Hloc).
  cbv zeta.
  set (n := Z.max 0 (fexp prec emax (Zdigits2 mx + ex) - ex)).
  set (M := rne a (b * 2 ^ n)).
  set (n2 := Z.max 0 (fexp prec emax (Zdigits2 M + (ex + n)) - (ex + n))).
  assert (Hbn : 0 < b * 2 ^ n).
  { apply Z.mul_pos_pos; [assumption|]. apply Z.pow_pos_nonneg; lia. }
  assert (HM : 0 <= M).
  { pose proof (rne_bounds a (b * 2 ^ n) Hbn).
    pose proof (Z.div_pos a (b * 2 ^ n) Ha Hbn). unfold M. lia. }
  assert (Hq : 0 <= M / 2 ^ n2).
  { apply Z.div_pos; [assumption|]. apply Z.pow_pos_nonneg; lia. }
  destruct (M / 2 ^ n2) as [|q|q]; try lia; [reflexivity|].
  destruct (ex + n + n2 <=? emax - prec); reflexivity.
Qed.

Lemma mul_finite_not_nan (a : JS.number) (s : bool) (m : positive) (e : Z) :
  JS.is_nan a = false -> JS.is_nan (a * S754_finite s m e)%js = false.
Proof.
  destruct a as [sa|sa| |sa ma ea]; try discriminate; intros _;
    try reflexivity.
  unfold JS.mul, SFmul.
  apply (binary_round_aux_not_nan _ _ _ _ _ _ (Zpos (ma * m)) 1);
    try lia. apply located_exact.
Qed.

Lemma div_finite_not_nan (a : JS.number) (s : bool) (m : positive) (e : Z) :
  JS.is_nan a = false -> JS.is_nan (a / S754_finite s m e)%js = false.
Proof.
  destruct a as [sa|sa| |sa ma ea]; try discriminate; intros _;
    try reflexivity.
  unfold JS.div, SFdiv, SFdiv_core_binary.
  set (e' := Z.min _ _). set (sh := ea - e - e').
  set (m' := match sh with Z0 => Zpos ma | Zpos _ => Z.shiftl (Zpos ma) sh
             | Zneg _ => 0 end).
  assert (Hm' : 0 <= m').
  { unfold m'. destruct sh; try lia. apply Z.shiftl_nonneg. lia. }
  pose proof (located_new_location m' (Zpos m) Hm' ltac:(lia)) as Hloc.
  unfold Z.div, Z.modulo in Hloc.
  destruct (Z.div_eucl m' (Zpos m)) as [q r].
  apply (binary_round_aux_not_nan _ _ _ _ _ _ m' (Zpos m)); try lia.
  exact Hloc.
Qed.

Lemma binary_normalize_not_nan (z e : Z) (s : bool) :
  JS.is_nan (binary_normalize JS.prec JS.emax z e s) = false.
Proof.
  destruct z as [|p|p]; [reflexivity| |];
    unfold binary_normalize, binary_round;
    destruct (shl_align p e _) as [mz ez];
    apply (binary_round_aux_not_nan _ _ _ _ _ _ (Zpos mz) 1); try lia;
    apply located_exact.
Qed.

Lemma Math_floor_not_nan (a : JS.number) :
  JS.is_nan a = false -> JS.is_nan (JS.Math_floor a) = false.
Proof.
  destruct a as [sa|sa| |sa ma ea]; try discriminate; intros _;
    try reflexivity.
  cbn [JS.Math_floor]. destruct (0 <=? ea); [reflexivity|].
  apply binary_normalize_not_nan.
Qed.

End NotNaN.

(** ** Properties of the mapper *)

Section Stage.

Lemma thresholds_increasing :
  (#10 <? #25)%js = true /\ (#25 <? #50)%js = true /\
  (#50 <? #75)%js = true /\ (#75 <? #95)%js = true /\
  (#95 <? #100)%js = true.
Proof. repeat split. Qed.

Lemma below_next (p : JS.number) :
  ((p <? #10)%js = true -> (p <? #25)%js = true) /\
  ((p <? #25)%js = true -> (p <? #50)%js = true) /\
  ((p <? #50)%js = true -> (p <? #75)%js = true) /\
  ((p <? #75)%js = true -> (p <? #95)%js = true) /\
  ((p <? #95)%js = true -> (p <? #100)%js = true).
Proof.
  destruct thresholds_increasing as (T1 & T2 & T3 & T4 & T5).
  repeat split; intros H; eapply ltb_trans; eassumption.
Qed.

(** C1.  The stage follows the threshold table, each band closed on the left
    and open on the right: below 10 [seed], from 10 below 25 [sprout], from
    25 below 50 [small], from 50 below 75 [medium], from 75 below 95
    [large], from 95 below 100 [flowering], from 100 on [fruiting]; in
    particular 25 gives [small], 95 gives [flowering] and 100 gives
    [fruiting]. *)
Theorem getStage_threshold_table :
  (forall percentage : JS.number,
     ((percentage <? #10)%js = true -> getStage percentage = seed) /\
     ((percentage >=? #10)%js = true -> (percentage <? #25)%js = true ->
      getStage percentage = sprout) /\
     ((percentage >=? #25)%js = true -> (percentage <? #50)%js = true ->
      getStage percentage = small) /\
     ((percentage >=? #50)%js = true -> (percentage <? #75)%js = true ->
      getStage percentage = medium) /\
     ((percentage >=? #75)%js = true -> (percentage <? #95)%js = true ->
      getStage percentage = large) /\
     ((percentage >=? #95)%js = true -> (percentage <? #100)%js = true ->
      getStage percentage = flowering) /\
     ((percentage >=? #100)%js = true -> getStage percentage = fruiting)) /\
  getStage (#25)%js = small /\
  getStage (#95)%js = flowering /\
  getStage (#100)%js = fruiting.
Proof.
  split; [|repeat split].
  intros p. pose proof (below_next p) as (B1 & B2 & B3 & B4 & B5).
  unfold getStage.
  repeat split; intros G; try intros L; try apply geb_not_ltb in G;
    destruct (p <? #10)%js, (p <? #25)%js, (p <? #50)%js, (p <? #75)%js,
             (p <? #95)%js, (p <? #100)%js;
    try reflexivity; exfalso; chain.
Qed.

(** The table at work: 24.9 is still a sprout, 25 is small. *)
Lemma getStage_threshold_table_witness :
  getStage (JS.decimal 249 1) = sprout /\ getStage (#25)%js = small.
Proof.
  destruct getStage_threshold_table as (T & _).
  destruct (T (JS.decimal 249 1)) as (_ & S2 & _).
  destruct (T (#25)%js) as (_ & _ & S3 & _).
  split; [apply S2|apply S3]; reflexivity.
Defined.

(** C4.  The stage never decreases when the percentage grows. *)
Theorem getStage_monotone (p1 p2 : JS.number) :
  (p1 <=? p2)%js = true -> stage_le (getStage p1) (getStage p2).
Proof.
  intros H.
  assert (M : forall t, (p2 <? t)%js = true -> (p1 <? t)%js = true)
    by (intros t; apply leb_ltb_trans; assumption).
  unfold getStage, stage_le.
  repeat match goal with
  | |- context [(p2 <? ?t)%js] =>
      let E := fresh "E" in
      destruct (p2 <? t)%js eqn:E; [rewrite (M t E); stage_cases p1|]
  end.
  stage_cases p1.
Qed.

Lemma getStage_monotone_witness :
  (#30 <=? #80)%js = true /\ stage_le (getStage (#30)%js) (getStage (#80)%js).
Proof.
  split; [reflexivity|]. apply (getStage_monotone (#30)%js (#80)%js).
  reflexivity.
Defined.

End Stage.

Section Geometry.

Lemma literal_0_8 : JS.decimal 8 1 = S754_finite false 7205759403792794 (-53).
Proof. reflexivity. Qed.

Lemma literal_0_6 : JS.decimal 6 1 = S754_finite false 5404319552844595 (-53).
Proof. reflexivity. Qed.

Lemma plantHeight_ge_5 (p : JS.number) :
  JS.is_nan p = false -> (plantHeight p >=? #5)%js = true.
Proof.
  intros Hp. unfold plantHeight, getPlantHeight. cbv zeta.
  apply Math_max_ge_r; [|reflexivity].
  rewrite literal_0_8. apply mul_finite_not_nan. assumption.
Qed.

Lemma stemHeight_ge_10 (p : JS.number) :
  JS.is_nan p = false -> (stemHeight p >=? #10)%js = true.
Proof.
  intros Hp. unfold stemHeight.
  apply Math_max_ge_r; [|reflexivity].
  rewrite literal_0_6. apply mul_finite_not_nan.
  apply (geb_not_nan _ _ (plantHeight_ge_5 p Hp)).
Qed.



End Geometry.

Section Colour.

(** C5.  The colour is a fixed lookup on the plant type: rose, tulip and
    daisy have their own colours, and every other plant type, "cactus" for
    one, gets the colour of an omitted plant type, the sunflower default. *)
Theorem plantColor_lookup :
  plantColor (Some "rose"%string) = "#ff6b9d"%string /\
  plantColor (Some "tulip"%string) = "#c44569"%string /\
  plantColor (Some "daisy"%string) = "#f8b500"%string /\
  plantColor None = "#ffd700"%string /\
  (forall t : string,
     t <> "rose"%string -> t <> "tulip"%string -> t <> "daisy"%string ->
     plantColor (Some t) = plantColor None) /\
  plantColor (Some "cactus"%string) = plantColor None.
Proof.
  repeat split. intros t Hr Ht Hd.
  unfold plantColor, plantType_default, getPlantColor.
  apply String.eqb_neq in Hr, Ht, Hd. rewrite Hr, Ht, Hd. reflexivity.
Qed.

Lemma plantColor_lookup_witness :
  plantColor (Some "orchid"%string) = plantColor None.
Proof.
  destruct plantColor_lookup as (_ & _ & _ & _ & F & _).
  apply (F "orchid"%string); discriminate.
Defined.

End Colour.

Section Leaves.

Lemma leb_scaled (a b : JS.number) :
  valid_binary 53 1024 a = true -> valid_binary 53 1024 b = true ->
  is_real a = true -> is_real b = true ->
  ((a <=? b)%js = true <-> scaled a <= scaled b).
Proof.
  intros Va Vb Ra Rb. unfold JS.leb, JS.IsLessThan.
  rewrite (SFcompare_scaled b a Vb Va Rb Ra).
  destruct (Z.compare_spec (scaled b) (scaled a)); split; intros;
    try reflexivity; try discriminate; lia.
Qed.

Lemma leafCount_real (p : JS.number) :
  valid_binary 53 1024 p = true -> is_real p = true ->
  is_real (leafCount p) = true /\
  valid_binary 53 1024 (leafCount p) = true /\
  scaled (leafCount p) = floor_scaled (Rnd20s (scaled p)).
Proof.
  intros V R. unfold leafCount.
  change (p / #20)%js with (SFdiv 53 1024 p twenty).
  destruct (div20_real p V R) as (R1 & V1 & S1).
  destruct (Math_floor_real _ V1 R1) as (R2 & V2 & S2).
  rewrite S1 in S2. auto.
Qed.

Lemma leafCount_not_nan (p : JS.number) :
  JS.is_nan p = false -> JS.is_nan (leafCount p) = false.
Proof.
  intros H. unfold leafCount. apply Math_floor_not_nan.
  change (#20)%js with twenty. apply div_finite_not_nan. assumption.
Qed.

Lemma leb_neg_Infinity (y : JS.number) :
  JS.is_nan y = false -> (JS.neg_Infinity <=? y)%js = true.
Proof. destruct y as [[|]|[|]| |[|] m e]; try discriminate; reflexivity. Qed.

Lemma leb_Infinity (y : JS.number) :
  JS.is_nan y = false -> (y <=? JS.Infinity)%js = true.
Proof. destruct y as [[|]|[|]| |[|] m e]; try discriminate; reflexivity. Qed.

(** [leafCount] never decreases when the percentage grows. *)
Lemma leafCount_monotone (p1 p2 : JS.number) :
  binary64 p1 -> binary64 p2 ->
  (p1 <=? p2)%js = true -> (leafCount p1 <=? leafCount p2)%js = true.
Proof.
  unfold binary64. change JS.prec with 53. change JS.emax with 1024.
  intros V1 V2 H.
  assert (N1 : JS.is_nan p1 = false)
    by (destruct p1; try reflexivity; destruct p2 as [?|[|]| |[|] ? ?];
        discriminate).
  assert (N2 : JS.is_nan p2 = false)
    by (destruct p2; try reflexivity; destruct p1 as [?|[|]| |[|] ? ?];
        discriminate).
  pose proof (leafCount_not_nan p1 N1) as L1.
  pose proof (leafCount_not_nan p2 N2) as L2.
  destruct (is_real p1) eqn:R1, (is_real p2) eqn:R2.
  - destruct (leafCount_real p1 V1 R1) as (A1 & B1 & C1).
    destruct (leafCount_real p2 V2 R2) as (A2 & B2 & C2).
    apply (leb_scaled _ _ B1 B2 A1 A2). rewrite C1, C2.
    apply floor_scaled_mono, Rnd20s_mono.
    apply (leb_scaled _ _ V1 V2 R1 R2). assumption.
  - destruct p2 as [?|[|]| |? ? ?]; try discriminate.
    + destruct p1 as [[|]|?| |[|] ? ?]; discriminate.
    + apply leb_Infinity. assumption.
  - destruct p1 as [?|[|]| |? ? ?]; try discriminate.
    + apply leb_neg_Infinity. assumption.
    + destruct p2 as [[|]|?| |[|] ? ?]; discriminate.
  - destruct p1 as [?|[|]| |? ? ?], p2 as [?|[|]| |? ? ?];
      try discriminate; reflexivity.
Qed.

Lemma binary_round_aux_sign (prec emax : Z) (s : bool) (mx ex : Z)
      (lx : location) (a b : Z) :
  0 <= a -> 0 < b -> located a b (shr_record_of_loc mx lx) ->
  sign_bit (binary_round_aux prec emax s mx ex lx) = s.
Proof.
  intros Ha Hb Hloc.
  pose proof (binary_round_aux_not_nan prec emax s mx ex lx a b Ha Hb Hloc) as N.
  rewrite (binary_round_aux_spec prec emax s mx ex lx a b Ha Hb Hloc) in *.
  cbv zeta in *.
  destruct (_ / _) as [|q|q]; try discriminate; [reflexivity|].
  destruct (_ <=? _); reflexivity.
Qed.

Lemma below_zero_sign (p : JS.number) :
  (p <? #0)%js = true -> sign_bit p = true /\ JS.is_nan p = false.
Proof. destruct p as [[|]|[|]| |[|] m e]; try discriminate; auto. Qed.

Lemma div20_sign (p : JS.number) :
  JS.is_nan p = false -> sign_bit (p / #20)%js = sign_bit p.
Proof.
  destruct p as [s|s| |s m e]; try discriminate; intros _;
    try (destruct s; reflexivity).
  change (#20)%js with twenty. unfold JS.div, SFdiv, twenty, SFdiv_core_binary.
  set (e' := Z.min _ _). set (sh := e - -48 - e').
  set (m' := match sh with Z0 => Zpos m | Zpos _ => Z.shiftl (Zpos m) sh
             | Zneg _ => 0 end).
  assert (Hm' : 0 <= m').
  { unfold m'. destruct sh; try lia. apply Z.shiftl_nonneg. lia. }
  pose proof (located_new_location m' (Zpos my20) Hm' ltac:(lia)) as Hloc.
  unfold Z.div, Z.modulo in Hloc.
  destruct (Z.div_eucl m' (Zpos my20)) as [q r].
  rewrite (binary_round_aux_sign _ _ _ _ _ _ m' (Zpos my20)); try lia;
    [apply xorb_false_r|exact Hloc].
Qed.

Lemma ToLength_negative (x : JS.number) :
  sign_bit x = true -> JS.ToLength x = 0.
Proof.
  destruct x as [s|s| |s m e]; cbn [sign_bit JS.ToLength JS.truncate];
    try discriminate; intros ->; try reflexivity.
  cbn [cond_Zopp].
  assert (0 <= (if 0 <=? e then Z.shiftl (Zpos m) e
                else Z.shiftr (Zpos m) (- e))).
  { destruct (0 <=? e); [apply Z.shiftl_nonneg|apply Z.shiftr_nonneg]; lia. }
  lia.
Qed.

Lemma scaled_inj (x y : JS.number) :
  valid_binary 53 1024 x = true -> valid_binary 53 1024 y = true ->
  is_real x = true -> is_real y = true ->
  sign_bit x = sign_bit y -> scaled x = scaled y -> x = y.
Proof.
  destruct x as [sx|sx| |sx mx ex], y as [sy|sy| |sy my ey];
    try discriminate; cbn [valid_binary is_real sign_bit scaled];
    intros Vx Vy _ _ Hs H.
  - congruence.
  - pose proof (scaled_finite_pos my ey Vy). destruct sy; cbn [cond_Zopp] in H; lia.
  - pose proof (scaled_finite_pos mx ex Vx). destruct sx; cbn [cond_Zopp] in H; lia.
  - subst sy.
    assert (E : Zpos mx * 2 ^ (ex + 1074) = Zpos my * 2 ^ (ey + 1074))
      by (destruct sx; cbn [cond_Zopp] in H; lia).
    pose proof (lex_compare_scaled mx my ex ey Vx Vy) as L.
    rewrite E, Z.compare_refl in L.
    destruct (Z.compare_spec ex ey); try discriminate. subst ey.
    change (Pos.compare_cont Eq mx my) with (Pos.compare mx my) in L.
    apply Pos.compare_eq in L. subst my. reflexivity.
Qed.

Lemma Math_floor_sign_bit (x : JS.number) :
  sign_bit (JS.Math_floor x) = sign_bit x.
Proof.
  destruct x as [s|s| |s m e]; try reflexivity.
  cbn [sign_bit JS.Math_floor]. destruct (Z.leb_spec 0 e); [reflexivity|].
  assert (Hz : if s then Z.shiftr (cond_Zopp s (Zpos m)) (- e) < 0
               else 0 <= Z.shiftr (cond_Zopp s (Zpos m)) (- e)).
  { destruct s; cbn [cond_Zopp Z.opp].
    - apply Z.shiftr_neg. lia.
    - apply Z.shiftr_nonneg. lia. }
  destruct (Z.shiftr (cond_Zopp s (Zpos m)) (- e)) as [|z|z];
    [destruct s; [lia|reflexivity]| |];
    (destruct s; try lia);
    unfold binary_normalize, binary_round;
    destruct (shl_align z 0 _) as [mz ez];
    apply (binary_round_aux_sign _ _ _ _ _ _ (Zpos mz) 1); try lia;
    apply located_exact.
Qed.

Lemma of_Z_sign_bit (z : Z) : 0 <= z -> sign_bit (#z)%js = false.
Proof.
  intros Hz. unfold JS.of_Z. destruct z as [|p|p]; try lia; [reflexivity|].
  unfold binary_normalize, binary_round.
  destruct (shl_align p 0 _) as [mz ez].
  apply (binary_round_aux_sign _ _ _ _ _ _ (Zpos mz) 1); try lia.
  apply located_exact.
Qed.

Lemma Rnd20_integer (z : Z) :
  0 <= z < 2 ^ 52 ->
  floor_scaled (Rnd20 (z * 2 ^ 1074)) = z / 20 * 2 ^ 1074.
Proof.
  intros Hz. unfold floor_scaled, Rnd20.
  set (U := 2 ^ 1074). set (N := z * U).
  assert (HU : 0 < U) by (apply Z.pow_pos_nonneg; lia).
  assert (HN : 0 <= N) by (unfold N; nia).
  set (k := Kexp N).
  assert (Hk : 0 <= k <= 1069).
  { unfold k, Kexp.
    assert (N / 20 < 2 ^ 1122).
    { apply Z.div_lt_upper_bound; [lia|]. unfold N, U.
      replace (20 * 2 ^ 1122) with (20 * 2 ^ 48 * 2 ^ 1074)
        by (rewrite <- Z.mul_assoc, <- Z.pow_add_r by lia; reflexivity).
      apply Z.mul_lt_mono_pos_r; [exact HU|].
      change (2 ^ 52) with 4503599627370496 in Hz.
      change (20 * 2 ^ 48) with 5629499534213120. lia. }
    pose proof (Zdigits2_lt_pow (N / 20) 1122 ltac:(apply Z.div_pos; lia)
                  ltac:(lia) H). lia. }
  set (K := 2 ^ k). set (c := 2 ^ (1074 - k)).
  assert (HK : 0 < K) by (apply Z.pow_pos_nonneg; lia).
  assert (Hc : 32 <= c).
  { change 32 with (2 ^ 5). apply Z.pow_le_mono_r; lia. }
  assert (HUc : U = c * K).
  { unfold U, c, K. rewrite <- Z.pow_add_r by lia. f_equal. lia. }
  pose proof (Z.div_mod z 20 ltac:(lia)) as Hqr.
  pose proof (Z.mod_pos_bound z 20 ltac:(lia)) as Hr.
  set (q := z / 20) in *. set (r := z mod 20) in *.
  assert (Hq : 0 <= q) by (apply Z.div_pos; lia).
  assert (HNe : N = (20 * (q * c) + r * c) * K) by (unfold N; rewrite HUc; nia).
  assert (HM : rne N (20 * K) = rne (20 * (q * c) + r * c) 20).
  { rewrite HNe. apply rne_scale; lia. }
  rewrite HM.
  assert (Lo : q * c <= rne (20 * (q * c) + r * c) 20)
    by (apply rne_ge; nia).
  assert (Hi : rne (20 * (q * c) + r * c) 20 <= q * c + c - 1).
  { pose proof (rne_bounds (20 * (q * c) + r * c) 20 ltac:(lia)) as [_ B].
    assert ((20 * (q * c) + r * c) / 20 <= q * c + c - 2); [|lia].
    apply Z.lt_succ_r. apply Z.div_lt_upper_bound; nia. }
  generalize dependent (rne (20 * (q * c) + r * c) 20). intros M _ Lo Hi.
  rewrite HUc. f_equal.
  symmetry. apply (Z.div_unique_pos _ _ q (K * M - q * (c * K))); nia.
Qed.

(** On integer percentages from 0 below [2^52], [leafCount] is the integer
    quotient by twenty. *)
Lemma leafCount_of_Z (z : Z) :
  0 <= z < 2 ^ 52 -> leafCount (#z)%js = (#(z / 20))%js.
Proof.
  intros Hz.
  assert (Hq : 0 <= z / 20 <= z).
  { split; [apply Z.div_pos; lia|]. apply Z.div_le_upper_bound; lia. }
  assert (H53 : 2 ^ 52 < 2 ^ 53) by reflexivity.
  destruct (binary_normalize_exact z ltac:(lia)) as (R1 & V1 & S1).
  destruct (binary_normalize_exact (z / 20) ltac:(lia)) as (R2 & V2 & S2).
  cbv zeta in *.
  change (binary_normalize 53 1024 z 0 false) with (#z)%js in R1, V1, S1.
  change (binary_normalize 53 1024 (z / 20) 0 false) with (#(z / 20))%js
    in R2, V2, S2.
  destruct (leafCount_real (#z)%js V1 R1) as (R3 & V3 & S3).
  apply scaled_inj; try assumption.
  - unfold leafCount. rewrite Math_floor_sign_bit, div20_sign.
    + rewrite !of_Z_sign_bit by lia. reflexivity.
    + destruct (#z)%js; try discriminate; reflexivity.
  - rewrite S3, S1, S2. unfold Rnd20s.
    assert (0 < 2 ^ 1074) by (apply Z.pow_pos_nonneg; lia).
    destruct (Z.ltb_spec (z * 2 ^ 1074) 0); [nia|].
    apply Rnd20_integer. assumption.
Qed.

(** C2.  [leafCount] is [Math.floor(percentage / 20)]: the floor of the
    binary64 quotient, which on integer percentages from 0 below [2^52] is
    the integer quotient by twenty.  It never decreases when the percentage
    grows, and it is 0 at 0, 5 at 100 and 7 at 150. *)
Theorem leafCount_floor_div_20 :
  (forall p : JS.number, leafCount p = JS.Math_floor (p / #20)%js) /\
  (forall z : Z, 0 <= z < 2 ^ 52 -> leafCount (#z)%js = (#(z / 20))%js) /\
  (forall p1 p2 : JS.number,
     binary64 p1 -> binary64 p2 ->
     (p1 <=? p2)%js = true -> (leafCount p1 <=? leafCount p2)%js = true) /\
  leafCount (#0)%js = (#0)%js /\
  leafCount (#100)%js = (#5)%js /\
  leafCount (#150)%js = (#7)%js.
Proof.
  split; [reflexivity|]. split; [exact leafCount_of_Z|].
  split; [exact leafCount_monotone|].
  repeat split.
Qed.

Lemma leafCount_floor_div_20_witness :
  (leafCount (JS.decimal 399 1) <=? leafCount (#40)%js)%js = true.
Proof.
  destruct leafCount_floor_div_20 as (_ & _ & M & _).
  apply (M (JS.decimal 399 1) (#40)%js); reflexivity.
Defined.

End Leaves.

(** ** The rendered children *)

Section Render.

Lemma Array_from_inv {A : Type} (len : JS.number) (f : JS.number -> A)
      (l : list A) :
  JS.Array_from len f = JS.Normal l ->
  JS.ToLength len <= 2 ^ 32 - 1 /\
  l = List.map (fun k => f (#k)%js) (JS.indices (JS.ToLength len)).
Proof.
  unfold JS.Array_from. cbv zeta.
  destruct (Z.ltb_spec (2 ^ 32 - 1) (JS.ToLength len)); [discriminate|].
  intros E. injection E as <-. split; [assumption|reflexivity].
Qed.

Lemma Array_from_Forall {A : Type} (P : A -> Prop) (len : JS.number)
      (f : JS.number -> A) (l : list A) :
  (forall i, P (f i)) -> JS.Array_from len f = JS.Normal l -> Forall P l.
Proof.
  intros HP E. apply Array_from_inv in E. destruct E as [_ ->].
  apply Forall_forall. intros x Hx. apply in_map_iff in Hx.
  destruct Hx as (k & <- & _). apply HP.
Qed.

Lemma Array_from_length {A : Type} (len : JS.number) (f : JS.number -> A)
      (l : list A) :
  JS.Array_from len f = JS.Normal l ->
  Z.of_nat (List.length l) = JS.ToLength len.
Proof.
  intros E. apply Array_from_inv in E. destruct E as [_ ->].
  unfold JS.indices. rewrite !length_map, length_seq.
  apply Z2Nat.id.
  unfold JS.ToLength. destruct len as [s|[|]| |s m e]; lia.
Qed.

Lemma filter_none (f : element -> bool) (l : list element) :
  Forall (fun e => f e = false) l -> List.filter f l = [].
Proof.
  induction 1 as [|x l Hx _ IH]; [reflexivity|].
  cbn [List.filter]. rewrite Hx. exact IH.
Qed.

Lemma filter_all (f : element -> bool) (l : list element) :
  Forall (fun e => f e = true) l -> List.filter f l = l.
Proof.
  induction 1 as [|x l Hx _ IH]; [reflexivity|].
  cbn [List.filter]. rewrite Hx, IH. reflexivity.
Qed.

Lemma leafChildren_leaves (p : JS.number) (l : list element) :
  leafChildren p = JS.Normal l -> Forall (fun e => exists i, e = leaf i) l.
Proof. apply Array_from_Forall. intros i. exists i. reflexivity. Qed.

Lemma petalChildren_petals (p : JS.number) (t : option string)
      (l : list element) :
  petalChildren p t = JS.Normal l ->
  Forall (fun e => exists i r c, e = petal i r c) l.
Proof.
  unfold petalChildren. cbv zeta. destruct (is_flower (getStage p)).
  - apply Array_from_Forall. intros i. do 3 eexists. reflexivity.
  - intros E. injection E as <-. constructor.
Qed.

Lemma sparkleChildren_sparkles (p : JS.number) (l : list element) :
  sparkleChildren p = JS.Normal l ->
  Forall (fun e => exists i x y, e = sparkle i x y) l.
Proof.
  unfold sparkleChildren. destruct (p >=? #25)%js.
  - apply Array_from_Forall. intros i. do 3 eexists. reflexivity.
  - intros E. injection E as <-. constructor.
Qed.

(** A completed render is the concatenation of its children. *)
Lemma PlantVisualization_inv (p : JS.number) (t : option string)
      (els : list element) :
  PlantVisualization p t = JS.Normal els ->
  exists leaves petals sparkles,
    leafChildren p = JS.Normal leaves /\
    petalChildren p t = JS.Normal petals /\
    sparkleChildren p = JS.Normal sparkles /\
    els = [soil] ++ rendered (stemChild p) ++ leaves
          ++ rendered (flowerCenterChild p t) ++ petals
          ++ rendered (fruitChild p) ++ rendered (seedChild p)
          ++ rendered (sproutChild p) ++ sparkles.
Proof.
  unfold PlantVisualization. cbv zeta.
  destruct (leafChildren p) as [leaves|]; [|discriminate].
  destruct (petalChildren p t) as [petals|]; [|discriminate].
  destruct (sparkleChildren p) as [sparkles|]; [|discriminate].
  cbn [JS.bind]. intros E. injection E as <-.
  exists leaves, petals, sparkles. repeat split.
Qed.

Lemma petalChildren_eval (p : JS.number) (t : option string) :
  petalChildren p t =
  JS.Normal (if is_flower (getStage p) then eight_petals (plantColor t)
             else []).
Proof.
  unfold petalChildren. cbv zeta.
  destruct (is_flower (getStage p)); reflexivity.
Qed.

Lemma sparkleChildren_eval (p : JS.number) :
  sparkleChildren p =
  JS.Normal (if (p >=? #25)%js then three_sparkles else []).
Proof.
  unfold sparkleChildren. destruct (p >=? #25)%js; reflexivity.
Qed.

(** What a completed render holds of each gated kind. *)
Lemma PlantVisualization_kinds (p : JS.number) (t : option string)
      (els : list element) :
  PlantVisualization p t = JS.Normal els ->
  List.filter is_stem els = rendered (stemChild p) /\
  List.filter is_fruit els = rendered (fruitChild p) /\
  JS.Normal (List.filter is_leaf els) = leafChildren p /\
  JS.Normal (List.filter is_petal els) = petalChildren p t /\
  JS.Normal (List.filter is_sparkle els) = sparkleChildren p.
Proof.
  intros E. apply PlantVisualization_inv in E.
  destruct E as (leaves & petals & sparkles & EL & EP & ES & ->).
  pose proof (leafChildren_leaves _ _ EL) as FL.
  pose proof (petalChildren_petals _ _ _ EP) as FP.
  pose proof (sparkleChildren_sparkles _ _ ES) as FS.
  rewrite EL, EP, ES. rewrite !filter_app.
  rewrite (filter_none is_stem leaves), (filter_none is_stem petals),
    (filter_none is_stem sparkles), (filter_none is_fruit leaves),
    (filter_none is_fruit petals), (filter_none is_fruit sparkles),
    (filter_all is_leaf leaves), (filter_none is_leaf petals),
    (filter_none is_leaf sparkles), (filter_none is_petal leaves),
    (filter_all is_petal petals), (filter_none is_petal sparkles),
    (filter_none is_sparkle leaves), (filter_none is_sparkle petals),
    (filter_all is_sparkle sparkles)
    by (first [kind_of FL | kind_of FP | kind_of FS]).
  unfold stemChild, flowerCenterChild, fruitChild, seedChild, sproutChild,
    when. cbv zeta.
  destruct (negb (Stage_eqb (getStage p) seed)),
           (is_flower (getStage p)), (Stage_eqb (getStage p) fruiting),
           (Stage_eqb (getStage p) seed), (Stage_eqb (getStage p) sprout);
    cbn; rewrite ?app_nil_r; repeat split.
Qed.

End Render.

Section Gating.

Lemma is_flower_iff (s : Stage) :
  is_flower s = true <-> s = flowering \/ s = fruiting.
Proof.
  destruct s; cbn; split; intros H; try discriminate; auto;
    destruct H; discriminate.
Qed.

Lemma Stage_eqb_eq (a b : Stage) : Stage_eqb a b = true <-> a = b.
Proof. destruct a, b; cbn; split; intros; congruence. Qed.

(** C6.  The eight petals, rotated by multiples of 45 degrees, are there
    only in the stages [flowering] and [fruiting], and the fruit marker only
    in the stage [fruiting]; in every other stage there is no petal and no
    fruit marker.  This holds of the child expressions and of every
    completed render. *)
Theorem petals_and_fruit_gating (p : JS.number) (t : option string) :
  (getStage p = flowering \/ getStage p = fruiting ->
   petalChildren p t = JS.Normal (eight_petals (plantColor t))) /\
  (getStage p = fruiting ->
   fruitChild p = Some (fruit (#190 - stemHeight p)%js)) /\
  (getStage p <> fruiting -> fruitChild p = None) /\
  (getStage p <> flowering -> getStage p <> fruiting ->
   petalChildren p t = JS.Normal [] /\ fruitChild p = None) /\
  List.length (eight_petals (plantColor t)) = 8%nat /\
  (forall els : list element,
     PlantVisualization p t = JS.Normal els ->
     (List.filter is_petal els <> [] ->
      getStage p = flowering \/ getStage p = fruiting) /\
     (List.filter is_fruit els <> [] -> getStage p = fruiting) /\
     (getStage p = flowering \/ getStage p = fruiting ->
      List.filter is_petal els = eight_petals (plantColor t)) /\
     (getStage p = fruiting ->
      List.filter is_fruit els = [fruit (#190 - stemHeight p)%js])).
Proof.
  rewrite petalChildren_eval. unfold fruitChild, when. cbv zeta.
  pose proof (is_flower_iff (getStage p)) as F.
  pose proof (Stage_eqb_eq (getStage p) fruiting) as Q.
  assert (P1 : getStage p = flowering \/ getStage p = fruiting ->
               is_flower (getStage p) = true) by apply F.
  assert (P2 : getStage p = fruiting ->
               Stage_eqb (getStage p) fruiting = true) by apply Q.
  assert (P3 : getStage p <> fruiting ->
               Stage_eqb (getStage p) fruiting = false).
  { intros H. destruct (Stage_eqb (getStage p) fruiting); [|reflexivity].
    exfalso. apply H, Q. reflexivity. }
  assert (P4 : getStage p <> flowering -> getStage p <> fruiting ->
               is_flower (getStage p) = false).
  { intros H1 H2. destruct (is_flower (getStage p)); [|reflexivity].
    exfalso. destruct F as [F _]. destruct (F eq_refl); contradiction. }
  split; [intros H; rewrite (P1 H); reflexivity|].
  split; [intros H; rewrite (P2 H); reflexivity|].
  split; [intros H; rewrite (P3 H); reflexivity|].
  split; [intros H1 H2; rewrite (P4 H1 H2), (P3 H2); split; reflexivity|].
  split; [reflexivity|].
  intros els E. apply PlantVisualization_kinds in E.
  destruct E as (_ & EF & _ & EP & _).
  rewrite petalChildren_eval in EP. injection EP as EP.
  unfold fruitChild, when in EF. cbv zeta in EF. rewrite EP, EF.
  repeat split.
  - intros H. apply F. destruct (is_flower (getStage p)); [reflexivity|].
    contradiction.
  - intros H. apply Q. destruct (Stage_eqb (getStage p) fruiting);
      [reflexivity|contradiction].
  - intros H. rewrite (P1 H). reflexivity.
  - intros H. rewrite (P2 H). reflexivity.
Qed.

(** At 95 percent the plant flowers: eight petals, no fruit yet. *)
Lemma petals_and_fruit_gating_witness :
  petalChildren (#95)%js None = JS.Normal (eight_petals "#ffd700"%string) /\
  fruitChild (#95)%js = None.
Proof.
  destruct (petals_and_fruit_gating (#95)%js None) as (P & _ & F & _).
  split; [apply P; left; reflexivity|apply F; discriminate].
Defined.

End Gating.

Section Totality.

Lemma negative_is_seed (p : JS.number) :
  (p <? #0)%js = true -> getStage p = seed.
Proof.
  intros H. unfold getStage.
  rewrite (ltb_trans p (#0)%js (#10)%js H eq_refl). reflexivity.
Qed.

(** C7.  The mapper is total: for every percentage and every plant type,
    given or omitted, it has a result, made of one of the seven stages, a
    colour and three numbers.  A negative percentage gives the stage [seed];
    a plant type outside rose, tulip and daisy gives the default colour; and
    the three numbers are never [NaN] unless the percentage itself is. *)
Theorem mapper_total (p : JS.number) (t : option string) :
  exists d : Derived,
    derive p t = d /\
    ((p <? #0)%js = true -> d_stage d = seed) /\
    (forall name : string,
       t = Some name -> name <> "rose"%string -> name <> "tulip"%string ->
       name <> "daisy"%string -> d_plantColor d = plantColor None) /\
    (JS.is_nan p = false ->
     JS.is_nan (d_plantHeight d) = false /\
     JS.is_nan (d_stemHeight d) = false /\
     JS.is_nan (d_leafCount d) = false).
Proof.
  exists (derive p t). split; [reflexivity|]. cbn [derive d_stage d_plantColor
    d_plantHeight d_stemHeight d_leafCount].
  split; [apply negative_is_seed|]. split.
  - intros name -> Hr Ht Hd.
    unfold plantColor, plantType_default, getPlantColor.
    apply String.eqb_neq in Hr, Ht, Hd. rewrite Hr, Ht, Hd. reflexivity.
  - intros Hp. split; [|split].
    + apply (geb_not_nan _ _ (plantHeight_ge_5 p Hp)).
    + apply (geb_not_nan _ _ (stemHeight_ge_10 p Hp)).
    + apply leafCount_not_nan. assumption.
Qed.

Lemma mapper_total_witness :
  d_stage (derive (#(-5))%js (Some "cactus"%string)) = seed /\
  d_plantColor (derive (#(-5))%js (Some "cactus"%string)) = "#ffd700"%string.
Proof.
  destruct (mapper_total (#(-5))%js (Some "cactus"%string))
    as (d & <- & S & C & _).
  split; [apply S; reflexivity|].
  apply (C "cactus"%string); [reflexivity|discriminate..].
Defined.

End Totality.

Section LeafElements.

Lemma truncate_scaled (x : JS.number) :
  valid_binary 53 1024 x = true ->
  JS.truncate x = Z.quot (scaled x) (2 ^ 1074).
Proof.
  assert (HU : 0 < 2 ^ 1074) by (apply Z.pow_pos_nonneg; lia).
  destruct x as [s|s| |s m e]; cbn [JS.truncate scaled valid_binary];
    try (intros _; rewrite Z.quot_0_l by lia; reflexivity).
  intros V. pose proof (bounded_digits m e V) as (Be & _ & _).
  assert (E : Z.quot (Zpos m * 2 ^ (e + 1074)) (2 ^ 1074) =
              if 0 <=? e then Z.shiftl (Zpos m) e
              else Z.shiftr (Zpos m) (- e)).
  { destruct (Z.leb_spec 0 e) as [He|He].
    - rewrite Z.shiftl_mul_pow2, Z.pow_add_r, Z.mul_assoc by lia.
      apply Z.quot_mul. lia.
    - rewrite Z.shiftr_div_pow2 by lia.
      assert (Hp : 0 < 2 ^ (e + 1074)) by (apply Z.pow_pos_nonneg; lia).
      assert (Hq : 0 < 2 ^ (- e)) by (apply Z.pow_pos_nonneg; lia).
      assert (E1 : 2 ^ 1074 = 2 ^ (- e) * 2 ^ (e + 1074))
        by (rewrite <- Z.pow_add_r by lia; f_equal; lia).
      rewrite E1. rewrite Z.quot_div_nonneg by nia.
      apply Z.div_mul_cancel_r; lia. }
  destruct s; cbn [cond_Zopp]; [rewrite Z.quot_opp_l by lia|];
    rewrite E; reflexivity.
Qed.

Lemma ToLength_range (x : JS.number) : 0 <= JS.ToLength x <= 2 ^ 53 - 1.
Proof.
  unfold JS.ToLength. change (2 ^ 53 - 1) with 9007199254740991.
  destruct x as [s|[|]| |s m e]; lia.
Qed.

(** [ToLength] respects the order of numbers. *)
Lemma ToLength_mono (a b : JS.number) :
  valid_binary 53 1024 a = true -> valid_binary 53 1024 b = true ->
  (a <=? b)%js = true -> JS.ToLength a <= JS.ToLength b.
Proof.
  intros Va Vb H.
  pose proof (ToLength_range a) as Ra. pose proof (ToLength_range b) as Rb.
  destruct (is_real a) eqn:Ea, (is_real b) eqn:Eb.
  - apply (leb_scaled a b Va Vb Ea Eb) in H.
    assert (Q : Z.quot (scaled a) (2 ^ 1074) <= Z.quot (scaled b) (2 ^ 1074)).
    { apply Z.quot_le_mono; [apply Z.pow_pos_nonneg; lia|assumption]. }
    rewrite <- !truncate_scaled in Q by assumption.
    change (2 ^ 53 - 1) with 9007199254740991 in *.
    unfold JS.ToLength in *.
    destruct a as [?|?| |? ? ?], b as [?|?| |? ? ?]; try discriminate; lia.
  - destruct a as [[|]|[|]| |[|] ? ?], b as [[|]|[|]| |[|] ? ?];
      try discriminate; cbn [JS.ToLength] in *; lia.
  - destruct a as [[|]|[|]| |[|] ? ?], b as [[|]|[|]| |[|] ? ?];
      try discriminate; cbn [JS.ToLength] in *; lia.
  - destruct a as [[|]|[|]| |[|] ? ?], b as [[|]|[|]| |[|] ? ?];
      try discriminate; cbn [JS.ToLength] in *; lia.
Qed.

Lemma leafCount_valid (p : JS.number) :
  valid_binary 53 1024 p = true -> valid_binary 53 1024 (leafCount p) = true.
Proof.
  intros V. destruct (is_real p) eqn:R.
  - apply (leafCount_real p V R).
  - destruct p as [?|[|]| |? ? ?]; try discriminate; reflexivity.
Qed.

(** Below a positive number is at most its predecessor in the same
    binade. *)
Lemma ltb_leb_pred (p : JS.number) (m : positive) (e : Z) :
  (p <? S754_finite false (Pos.succ m) e)%js = true ->
  (p <=? S754_finite false m e)%js = true.
Proof.
  unfold JS.ltb, JS.leb, JS.IsLessThan, SFcompare.
  destruct p as [[|]|[|]| |[|] mp ep]; try discriminate; try reflexivity.
  intros H. cmp_cases; try discriminate; try reflexivity; lia.
Qed.

Lemma leaves_fit_below (p : JS.number) :
  binary64 p -> (p <? #85899345920)%js = true ->
  JS.ToLength (leafCount p) <= 2 ^ 32 - 1.
Proof.
  unfold binary64. change JS.prec with 53. change JS.emax with 1024.
  intros V H.
  change (#85899345920)%js
    with (S754_finite false (Pos.succ 5629499534213119) (-16)) in H.
  apply ltb_leb_pred in H.
  set (q := S754_finite false 5629499534213119 (-16)) in *.
  assert (Vq : valid_binary 53 1024 q = true) by reflexivity.
  pose proof (leafCount_monotone p q V Vq H) as M.
  apply ToLength_mono in M; try (apply leafCount_valid; assumption).
  replace (JS.ToLength (leafCount q)) with (2 ^ 32 - 1) in M
    by (vm_compute; reflexivity).
  exact M.
Qed.

Lemma leaves_overflow_from (p : JS.number) :
  binary64 p -> (p >=? #85899345920)%js = true ->
  2 ^ 32 - 1 < JS.ToLength (leafCount p).
Proof.
  unfold binary64. change JS.prec with 53. change JS.emax with 1024.
  intros V H. change (p >=? #85899345920)%js with (#85899345920 <=? p)%js in H.
  assert (Vq : valid_binary 53 1024 (#85899345920)%js = true) by reflexivity.
  pose proof (leafCount_monotone _ p Vq V H) as M.
  apply ToLength_mono in M; try (apply leafCount_valid; assumption).
  replace (JS.ToLength (leafCount (#85899345920)%js)) with (2 ^ 32) in M
    by (vm_compute; reflexivity).
  change (2 ^ 32 - 1) with 4294967295. change (2 ^ 32) with 4294967296 in M.
  lia.
Qed.

Lemma leafChildren_cases (p : JS.number) :
  (JS.ToLength (leafCount p) <= 2 ^ 32 - 1 ->
   leafChildren p =
   JS.Normal (List.map (fun k => leaf (#k)%js)
                       (JS.indices (JS.ToLength (leafCount p))))) /\
  (2 ^ 32 - 1 < JS.ToLength (leafCount p) ->
   leafChildren p = JS.Throw JS.RangeError).
Proof.
  unfold leafChildren, JS.Array_from. cbv zeta.
  destruct (Z.ltb_spec (2 ^ 32 - 1) (JS.ToLength (leafCount p)));
    split; intros; try reflexivity; lia.
Qed.

(** C9, as stated, does not hold: at 85899345920 percent the leaf count is
    [2^32], which is no array length, so [Array.from] throws and no leaf is
    rendered. *)
Lemma leaf_count_as_stated_fails :
  JS.truncate (leafCount (#85899345920)%js) = 4294967296 /\
  leafChildren (#85899345920)%js = JS.Throw JS.RangeError /\
  PlantVisualization (#85899345920)%js None = JS.Throw JS.RangeError /\
  ~ leaf_count_as_stated (#85899345920)%js.
Proof.
  assert (E : leafChildren (#85899345920)%js = JS.Throw JS.RangeError)
    by (vm_compute; reflexivity).
  split; [vm_compute; reflexivity|]. split; [exact E|].
  split; [vm_compute; reflexivity|].
  intros (leaves & H & _). rewrite E in H. discriminate.
Qed.

(** C9, amended.  Whenever [floor(percentage / 20)] is at most [2^32 - 1],
    which is so for every percentage below 85899345920, the leaves rendered
    are as many as [ToLength] of the leaf count, which for a leaf count that
    is a real number is [max(floor(percentage / 20), 0)]; a negative
    percentage and a [NaN] leaf count give none; every completed render
    holds exactly those leaves.  A larger leaf count, which is what every
    percentage from 85899345920 on has, makes [Array.from] throw. *)
Theorem leaf_elements_count (p : JS.number) :
  (JS.ToLength (leafCount p) <= 2 ^ 32 - 1 ->
   exists leaves : list element,
     leafChildren p = JS.Normal leaves /\
     Z.of_nat (List.length leaves) = JS.ToLength (leafCount p) /\
     (is_real (leafCount p) = true ->
      Z.of_nat (List.length leaves) = Z.max (JS.truncate (leafCount p)) 0) /\
     (forall t : option string,
        exists els : list element,
          PlantVisualization p t = JS.Normal els /\
          List.filter is_leaf els = leaves)) /\
  ((p <? #0)%js = true -> leafChildren p = JS.Normal []) /\
  (JS.is_nan (leafCount p) = true -> leafChildren p = JS.Normal []) /\
  (2 ^ 32 - 1 < JS.ToLength (leafCount p) ->
   leafChildren p = JS.Throw JS.RangeError /\
   forall t : option string, PlantVisualization p t = JS.Throw JS.RangeError) /\
  (binary64 p -> (p <? #85899345920)%js = true ->
   JS.ToLength (leafCount p) <= 2 ^ 32 - 1) /\
  (binary64 p -> (p >=? #85899345920)%js = true ->
   2 ^ 32 - 1 < JS.ToLength (leafCount p)).
Proof.
  destruct (leafChildren_cases p) as [Hok Hthrow].
  split; [|split; [|split; [|split; [|split]]]];
    [| | | |apply leaves_fit_below|apply leaves_overflow_from].
  - intros Hle. specialize (Hok Hle).
    eexists. split; [exact Hok|]. split; [|split].
    + apply (Array_from_length (leafCount p) (fun i => leaf i)). exact Hok.
    + intros R.
      rewrite (Array_from_length (leafCount p) (fun i => leaf i) _ Hok).
      revert Hle. unfold JS.ToLength.
      destruct (leafCount p) as [s|s| |s m e]; try discriminate; lia.
    + intros t.
      destruct (PlantVisualization p t) as [els|e] eqn:E.
      * exists els. split; [reflexivity|].
        apply PlantVisualization_kinds in E.
        destruct E as (_ & _ & EL & _). rewrite Hok in EL.
        injection EL as EL. exact EL.
      * exfalso. revert E. unfold PlantVisualization. cbv zeta.
        rewrite Hok, petalChildren_eval, sparkleChildren_eval.
        cbn [JS.bind]. discriminate.
  - intros Hneg. apply below_zero_sign in Hneg. destruct Hneg as [Hs Hn].
    assert (Z0 : JS.ToLength (leafCount p) = 0).
    { apply ToLength_negative. unfold leafCount.
      rewrite Math_floor_sign_bit, div20_sign; assumption. }
    rewrite (Hok ltac:(lia)), Z0. reflexivity.
  - intros Hn. assert (Z0 : JS.ToLength (leafCount p) = 0)
      by (destruct (leafCount p); try discriminate; reflexivity).
    rewrite (Hok ltac:(lia)), Z0. reflexivity.
  - intros Hgt. specialize (Hthrow Hgt). split; [exact Hthrow|].
    intros t. unfold PlantVisualization. cbv zeta. rewrite Hthrow.
    reflexivity.
Qed.

(** At 95 percent four leaves are rendered; at -5 percent none. *)
Lemma leaf_elements_count_witness :
  (exists leaves : list element,
     leafChildren (#95)%js = JS.Normal leaves /\
     Z.of_nat (List.length leaves) = 4) /\
  leafChildren (#(-5))%js = JS.Normal [].
Proof.
  destruct (leaf_elements_count (#95)%js) as (A & _).
  destruct (leaf_elements_count (#(-5))%js) as (_ & B & _).
  split; [|apply B; reflexivity].
  destruct (A ltac:(vm_compute; discriminate)) as (leaves & E & L & _).
  exists leaves. split; [exact E|]. rewrite L. reflexivity.
Defined.

End LeafElements.

Section StemGating.

(** The render completes when the leaf count is an array length, and throws
    when it is not. *)
Lemma PlantVisualization_cases (p : JS.number) (t : option string) :
  (JS.ToLength (leafCount p) <= 2 ^ 32 - 1 ->
   exists els : list element, PlantVisualization p t = JS.Normal els) /\
  (2 ^ 32 - 1 < JS.ToLength (leafCount p) ->
   PlantVisualization p t = JS.Throw JS.RangeError).
Proof.
  destruct (leafChildren_cases p) as [Hok Hthrow]. split; intros H.
  - specialize (Hok H). unfold PlantVisualization. cbv zeta.
    rewrite Hok, petalChildren_eval, sparkleChildren_eval.
    cbn [JS.bind]. eexists. reflexivity.
  - specialize (Hthrow H). unfold PlantVisualization. cbv zeta.
    rewrite Hthrow. reflexivity.
Qed.

(** The stems of a completed render. *)
Lemma stem_of_render (p : JS.number) (t : option string)
      (els : list element) :
  PlantVisualization p t = JS.Normal els ->
  List.filter is_stem els =
  if Stage_eqb (getStage p) seed then []
  else [stem (#190 - stemHeight p)%js (stemHeight p)].
Proof.
  intros E. apply PlantVisualization_kinds in E. destruct E as (E & _).
  rewrite E. unfold stemChild, when. cbv zeta.
  destruct (Stage_eqb (getStage p) seed); reflexivity.
Qed.

(** From 10 percent on the stage is not [seed]; below it is. *)
Lemma geb_10_not_seed (p : JS.number) :
  (p >=? #10)%js = true -> getStage p <> seed.
Proof.
  intros H. apply geb_not_ltb in H. unfold getStage. rewrite H.
  repeat match goal with |- context [if ?b then _ else _] => destruct b end;
    discriminate.
Qed.

Lemma ltb_10_seed (p : JS.number) : (p <? #10)%js = true -> getStage p = seed.
Proof. intros H. unfold getStage. rewrite H. reflexivity. Qed.

Lemma geb_trans_10 (p : JS.number) :
  (p >=? #85899345920)%js = true -> (p >=? #10)%js = true.
Proof.
  intros H. destruct (geb_not_nan _ _ H) as [N _].
  apply ltb_false_geb; [exact N|reflexivity|].
  destruct (p <? #10)%js eqn:L; [|reflexivity].
  assert (L' : (p <? #85899345920)%js = true)
    by (apply (ltb_trans p (#10)%js); [exact L|reflexivity]).
  rewrite (geb_not_ltb _ _ H) in L'. discriminate.
Qed.

(** C8, as stated, does not hold: 85899345920 percent is at least 10 and the
    stage is [fruiting], yet the leaf count is no array length, the render
    throws and no stem is present. *)
Lemma stem_as_stated_fails :
  (#85899345920 >=? #10)%js = true /\
  getStage (#85899345920)%js = fruiting /\
  (forall t : option string,
     PlantVisualization (#85899345920)%js t = JS.Throw JS.RangeError) /\
  ~ stem_as_stated (#85899345920)%js.
Proof.
  assert (E : forall t : option string,
            PlantVisualization (#85899345920)%js t = JS.Throw JS.RangeError).
  { intros t. apply PlantVisualization_cases. vm_compute. reflexivity. }
  split; [reflexivity|]. split; [reflexivity|]. split; [exact E|].
  intros (H & _). destruct (H eq_refl None) as (els & y & R & _).
  rewrite E in R. discriminate.
Qed.

(** C8, amended.  A render that completes holds a stem exactly when the
    stage is not [seed], and then one stem, of height [stemHeight], drawn
    from [190 - stemHeight].  The render completes for every percentage
    below 85899345920: below 10 percent it holds no stem, from 10 percent on
    it holds the stem.  For [NaN], which is neither at least 10 nor below
    10, the stage is [fruiting] and the stem is rendered.  From 85899345920
    percent on, although the stage is not [seed], the render throws a
    [RangeError] and nothing is rendered. *)
Theorem stem_gating (p : JS.number) (t : option string) :
  (forall els : list element,
     PlantVisualization p t = JS.Normal els ->
     (getStage p <> seed ->
      List.filter is_stem els =
        [stem (#190 - stemHeight p)%js (stemHeight p)]) /\
     (getStage p = seed -> List.filter is_stem els = []) /\
     (List.filter is_stem els <> [] <-> getStage p <> seed)) /\
  (binary64 p -> (p <? #10)%js = true ->
   exists els : list element,
     PlantVisualization p t = JS.Normal els /\
     List.filter is_stem els = []) /\
  (binary64 p -> (p >=? #10)%js = true -> (p <? #85899345920)%js = true ->
   exists els : list element,
     PlantVisualization p t = JS.Normal els /\
     List.filter is_stem els =
       [stem (#190 - stemHeight p)%js (stemHeight p)]) /\
  (JS.is_nan p = true ->
   getStage p = fruiting /\ (p >=? #10)%js = false /\
   exists els : list element,
     PlantVisualization p t = JS.Normal els /\
     List.filter is_stem els =
       [stem (#190 - stemHeight p)%js (stemHeight p)]) /\
  (binary64 p -> (p >=? #85899345920)%js = true ->
   (p >=? #10)%js = true /\ getStage p <> seed /\
   PlantVisualization p t = JS.Throw JS.RangeError) /\
  (getStage p <> seed <->
   stemChild p = Some (stem (#190 - stemHeight p)%js (stemHeight p))) /\
  (getStage p = seed <-> stemChild p = None).
Proof.
  pose proof (Stage_eqb_eq (getStage p) seed) as Q.
  pose proof (stem_of_render p t) as R.
  destruct (PlantVisualization_cases p t) as [Hok Hthrow].
  assert (S1 : getStage p <> seed -> Stage_eqb (getStage p) seed = false).
  { intros H. destruct (Stage_eqb (getStage p) seed); [|reflexivity].
    exfalso. apply H, Q. reflexivity. }
  assert (S0 : getStage p = seed -> Stage_eqb (getStage p) seed = true)
    by apply Q.
  split; [|split; [|split; [|split; [|split; [|split]]]]].
  - intros els E. rewrite (R els E). split; [|split].
    + intros H. rewrite (S1 H). reflexivity.
    + intros H. rewrite (S0 H). reflexivity.
    + destruct (Stage_eqb (getStage p) seed) eqn:B; split.
      * intros H. contradiction.
      * intros H. apply S1 in H. discriminate.
      * intros _ H. apply S0 in H. rewrite H in B. discriminate.
      * discriminate.
  - intros V H.
    assert (L : (p <? #85899345920)%js = true)
      by (apply (ltb_trans p (#10)%js); [exact H|reflexivity]).
    destruct (Hok (leaves_fit_below p V L)) as (els & E).
    exists els. split; [exact E|].
    rewrite (R els E), (S0 (ltb_10_seed p H)). reflexivity.
  - intros V H L.
    destruct (Hok (leaves_fit_below p V L)) as (els & E).
    exists els. split; [exact E|].
    rewrite (R els E), (S1 (geb_10_not_seed p H)). reflexivity.
  - intros N. destruct p; try discriminate.
    split; [reflexivity|]. split; [reflexivity|].
    eexists. split; reflexivity.
  - intros V H. pose proof (geb_trans_10 p H) as G.
    split; [exact G|]. split; [exact (geb_10_not_seed p G)|].
    apply Hthrow. apply leaves_overflow_from; assumption.
  - unfold stemChild, when. cbv zeta.
    destruct (Stage_eqb (getStage p) seed) eqn:B; cbn [negb]; split;
      try discriminate; try reflexivity.
    + intros H. exfalso. apply H, Q. reflexivity.
    + intros _ H. apply S0 in H. discriminate.
  - unfold stemChild, when. cbv zeta.
    destruct (Stage_eqb (getStage p) seed) eqn:B; cbn [negb]; split;
      try discriminate; try reflexivity.
    + intros _. apply Q. reflexivity.
    + intros H. apply S0 in H. discriminate.
Qed.

(** At 50 percent the render holds one stem, of height 24 drawn from 166;
    at 5 percent it holds none. *)
Lemma stem_gating_witness :
  (exists els : list element,
     PlantVisualization (#50)%js None = JS.Normal els /\
     List.filter is_stem els = [stem (#166)%js (#24)%js]) /\
  (exists els : list element,
     PlantVisualization (#5)%js None = JS.Normal els /\
     List.filter is_stem els = []).
Proof.
  destruct (stem_gating (#50)%js None) as (_ & _ & S & _).
  destruct (stem_gating (#5)%js None) as (_ & N & _).
  split; [|apply N; reflexivity].
  destruct (S eq_refl eq_refl eq_refl) as (els & E & F).
  exists els. split; [exact E|]. rewrite F. vm_compute. reflexivity.
Defined.

End StemGating.

Section Sparkles.

Lemma geb_25_stage (p : JS.number) :
  JS.is_nan p = false ->
  ((p >=? #25)%js = true <-> stage_le small (getStage p)).
Proof.
  intros Hp. pose proof (below_next p) as (B1 & _).
  unfold stage_le, getStage. split.
  - intros G. apply geb_not_ltb in G. rewrite G.
    destruct (p <? #10)%js; [specialize (B1 eq_refl); congruence|].
    repeat match goal with |- context [if ?b then _ else _] => destruct b end;
      cbn [stage_rank]; lia.
  - intros S. apply ltb_false_geb; [assumption|reflexivity|].
    destruct (p <? #25)%js; [|reflexivity].
    destruct (p <? #10)%js; cbn [stage_rank] in S; lia.
Qed.

(** C10, as stated, does not hold: a [NaN] percentage falls through every
    threshold to the stage [fruiting], which is at least [small], yet
    [NaN >= 25] is false and no sparkle is rendered. *)
Lemma sparkles_as_stated_fails :
  getStage JS.NaN = fruiting /\
  (JS.NaN >=? #25)%js = false /\
  sparkleChildren JS.NaN = JS.Normal [] /\
  ~ sparkles_as_stated JS.NaN.
Proof.
  repeat split. intros (_ & E). destruct E as [_ E].
  assert (F : (JS.NaN >=? #25)%js = true)
    by (apply E; unfold stage_le; cbn; lia).
  discriminate.
Qed.

(** C10, amended.  The three sparkles are rendered exactly when
    [percentage >= 25], whatever the plant type, and every completed render
    holds exactly them; for every percentage other than [NaN] that is the
    same as the stage being at least [small]. *)
Theorem sparkles_gating (p : JS.number) :
  ((p >=? #25)%js = true -> sparkleChildren p = JS.Normal three_sparkles) /\
  ((p >=? #25)%js = false -> sparkleChildren p = JS.Normal []) /\
  (sparkleChildren p <> JS.Normal [] <-> (p >=? #25)%js = true) /\
  List.length three_sparkles = 3%nat /\
  (forall (t : option string) (els : list element),
     PlantVisualization p t = JS.Normal els ->
     List.filter is_sparkle els =
     if (p >=? #25)%js then three_sparkles else []) /\
  (JS.is_nan p = false ->
   ((p >=? #25)%js = true <-> stage_le small (getStage p))).
Proof.
  rewrite sparkleChildren_eval.
  split; [intros ->; reflexivity|]. split; [intros ->; reflexivity|].
  split; [|split; [reflexivity|split; [|apply geb_25_stage]]].
  - destruct (p >=? #25)%js; split; intros H; try reflexivity;
      try discriminate. contradiction.
  - intros t els E. apply PlantVisualization_kinds in E.
    destruct E as (_ & _ & _ & _ & ES). rewrite sparkleChildren_eval in ES.
    injection ES as ES. exact ES.
Qed.

Lemma sparkles_gating_witness :
  sparkleChildren (#25)%js = JS.Normal three_sparkles /\
  sparkleChildren (JS.decimal 249 1) = JS.Normal [].
Proof.
  destruct (sparkles_gating (#25)%js) as (A & _).
  destruct (sparkles_gating (JS.decimal 249 1)) as (_ & B & _).
  split; [apply A|apply B]; reflexivity.
Defined.

End Sparkles.

(** ** The concrete scenarios of the specification *)

Section Scenarios.

Example scenario_zero :
  getStage (#0)%js = seed /\ leafCount (#0)%js = (#0)%js /\
  plantHeight (#0)%js = (#5)%js /\
  PlantVisualization (#0)%js None = JS.Normal [soil; seed_shape].
Proof. repeat split. Qed.

Example scenario_boundaries :
  getStage (JS.decimal 249 1) = sprout /\ getStage (#25)%js = small /\
  getStage (#95)%js = flowering /\ getStage (#100)%js = fruiting.
Proof. repeat split. Qed.

Example scenario_flowering :
  exists els : list element,
    PlantVisualization (#95)%js None = JS.Normal els /\
    List.filter is_petal els = eight_petals "#ffd700"%string /\
    List.filter is_fruit els = [].
Proof. eexists. split; [vm_compute; reflexivity|]. split; reflexivity. Qed.

Example scenario_fruiting :
  exists els : list element,
    PlantVisualization (#100)%js None = JS.Normal els /\
    List.length (List.filter is_fruit els) = 1%nat /\
    List.length (List.filter is_leaf els) = 5%nat.
Proof. eexists. split; [vm_compute; reflexivity|]. split; reflexivity. Qed.

Example scenario_overfunded :
  getStage (#150)%js = fruiting /\
  plantColor (Some "rose"%string) = "#ff6b9d"%string /\
  leafCount (#150)%js = (#7)%js.
Proof. repeat split. Qed.

(** Far beyond [2^53] the binary64 quotient is rounded before its floor is
    taken, so the leaf count is a neighbour of the integer quotient. *)
Example scenario_rounded_quotient :
  JS.truncate (leafCount (#(2 ^ 60))%js) = 57646075230342352 /\
  2 ^ 60 / 20 = 57646075230342348.
Proof. split; reflexivity. Qed.

(** A goal whose target amount is zero has an infinite or undefined
    percentage. *)
Example scenario_not_finite :
  PlantVisualization JS.Infinity None = JS.Throw JS.RangeError /\
  getStage JS.NaN = fruiting /\
  exists els : list element,
    PlantVisualization JS.NaN None = JS.Normal els /\
    List.filter is_leaf els = [] /\ List.filter is_sparkle els = [].
Proof.
  split; [reflexivity|]. split; [reflexivity|].
  eexists. split; [vm_compute; reflexivity|]. split; reflexivity.
Qed.

End Scenarios.

(** ** Rounding in general

    The closed form of [binary_round_aux] for any located quotient, as a
    rounding of scaled integers; multiplication, addition and subtraction
    follow from it as division by twenty did. *)

Section GeneralRounding.

Lemma KexpQ_nonneg (A B : Z) : 0 <= KexpQ A B.
Proof. unfold KexpQ. lia. Qed.

Lemma KexpQ_mono (A1 A2 B : Z) :
  0 < B -> 0 <= A1 <= A2 -> KexpQ A1 B <= KexpQ A2 B.
Proof.
  intros HB [H0 H]. unfold KexpQ.
  assert (Zdigits2 (A1 / B) <= Zdigits2 (A2 / B)).
  { apply Zdigits2_le. split; [apply Z.div_pos; lia|].
    apply Z.div_le_mono; lia. }
  lia.
Qed.

Lemma RndQ_mono (A1 A2 B : Z) :
  0 < B -> 0 <= A1 <= A2 -> RndQ A1 B <= RndQ A2 B.
Proof.
  intros HB [H0 H].
  pose proof (KexpQ_mono A1 A2 B HB (conj H0 H)) as HK.
  unfold RndQ.
  pose proof (KexpQ_nonneg A1 B) as Hk1.
  assert (Hp1 : 0 < 2 ^ KexpQ A1 B) by (apply Z.pow_pos_nonneg; lia).
  assert (Hp2 : 0 < 2 ^ KexpQ A2 B) by (apply Z.pow_pos_nonneg; lia).
  destruct (Z.eq_dec (KexpQ A1 B) (KexpQ A2 B)) as [E|E].
  - rewrite E. apply Z.mul_le_mono_nonneg_l; [lia|].
    apply rne_mono; [apply Z.mul_pos_pos|]; lia.
  - assert (Hlt : KexpQ A1 B < KexpQ A2 B) by lia.
    set (k1 := KexpQ A1 B) in *. set (k2 := KexpQ A2 B) in *.
    assert (Hd2 : Zdigits2 (A2 / B) = k2 + 53) by (unfold k2, KexpQ in *; lia).
    assert (Hd1 : Zdigits2 (A1 / B) <= k1 + 53) by (unfold k1, KexpQ; lia).
    assert (Hq2 : 0 < A2 / B).
    { destruct (Z.eq_dec (A2 / B) 0) as [Z0|Z0].
      - rewrite Z0 in Hd2. simpl in Hd2. lia.
      - pose proof (Z.div_pos A2 B). lia. }
    pose proof (Zdigits2_bounds _ Hq2) as B2. rewrite Hd2 in B2.
    replace (k2 + 53 - 1) with (52 + k2) in B2 by lia.
    rewrite Z.pow_add_r in B2 by lia.
    assert (L2 : 2 ^ 52 <= rne A2 (B * 2 ^ k2)).
    { apply rne_ge; [apply Z.mul_pos_pos; lia|].
      pose proof (Z.mul_div_le A2 B ltac:(lia)). nia. }
    assert (U1 : A1 / B < 2 ^ (k1 + 53)).
    { destruct (Z.eq_dec (A1 / B) 0) as [Z0|Z0].
      - rewrite Z0. apply Z.pow_pos_nonneg; lia.
      - pose proof (Z.div_pos A1 B H0 ltac:(lia)).
        pose proof (Zdigits2_bounds (A1 / B) ltac:(lia)) as B1.
        assert (2 ^ Zdigits2 (A1 / B) <= 2 ^ (k1 + 53))
          by (apply Z.pow_le_mono_r; lia).
        lia. }
    rewrite Z.pow_add_r in U1 by lia.
    assert (L1 : rne A1 (B * 2 ^ k1) <= 2 ^ 53).
    { apply rne_le; [apply Z.mul_pos_pos; lia|].
      pose proof (Z.mod_pos_bound A1 B ltac:(lia)).
      pose proof (Z.div_mod A1 B ltac:(lia)). nia. }
    assert (Hpk : 2 * 2 ^ k1 <= 2 ^ k2).
    { replace (2 * 2 ^ k1) with (2 ^ (k1 + 1))
        by (rewrite Z.pow_add_r by lia; lia).
      apply Z.pow_le_mono_r; lia. }
    transitivity (2 ^ k1 * 2 ^ 53); [apply Z.mul_le_mono_nonneg_l; lia|].
    transitivity (2 ^ k2 * 2 ^ 52); [|apply Z.mul_le_mono_nonneg_l; lia].
    change (2 ^ 53) with (2 * 2 ^ 52). nia.
Qed.

Lemma RndQ_nonneg (A B : Z) : 0 < B -> 0 <= A -> 0 <= RndQ A B.
Proof.
  intros HB HA. unfold RndQ.
  pose proof (KexpQ_nonneg A B).
  assert (0 < 2 ^ KexpQ A B) by (apply Z.pow_pos_nonneg; lia).
  assert (Hb : 0 < B * 2 ^ KexpQ A B) by (apply Z.mul_pos_pos; lia).
  pose proof (rne_bounds A _ Hb).
  pose proof (Z.div_pos A _ HA Hb).
  apply Z.mul_nonneg_nonneg; lia.
Qed.

Lemma RndQ_scale (A B k : Z) :
  0 < B -> 0 < k -> RndQ (A * k) (B * k) = RndQ A B.
Proof.
  intros HB Hk. unfold RndQ, KexpQ.
  rewrite Z.div_mul_cancel_r by lia.
  set (K := 2 ^ Z.max (Zdigits2 (A / B) - 53) 0).
  assert (0 < K) by (apply Z.pow_pos_nonneg; lia).
  replace (B * k * K) with (B * K * k) by ring.
  rewrite rne_scale; [reflexivity|apply Z.mul_pos_pos; lia|lia].
Qed.

Lemma RndQ_ratio (A B A' B' : Z) :
  0 < B -> 0 < B' -> A * B' = A' * B -> RndQ A B = RndQ A' B'.
Proof.
  intros HB HB' E.
  rewrite <- (RndQ_scale A B B') by assumption.
  rewrite <- (RndQ_scale A' B' B) by assumption.
  rewrite E. f_equal. ring.
Qed.

(** The mantissa at the precision of the binade. *)
Lemma KexpQ_quotient_bounds (A B : Z) :
  0 < B -> 0 <= A ->
  0 <= A / (B * 2 ^ KexpQ A B) < 2 ^ 53 /\
  (0 < KexpQ A B -> 2 ^ 52 <= A / (B * 2 ^ KexpQ A B)).
Proof.
  intros HB HA.
  pose proof (KexpQ_nonneg A B) as Hk.
  assert (Hp : 0 < 2 ^ KexpQ A B) by (apply Z.pow_pos_nonneg; lia).
  rewrite <- Z.div_div by lia.
  pose proof (Z.div_pos A B HA HB) as HQ.
  destruct (Z.eq_dec (A / B) 0) as [Z0|Z0].
  - assert (KexpQ A B = 0) by (unfold KexpQ; rewrite Z0; simpl; lia).
    rewrite Z0. rewrite Z.div_0_l by lia. lia.
  - pose proof (Zdigits2_bounds (A / B) ltac:(lia)) as Bd.
    destruct (Z.le_gt_cases (Zdigits2 (A / B)) 53) as [Hd|Hd].
    + assert (HK0 : KexpQ A B = 0) by (unfold KexpQ; lia).
      rewrite HK0, Z.pow_0_r, Z.div_1_r.
      assert (2 ^ Zdigits2 (A / B) <= 2 ^ 53)
        by (apply Z.pow_le_mono_r; lia).
      lia.
    + assert (HK : Zdigits2 (A / B) = 53 + KexpQ A B) by (unfold KexpQ; lia).
      rewrite HK in Bd.
      replace (53 + KexpQ A B - 1) with (52 + KexpQ A B) in Bd by lia.
      rewrite !Z.pow_add_r in Bd by lia.
      split; [split|intros _].
      * apply Z.div_pos; lia.
      * apply Z.div_lt_upper_bound; lia.
      * apply Z.div_le_lower_bound; lia.
Qed.

Lemma Zdigits2_mul_pow (k a b : Z) :
  0 < b -> 0 <= a -> 1 <= a / b -> 0 <= k ->
  Zdigits2 (a * 2 ^ k / b) = Zdigits2 (a / b) + k.
Proof.
  intros Hb Ha Hq Hk.
  assert (Hp : 0 < 2 ^ k) by (apply Z.pow_pos_nonneg; lia).
  pose proof (Z.div_mod a b ltac:(lia)) as HA.
  pose proof (Z.mod_pos_bound a b ltac:(lia)) as Hr.
  set (q' := a / b) in *.
  assert (L : q' * 2 ^ k <= a * 2 ^ k / b)
    by (apply Z.div_le_lower_bound; nia).
  assert (U : a * 2 ^ k / b < (q' + 1) * 2 ^ k)
    by (apply Z.div_lt_upper_bound; nia).
  pose proof (Zdigits2_bounds q' ltac:(lia)) as B.
  pose proof (Zdigits2_pos q' ltac:(lia)) as Dq.
  apply Zdigits2_unique; [|lia].
  replace (Zdigits2 q' + k - 1) with (Zdigits2 q' - 1 + k) by lia.
  rewrite !Z.pow_add_r by lia. nia.
Qed.

Lemma Zdigits2_div_pow (q j : Z) :
  0 <= q -> 0 <= j -> Zdigits2 (q / 2 ^ j) = Z.max (Zdigits2 q - j) 0.
Proof.
  intros Hq Hj.
  assert (Hp : 0 < 2 ^ j) by (apply Z.pow_pos_nonneg; lia).
  destruct (Z.eq_dec q 0) as [->|Hq0].
  - rewrite Z.div_0_l by lia. simpl. lia.
  - pose proof (Zdigits2_bounds q ltac:(lia)) as B.
    pose proof (Zdigits2_pos q ltac:(lia)) as D.
    destruct (Z.le_gt_cases (Zdigits2 q) j) as [Hd|Hd].
    + rewrite Z.div_small; [simpl; lia|].
      assert (2 ^ Zdigits2 q <= 2 ^ j) by (apply Z.pow_le_mono_r; lia). lia.
    + rewrite Z.max_l by lia.
      assert (E1 : 2 ^ (Zdigits2 q - 1) = 2 ^ (Zdigits2 q - j - 1) * 2 ^ j)
        by (rewrite <- Z.pow_add_r by lia; f_equal; lia).
      assert (E2 : 2 ^ Zdigits2 q = 2 ^ (Zdigits2 q - j) * 2 ^ j)
        by (rewrite <- Z.pow_add_r by lia; f_equal; lia).
      assert (L : 2 ^ (Zdigits2 q - j - 1) <= q / 2 ^ j)
        by (apply Z.div_le_lower_bound; lia).
      assert (0 < 2 ^ (Zdigits2 q - j - 1)) by (apply Z.pow_pos_nonneg; lia).
      apply Zdigits2_unique; [|lia]. split; [exact L|].
      apply Z.div_lt_upper_bound; lia.
Qed.

Lemma shr_m_of_loc (m : Z) (l : location) : shr_m (shr_record_of_loc m l) = m.
Proof. destruct l as [|[| |]]; reflexivity. Qed.

Lemma rounded_mantissa_finite (s : bool) (M e1 n2 : Z) :
  -1074 <= e1 -> 0 <= M <= 2 ^ 53 -> (-1074 < e1 -> 2 ^ 52 <= M) ->
  (forall j, 0 <= j -> 2 ^ j <= M -> e1 + j < 1024) ->
  n2 = Z.max 0 (fexp64 (Zdigits2 M + e1) - e1) ->
  forall r : spec_float,
  r = match M / 2 ^ n2 with
      | Z0 => S754_zero s
      | Zpos m => if e1 + n2 <=? 971 then S754_finite s m (e1 + n2)
                  else S754_infinity s
      | Zneg _ => S754_nan
      end ->
  is_real r = true /\ valid_binary 53 1024 r = true /\
  scaled r = cond_Zopp s (2 ^ (e1 + 1074) * M).
Proof.
  intros He1 HM Hlow Htop Hn2 r ->.
  assert (HM53 : M < 2 ^ 53 \/ M = 2 ^ 53) by lia.
  destruct HM53 as [HM53|HM53].
  - assert (HdM : Zdigits2 M <= 53) by (apply Zdigits2_lt_pow; lia).
    assert (Hn20 : n2 = 0) by (unfold fexp64 in Hn2; lia).
    rewrite Hn20, Z.pow_0_r, Z.div_1_r, Z.add_0_r.
    destruct M as [|p|p] eqn:EM; try lia.
    + cbn [is_real valid_binary scaled]. rewrite Z.mul_0_r.
      destruct s; repeat split.
    + assert (He971 : e1 <= 971).
      { destruct (Z.eq_dec e1 (-1074)) as [E1|E1]; [lia|].
        specialize (Hlow ltac:(lia)). specialize (Htop 52 ltac:(lia) Hlow).
        lia. }
      replace (e1 <=? 971) with true by (symmetry; apply Z.leb_le; lia).
      cbn [is_real valid_binary scaled]. split; [reflexivity|]. split.
      * unfold bounded, canonical_mantissa. rewrite fexp_64.
        apply andb_true_intro. split; [apply Z.eqb_eq|apply Z.leb_le; lia].
        change (Z.pos (digits2_pos p)) with (Zdigits2 (Zpos p)).
        unfold fexp64.
        destruct (Z.eq_dec e1 (-1074)) as [E1|E1]; [lia|].
        specialize (Hlow ltac:(lia)).
        pose proof (Zdigits2_ge_pow (Zpos p) 52 ltac:(lia) Hlow). lia.
      * f_equal. ring.
  - assert (Hn21 : n2 = 1).
    { rewrite Hn2, HM53. change (Zdigits2 (2 ^ 53)) with 54.
      unfold fexp64. lia. }
    assert (He971 : e1 + 1 <= 971).
    { specialize (Htop 53 ltac:(lia) ltac:(lia)). lia. }
    rewrite Hn21, HM53.
    change (2 ^ 53 / 2 ^ 1) with (Zpos 4503599627370496).
    replace (e1 + 1 <=? 971) with true by (symmetry; apply Z.leb_le; lia).
    cbn [is_real valid_binary scaled]. split; [reflexivity|]. split.
    + unfold bounded, canonical_mantissa. rewrite fexp_64.
      apply andb_true_intro. split; [apply Z.eqb_eq|apply Z.leb_le; lia].
      change (Z.pos (digits2_pos 4503599627370496)) with 53.
      unfold fexp64. lia.
    + replace (e1 + 1 + 1074) with (1 + (e1 + 1074)) by lia.
      rewrite Z.pow_add_r by lia. f_equal.
      change (2 ^ 53) with (4503599627370496 * 2 ^ 1). ring.
Qed.

Lemma round_aux_scaled (s : bool) (mx ex : Z) (lx : location) (a b A B : Z) :
  0 <= a -> 0 < b -> located a b (shr_record_of_loc mx lx) ->
  ex <= fexp64 (Zdigits2 mx + ex) ->
  A = a * 2 ^ Z.max 0 (ex + 1074) ->
  B = b * 2 ^ Z.max 0 (- (ex + 1074)) ->
  RndQ A B < 2 ^ 2098 ->
  is_real (binary_round_aux 53 1024 s mx ex lx) = true /\
  valid_binary 53 1024 (binary_round_aux 53 1024 s mx ex lx) = true /\
  scaled (binary_round_aux 53 1024 s mx ex lx) = cond_Zopp s (RndQ A B).
Proof.
  intros Ha Hb Hloc Hex HA HB Hov.
  assert (Hmx : mx = a / b).
  { destruct Hloc as (Hm & _). rewrite shr_m_of_loc in Hm. exact Hm. }
  pose proof (Z.div_pos a b Ha Hb) as Hq0. rewrite <- Hmx in Hq0.
  pose proof (Zdigits2_nonneg mx) as Hd0.
  set (d := Zdigits2 mx) in *.
  set (n := Z.max 0 (fexp64 (d + ex) - ex)).
  set (e1 := ex + n).
  assert (He1 : e1 = Z.max (d + ex - 53) (-1074))
    by (unfold e1, n, fexp64 in *; lia).
  assert (Hn : 0 <= n) by (unfold n; lia).
  assert (HB0 : 0 < B).
  { rewrite HB. apply Z.mul_pos_pos; [lia|apply Z.pow_pos_nonneg; lia]. }
  assert (HA0 : 0 <= A).
  { rewrite HA. apply Z.mul_nonneg_nonneg; [lia|apply Z.pow_nonneg; lia]. }
  (* the binade *)
  assert (HK : e1 + 1074 = KexpQ A B).
  { unfold KexpQ. destruct (Z.le_gt_cases 0 (ex + 1074)) as [Hs|Hs].
    - rewrite HA, HB. rewrite (Z.max_r 0 (ex + 1074)) by lia.
      rewrite (Z.max_l 0 (- (ex + 1074))) by lia.
      rewrite Z.pow_0_r, Z.mul_1_r.
      destruct (Z.eq_dec mx 0) as [Z0|Z0].
      + assert (ex = -1074).
        { unfold d in Hex. rewrite Z0 in Hex. unfold fexp64 in Hex.
          simpl Zdigits2 in Hex. lia. }
        subst ex. change (-1074 + 1074) with 0.
        rewrite Z.pow_0_r, Z.mul_1_r, <- Hmx. fold d. lia.
      + rewrite (Zdigits2_mul_pow _ a b) by lia. rewrite <- Hmx. fold d. lia.
    - rewrite HA, HB. rewrite (Z.max_l 0 (ex + 1074)) by lia.
      rewrite (Z.max_r 0 (- (ex + 1074))) by lia.
      rewrite Z.pow_0_r, Z.mul_1_r.
      rewrite <- Z.div_div by (try apply Z.pow_pos_nonneg; lia).
      rewrite <- Hmx. rewrite Zdigits2_div_pow by lia. fold d. lia. }
  assert (HKn : B * 2 ^ KexpQ A B = b * 2 ^ n * 2 ^ Z.max 0 (ex + 1074)).
  { rewrite <- HK, HB. rewrite <- !Z.mul_assoc. f_equal.
    rewrite <- !Z.pow_add_r by lia. f_equal. unfold e1. lia. }
  assert (Hpn : 0 < 2 ^ n) by (apply Z.pow_pos_nonneg; lia).
  set (M := rne A (B * 2 ^ KexpQ A B)).
  assert (HM : M = rne a (b * 2 ^ n)).
  { unfold M. rewrite HKn, HA. apply rne_scale.
    - apply Z.mul_pos_pos; lia.
    - apply Z.pow_pos_nonneg; lia. }
  set (n2 := Z.max 0 (fexp64 (Zdigits2 M + e1) - e1)).
  pose proof (binary_round_aux_64 s mx ex lx a b n M n2 Ha Hb Hloc
                eq_refl HM eq_refl) as Hr.
  fold e1 in Hr.
  assert (HR : RndQ A B = 2 ^ KexpQ A B * M) by reflexivity.
  pose proof (KexpQ_nonneg A B) as HKnn.
  assert (HKpos : 0 < 2 ^ KexpQ A B) by (apply Z.pow_pos_nonneg; lia).
  pose proof (KexpQ_quotient_bounds A B HB0 HA0) as [Bq Bq'].
  pose proof (rne_bounds A (B * 2 ^ KexpQ A B)
                ltac:(apply Z.mul_pos_pos; lia)) as BM.
  fold M in BM.
  rewrite HR, <- HK in *. clear HR.
  apply (rounded_mantissa_finite s M e1 n2); try assumption; try reflexivity.
  - lia.
  - lia.
  - intros U. specialize (Bq' ltac:(lia)). lia.
  - intros j J Hj.
    destruct (Z.lt_ge_cases (e1 + j) 1024) as [G|G]; [assumption|exfalso].
    assert (H : 2 ^ 2098 <= 2 ^ (e1 + 1074 + j))
      by (apply Z.pow_le_mono_r; lia).
    rewrite Z.pow_add_r in H by lia.
    assert (2 ^ (e1 + 1074) * 2 ^ j <= 2 ^ (e1 + 1074) * M)
      by (apply Z.mul_le_mono_nonneg_l; lia).
    clear - Hov H H0. lia.
Qed.

End GeneralRounding.

(** ** Multiplication *)

Section Multiplication.

Lemma RndQ_0 (B : Z) : 0 < B -> RndQ 0 B = 0.
Proof.
  intros HB. unfold RndQ, KexpQ. rewrite Z.div_0_l by lia.
  change (Z.max (Zdigits2 0 - 53) 0) with 0. rewrite Z.pow_0_r, Z.mul_1_r.
  rewrite <- (Z.mul_0_l B) at 1. rewrite rne_exact by assumption. reflexivity.
Qed.

Lemma Zdigits2_shift (m k : Z) :
  0 < m -> 0 <= k -> Zdigits2 (m * 2 ^ k) = Zdigits2 m + k.
Proof.
  intros Hm Hk.
  pose proof (Zdigits2_mul_pow k m 1 ltac:(lia) ltac:(lia)) as H.
  rewrite !Z.div_1_r in H. apply H; lia.
Qed.

(** A binary64 value is its own rounding. *)
Lemma RndQ_representable (m : positive) (e : Z) :
  bounded 53 1024 m e = true ->
  RndQ (Zpos m * 2 ^ (e + 1074)) 1 = Zpos m * 2 ^ (e + 1074).
Proof.
  intros Hb. pose proof (bounded_inv m e Hb) as [Hc He].
  pose proof (bounded_digits m e Hb) as (Be & _).
  unfold fexp64 in Hc. unfold RndQ, KexpQ.
  rewrite Z.div_1_r, Zdigits2_shift by lia.
  replace (Z.max (Zdigits2 (Z.pos m) + (e + 1074) - 53) 0) with (e + 1074)
    by lia.
  rewrite Z.mul_1_l, rne_exact by (apply Z.pow_pos_nonneg; lia). ring.
Qed.

Lemma scaled_bound (m : positive) (e : Z) :
  bounded 53 1024 m e = true -> Zpos m * 2 ^ (e + 1074) < 2 ^ 2098.
Proof.
  intros Hb. pose proof (bounded_digits m e Hb) as (Be & Um & _).
  assert (2 ^ (e + 1074) <= 2 ^ 2045) by (apply Z.pow_le_mono_r; lia).
  assert (0 < 2 ^ (e + 1074)) by (apply Z.pow_pos_nonneg; lia).
  assert (E : 2 ^ 2098 = 2 ^ 53 * 2 ^ 2045)
    by (rewrite <- Z.pow_add_r by lia; f_equal).
  rewrite E. clear E.
  generalize dependent (2 ^ 2045). generalize dependent (2 ^ (e + 1074)).
  intros. nia.
Qed.

(** The product of two binary64 values, when it does not overflow, is the
    exact product rounded to the precision of its binade. *)
Lemma mul_finite_scaled (sx sy : bool) (mx my : positive) (ex ey : Z) :
  bounded 53 1024 mx ex = true -> bounded 53 1024 my ey = true ->
  RndQ (Zpos mx * 2 ^ (ex + 1074) * (Zpos my * 2 ^ (ey + 1074))) (2 ^ 1074)
    < 2 ^ 2098 ->
  is_real (SFmul 53 1024 (S754_finite sx mx ex) (S754_finite sy my ey)) = true /\
  valid_binary 53 1024
    (SFmul 53 1024 (S754_finite sx mx ex) (S754_finite sy my ey)) = true /\
  scaled (SFmul 53 1024 (S754_finite sx mx ex) (S754_finite sy my ey)) =
  cond_Zopp (xorb sx sy)
    (RndQ (Zpos mx * 2 ^ (ex + 1074) * (Zpos my * 2 ^ (ey + 1074))) (2 ^ 1074)).
Proof.
  intros Hx Hy.
  pose proof (bounded_digits mx ex Hx) as (Bx & Ux & Lx).
  pose proof (bounded_digits my ey Hy) as (By & Uy & Ly).
  set (sh := ex + ey + 1074).
  assert (HU : 0 < 2 ^ 1074) by (apply Z.pow_pos_nonneg; lia).
  assert (HBp : 0 < 1 * 2 ^ Z.max 0 (- sh))
    by (rewrite Z.mul_1_l; apply Z.pow_pos_nonneg; lia).
  assert (ER : RndQ (Zpos mx * 2 ^ (ex + 1074) * (Zpos my * 2 ^ (ey + 1074)))
                 (2 ^ 1074) =
               RndQ (Zpos (mx * my) * 2 ^ Z.max 0 sh)
                    (1 * 2 ^ Z.max 0 (- sh))).
  { apply RndQ_ratio; [assumption|assumption|].
    assert (E : 2 ^ (ex + 1074) * 2 ^ (ey + 1074) * 2 ^ Z.max 0 (- sh) =
                2 ^ Z.max 0 sh * 2 ^ 1074).
    { rewrite <- !Z.pow_add_r by lia. f_equal. unfold sh. lia. }
    rewrite Pos2Z.inj_mul.
    transitivity (Zpos mx * Zpos my *
                  (2 ^ (ex + 1074) * 2 ^ (ey + 1074) * 2 ^ Z.max 0 (- sh)));
      [ring|]. rewrite E. ring. }
  rewrite ER. intros Hov. unfold SFmul.
  apply (round_aux_scaled _ _ _ _ (Zpos (mx * my)) 1);
    [apply Pos2Z.is_nonneg|lia|apply located_exact| |reflexivity|reflexivity
    |exact Hov].
  - unfold fexp64.
    destruct (Z.eq_dec ex (-1074)) as [E1|E1];
      destruct (Z.eq_dec ey (-1074)) as [E2|E2]; try lia.
    + specialize (Ly ltac:(lia)).
      assert (2 ^ 52 <= Zpos (mx * my)) by (rewrite Pos2Z.inj_mul; nia).
      pose proof (Zdigits2_ge_pow _ 52 ltac:(lia) H). lia.
    + specialize (Lx ltac:(lia)).
      assert (2 ^ 52 <= Zpos (mx * my)) by (rewrite Pos2Z.inj_mul; nia).
      pose proof (Zdigits2_ge_pow _ 52 ltac:(lia) H). lia.
    + specialize (Lx ltac:(lia)).
      assert (2 ^ 52 <= Zpos (mx * my)) by (rewrite Pos2Z.inj_mul; nia).
      pose proof (Zdigits2_ge_pow _ 52 ltac:(lia) H). lia.
Qed.

Lemma MulS_mono (C X1 X2 : Z) : 0 <= C -> X1 <= X2 -> MulS C X1 <= MulS C X2.
Proof.
  intros HC H. unfold MulS.
  assert (HU : 0 < 2 ^ 1074) by (apply Z.pow_pos_nonneg; lia).
  destruct (Z.ltb_spec X1 0), (Z.ltb_spec X2 0).
  - assert (- RndQ (- X1 * C) (2 ^ 1074) <= - RndQ (- X2 * C) (2 ^ 1074));
      [|assumption].
    apply -> Z.opp_le_mono. apply RndQ_mono; [assumption|]. nia.
  - pose proof (RndQ_nonneg (- X1 * C) (2 ^ 1074) HU ltac:(nia)).
    pose proof (RndQ_nonneg (X2 * C) (2 ^ 1074) HU ltac:(nia)). lia.
  - lia.
  - apply RndQ_mono; [assumption|]. nia.
Qed.

Section MulConst.
Variables (mc : positive) (ec : Z).
Hypothesis Hc : bounded 53 1024 mc ec = true.
Hypothesis Hle : Zpos mc * 2 ^ (ec + 1074) <= 2 ^ 1074.

Lemma mul_const_real (x : JS.number) :
  valid_binary 53 1024 x = true -> is_real x = true ->
  is_real (x * S754_finite false mc ec)%js = true /\
  valid_binary 53 1024 (x * S754_finite false mc ec)%js = true /\
  scaled (x * S754_finite false mc ec)%js =
  MulS (Zpos mc * 2 ^ (ec + 1074)) (scaled x).
Proof.
  assert (HU : 0 < 2 ^ 1074) by (apply Z.pow_pos_nonneg; lia).
  destruct x as [s|s| |s m e]; try discriminate; intros Hv _.
  - split; [reflexivity|]. split; [reflexivity|].
    cbn [JS.mul SFmul scaled]. unfold MulS.
    rewrite Z.ltb_irrefl, Z.mul_0_l, RndQ_0 by assumption. reflexivity.
  - cbn [valid_binary] in Hv.
    pose proof (scaled_finite_pos m e Hv) as HN.
    pose proof (scaled_finite_pos mc ec Hc) as HC.
    assert (Hov : RndQ (Zpos m * 2 ^ (e + 1074) * (Zpos mc * 2 ^ (ec + 1074)))
                   (2 ^ 1074) < 2 ^ 2098).
    { apply Z.le_lt_trans with (Zpos m * 2 ^ (e + 1074));
        [|apply scaled_bound; assumption].
      rewrite <- (RndQ_representable m e Hv) at 2.
      rewrite <- (RndQ_scale _ 1 (2 ^ 1074)) by lia. rewrite Z.mul_1_l.
      apply RndQ_mono; [assumption|]. split; [nia|].
      apply Z.mul_le_mono_nonneg_l; [lia|exact Hle]. }
    destruct (mul_finite_scaled s false m mc e ec Hv Hc Hov) as (R1 & R2 & R3).
    split; [exact R1|]. split; [exact R2|].
    change (S754_finite s m e * S754_finite false mc ec)%js
      with (SFmul 53 1024 (S754_finite s m e) (S754_finite false mc ec)).
    rewrite R3. cbn [scaled]. unfold MulS.
    destruct s; cbn [xorb cond_Zopp].
    + destruct (Z.ltb_spec (- (Zpos m * 2 ^ (e + 1074))) 0); [|lia].
      rewrite Z.opp_involutive. reflexivity.
    + destruct (Z.ltb_spec (Zpos m * 2 ^ (e + 1074)) 0); [lia|]. reflexivity.
Qed.

Lemma mul_const_valid (x : JS.number) :
  valid_binary 53 1024 x = true ->
  valid_binary 53 1024 (x * S754_finite false mc ec)%js = true.
Proof.
  intros V. destruct (is_real x) eqn:R.
  - apply (mul_const_real x V R).
  - destruct x as [?|[|]| |? ? ?]; try discriminate; reflexivity.
Qed.

Lemma mul_const_mono (x1 x2 : JS.number) :
  valid_binary 53 1024 x1 = true -> valid_binary 53 1024 x2 = true ->
  (x1 <=? x2)%js = true ->
  (x1 * S754_finite false mc ec <=? x2 * S754_finite false mc ec)%js = true.
Proof.
  intros V1 V2 H.
  assert (N1 : JS.is_nan x1 = false)
    by (destruct x1; try reflexivity; destruct x2 as [?|[|]| |[|] ? ?];
        discriminate).
  assert (N2 : JS.is_nan x2 = false)
    by (destruct x2; try reflexivity; destruct x1 as [?|[|]| |[|] ? ?];
        discriminate).
  pose proof (mul_finite_not_nan x1 false mc ec N1) as L1.
  pose proof (mul_finite_not_nan x2 false mc ec N2) as L2.
  destruct (is_real x1) eqn:R1, (is_real x2) eqn:R2.
  - destruct (mul_const_real x1 V1 R1) as (A1 & B1 & C1).
    destruct (mul_const_real x2 V2 R2) as (A2 & B2 & C2).
    apply (leb_scaled _ _ B1 B2 A1 A2). rewrite C1, C2.
    apply MulS_mono.
    + pose proof (scaled_finite_pos mc ec Hc). lia.
    + apply (leb_scaled _ _ V1 V2 R1 R2). assumption.
  - destruct x2 as [?|[|]| |? ? ?]; try discriminate.
    + destruct x1 as [[|]|?| |[|] ? ?]; discriminate.
    + apply leb_Infinity. assumption.
  - destruct x1 as [?|[|]| |? ? ?]; try discriminate.
    + apply leb_neg_Infinity. assumption.
    + destruct x2 as [[|]|?| |[|] ? ?]; discriminate.
  - destruct x1 as [?|[|]| |? ? ?], x2 as [?|[|]| |? ? ?];
      try discriminate; reflexivity.
Qed.

End MulConst.

(** [Math.max] *)
Lemma Math_max_step (a c : JS.number) :
  JS.is_nan a = false -> JS.is_nan c = false ->
  JS.Math_max a c = JS.max_step a c.
Proof.
  intros Ha Hc. unfold JS.Math_max. rewrite Ha, Hc. cbn [orb].
  replace (JS.max_step JS.neg_Infinity a) with a; [reflexivity|].
  destruct a as [[|]|[|]| |[|] m e]; try discriminate; reflexivity.
Qed.

Lemma Math_max_valid (a c : JS.number) :
  valid_binary 53 1024 a = true -> valid_binary 53 1024 c = true ->
  valid_binary 53 1024 (JS.Math_max a c) = true.
Proof.
  intros Va Vc. unfold JS.Math_max.
  destruct (JS.is_nan a || JS.is_nan c) eqn:E; [reflexivity|].
  apply orb_false_elim in E. destruct E as [Ea Ec].
  replace (JS.max_step JS.neg_Infinity a) with a
    by (destruct a as [[|]|[|]| |[|] m e]; try discriminate; reflexivity).
  unfold JS.max_step.
  destruct (JS.is_pos_zero c && JS.is_neg_zero a); [assumption|].
  destruct (a <? c)%js; assumption.
Qed.

Lemma leb_refl (a : JS.number) : JS.is_nan a = false -> (a <=? a)%js = true.
Proof. exact (geb_refl a). Qed.

Lemma ltb_leb (a b : JS.number) : (a <? b)%js = true -> (a <=? b)%js = true.
Proof.
  unfold JS.leb, JS.ltb, JS.IsLessThan, SFcompare.
  destruct a as [[|]|[|]| |[|] ma ea], b as [[|]|[|]| |[|] mb eb];
    simpl; try discriminate; try reflexivity;
    intros; cmp_cases; simpl in *; try discriminate; try reflexivity; try lia.
Qed.

Lemma leb_trans (a b c : JS.number) :
  (a <=? b)%js = true -> (b <=? c)%js = true -> (a <=? c)%js = true.
Proof.
  unfold JS.leb, JS.ltb, JS.IsLessThan, SFcompare.
  destruct a as [[|]|[|]| |[|] ma ea], b as [[|]|[|]| |[|] mb eb],
           c as [[|]|[|]| |[|] mc ec]; simpl; try discriminate; try reflexivity;
    intros; cmp_cases; simpl in *; try discriminate; try reflexivity; try lia.
Qed.

Lemma leb_not_nan (a b : JS.number) :
  (a <=? b)%js = true -> JS.is_nan a = false /\ JS.is_nan b = false.
Proof.
  intros H. change (a <=? b)%js with (b >=? a)%js in H.
  apply geb_not_nan in H. tauto.
Qed.

(** [Math.max] never decreases when its first argument grows. *)
Lemma Math_max_mono (a b c : JS.number) :
  JS.is_nan c = false ->
  (a <=? b)%js = true ->
  (JS.Math_max a c <=? JS.Math_max b c)%js = true.
Proof.
  intros Hc H. destruct (leb_not_nan a b H) as [Ha Hb].
  rewrite !Math_max_step by assumption. unfold JS.max_step.
  assert (Lc : forall x, JS.is_nan x = false ->
                 (if JS.is_pos_zero c && JS.is_neg_zero x then c
                  else if (x <? c)%js then c else x) = c \/
                 ((c <=? x)%js = true /\
                  (if JS.is_pos_zero c && JS.is_neg_zero x then c
                   else if (x <? c)%js then c else x) = x)).
  { intros x Hx. destruct (JS.is_pos_zero c && JS.is_neg_zero x); [auto|].
    destruct (x <? c)%js eqn:E; [auto|right]. split; [|reflexivity].
    apply (ltb_false_geb x c Hx Hc E). }
  destruct (JS.is_pos_zero c && JS.is_neg_zero a) eqn:Za.
  - destruct (Lc b Hb) as [->|[L ->]]; [apply leb_refl|]; assumption.
  - destruct (a <? c)%js eqn:Ea.
    + destruct (Lc b Hb) as [->|[L ->]]; [apply leb_refl|]; assumption.
    + destruct (JS.is_pos_zero c && JS.is_neg_zero b) eqn:Zb.
      * apply andb_prop in Zb. destruct Zb as [Zc Zb].
        destruct c as [[|]|?| |? ? ?]; try discriminate.
        destruct b as [[|]|?| |? ? ?]; try discriminate.
        destruct a as [[|]|[|]| |[|] ? ?]; try discriminate; reflexivity.
      * destruct (b <? c)%js eqn:Eb; [|assumption].
        apply ltb_leb. apply (leb_ltb_trans a b c); assumption.
Qed.

End Multiplication.

(** ** The plant grows with the progress *)

Section Growth.

Lemma below_one (mc : positive) (ec : Z) :
  -1074 <= ec <= 0 -> Zpos mc <= 2 ^ (- ec) ->
  Zpos mc * 2 ^ (ec + 1074) <= 2 ^ 1074.
Proof.
  intros He Hm.
  assert (E : 2 ^ 1074 = 2 ^ (- ec) * 2 ^ (ec + 1074))
    by (rewrite <- Z.pow_add_r by lia; f_equal; lia).
  rewrite E. apply Z.mul_le_mono_nonneg_r; [apply Z.pow_nonneg; lia|exact Hm].
Qed.

Lemma times_0_8_mono (x1 x2 : JS.number) :
  valid_binary 53 1024 x1 = true -> valid_binary 53 1024 x2 = true ->
  (x1 <=? x2)%js = true ->
  (x1 * JS.decimal 8 1 <=? x2 * JS.decimal 8 1)%js = true.
Proof.
  rewrite literal_0_8. apply mul_const_mono; [reflexivity|].
  apply below_one; [lia|]. apply Z.leb_le. reflexivity.
Qed.

Lemma times_0_6_mono (x1 x2 : JS.number) :
  valid_binary 53 1024 x1 = true -> valid_binary 53 1024 x2 = true ->
  (x1 <=? x2)%js = true ->
  (x1 * JS.decimal 6 1 <=? x2 * JS.decimal 6 1)%js = true.
Proof.
  rewrite literal_0_6. apply mul_const_mono; [reflexivity|].
  apply below_one; [lia|]. apply Z.leb_le. reflexivity.
Qed.

Lemma plantHeight_valid (p : JS.number) :
  valid_binary 53 1024 p = true -> valid_binary 53 1024 (plantHeight p) = true.
Proof.
  intros V. unfold plantHeight, getPlantHeight. cbv zeta.
  apply Math_max_valid; [|reflexivity].
  rewrite literal_0_8. apply mul_const_valid; [reflexivity| |assumption].
  apply below_one; [lia|]. apply Z.leb_le. reflexivity.
Qed.

Lemma stemHeight_valid (p : JS.number) :
  valid_binary 53 1024 p = true -> valid_binary 53 1024 (stemHeight p) = true.
Proof.
  intros V. unfold stemHeight.
  apply Math_max_valid; [|reflexivity].
  rewrite literal_0_6. apply mul_const_valid; [reflexivity| |].
  - apply below_one; [lia|]. apply Z.leb_le. reflexivity.
  - apply plantHeight_valid. assumption.
Qed.

Lemma plantHeight_mono (p1 p2 : JS.number) :
  valid_binary 53 1024 p1 = true -> valid_binary 53 1024 p2 = true ->
  (p1 <=? p2)%js = true -> (plantHeight p1 <=? plantHeight p2)%js = true.
Proof.
  intros V1 V2 H. unfold plantHeight, getPlantHeight. cbv zeta.
  apply Math_max_mono; [reflexivity|]. apply times_0_8_mono; assumption.
Qed.

Lemma stemHeight_mono (p1 p2 : JS.number) :
  valid_binary 53 1024 p1 = true -> valid_binary 53 1024 p2 = true ->
  (p1 <=? p2)%js = true -> (stemHeight p1 <=? stemHeight p2)%js = true.
Proof.
  intros V1 V2 H. unfold stemHeight.
  apply Math_max_mono; [reflexivity|].
  apply times_0_6_mono; try apply plantHeight_valid; try assumption.
  apply plantHeight_mono; assumption.
Qed.

(** X1.  The plant never shrinks when the progress grows: for binary64
    percentages [p1 <= p2], [plantHeight p1 <= plantHeight p2] and
    [stemHeight p1 <= stemHeight p2], in binary64 arithmetic. *)
Theorem plant_grows_with_progress (p1 p2 : JS.number) :
  binary64 p1 -> binary64 p2 -> (p1 <=? p2)%js = true ->
  (plantHeight p1 <=? plantHeight p2)%js = true /\
  (stemHeight p1 <=? stemHeight p2)%js = true.
Proof.
  intros V1 V2 H. split; [apply plantHeight_mono|apply stemHeight_mono];
    assumption.
Qed.

(** From 12.5 to 60 percent. *)
Lemma plant_grows_with_progress_witness :
  (plantHeight (JS.decimal 125 1) <=? plantHeight (#60))%js = true /\
  (stemHeight (JS.decimal 125 1) <=? stemHeight (#60))%js = true.
Proof.
  apply plant_grows_with_progress; reflexivity.
Defined.

(** X2.  Up to 100 percent the plant height stays between 5 and 80 and
    the stem height between 10 and 48. *)
Theorem plant_size_up_to_100 (p : JS.number) :
  binary64 p -> (p <=? #100)%js = true ->
  (plantHeight p >=? #5)%js = true /\ (plantHeight p <=? #80)%js = true /\
  (stemHeight p >=? #10)%js = true /\ (stemHeight p <=? #48)%js = true.
Proof.
  intros V H. destruct (leb_not_nan _ _ H) as [N _].
  assert (V100 : valid_binary 53 1024 (#100)%js = true) by reflexivity.
  split; [apply plantHeight_ge_5; assumption|].
  split; [exact (plantHeight_mono p (#100)%js V V100 H)|].
  split; [apply stemHeight_ge_10; assumption|].
  exact (stemHeight_mono p (#100)%js V V100 H).
Qed.

(** At 99.9 percent. *)
Lemma plant_size_up_to_100_witness :
  (plantHeight (JS.decimal 999 1) <=? #80)%js = true /\
  (stemHeight (JS.decimal 999 1) <=? #48)%js = true.
Proof.
  destruct (plant_size_up_to_100 (JS.decimal 999 1) eq_refl eq_refl)
    as (_ & H1 & _ & H2).
  split; [exact H1|exact H2].
Defined.

End Growth.

(** ** Addition and subtraction *)

Section Subtraction.

Lemma RndS_mono (X1 X2 : Z) : X1 <= X2 -> RndS X1 <= RndS X2.
Proof.
  intros H. unfold RndS.
  destruct (Z.ltb_spec X1 0), (Z.ltb_spec X2 0).
  - pose proof (RndQ_mono (- X2) (- X1) 1 ltac:(lia) ltac:(lia)). lia.
  - pose proof (RndQ_nonneg (- X1) 1 ltac:(lia) ltac:(lia)).
    pose proof (RndQ_nonneg X2 1 ltac:(lia) ltac:(lia)). lia.
  - lia.
  - apply RndQ_mono; lia.
Qed.

Lemma RndS_scaled (x : JS.number) :
  valid_binary 53 1024 x = true -> RndS (scaled x) = scaled x.
Proof.
  destruct x as [s|s| |s m e]; intros V; try reflexivity.
  cbn [valid_binary] in V. pose proof (scaled_finite_pos m e V).
  pose proof (RndQ_representable m e V) as R.
  cbn [scaled]. unfold RndS. destruct s; cbn [cond_Zopp].
  - destruct (Z.ltb_spec (- (Zpos m * 2 ^ (e + 1074))) 0); [|lia].
    rewrite Z.opp_involutive, R. reflexivity.
  - destruct (Z.ltb_spec (Zpos m * 2 ^ (e + 1074)) 0); [lia|]. exact R.
Qed.

Lemma shl_align_spec (m : positive) (e e' : Z) :
  exists mz : positive,
    shl_align m e e' = (mz, Z.min e e') /\
    Zpos mz = Zpos m * 2 ^ (e - Z.min e e').
Proof.
  unfold shl_align. destruct (e' - e) as [|d|d] eqn:E.
  - exists m. rewrite Z.min_l by lia. rewrite Z.sub_diag, Z.pow_0_r, Z.mul_1_r.
    auto.
  - exists m. rewrite Z.min_l by lia. rewrite Z.sub_diag, Z.pow_0_r, Z.mul_1_r.
    auto.
  - exists (Pos.iter xO m d). rewrite Z.min_r by lia. split; [reflexivity|].
    rewrite iter_xO_pow. f_equal. f_equal. lia.
Qed.

Lemma binary_round_scaled (s : bool) (p : positive) (e : Z) :
  -1074 <= e -> RndQ (Zpos p * 2 ^ (e + 1074)) 1 < 2 ^ 2098 ->
  is_real (binary_round 53 1024 s p e) = true /\
  valid_binary 53 1024 (binary_round 53 1024 s p e) = true /\
  scaled (binary_round 53 1024 s p e) =
  cond_Zopp s (RndQ (Zpos p * 2 ^ (e + 1074)) 1).
Proof.
  intros He Hov. unfold binary_round. rewrite fexp_64.
  change (Z.pos (digits2_pos p)) with (Zdigits2 (Zpos p)).
  set (f := fexp64 (Zdigits2 (Zpos p) + e)).
  assert (Hf : -1074 <= f) by (unfold f, fexp64; lia).
  destruct (shl_align_spec p e f) as (mz & -> & Hmz).
  set (ez := Z.min e f) in *.
  assert (Hd : Zdigits2 (Zpos mz) = Zdigits2 (Zpos p) + (e - ez))
    by (rewrite Hmz; apply Zdigits2_shift; lia).
  assert (EA : Zpos p * 2 ^ (e + 1074) = Zpos mz * 2 ^ Z.max 0 (ez + 1074)).
  { rewrite Hmz, <- Z.mul_assoc, <- Z.pow_add_r by lia. f_equal. f_equal. lia. }
  assert (EB : 1 = 1 * 2 ^ Z.max 0 (- (ez + 1074))).
  { rewrite Z.max_l by lia. reflexivity. }
  apply (round_aux_scaled _ _ _ _ (Zpos mz) 1);
    [lia|lia|apply located_exact| |exact EA|exact EB|exact Hov].
  rewrite Hd. replace (Zdigits2 (Z.pos p) + (e - ez) + ez)
    with (Zdigits2 (Z.pos p) + e) by lia.
  fold f. lia.
Qed.

Lemma binary_normalize_scaled (z e : Z) :
  -1074 <= e -> RndQ (Z.abs z * 2 ^ (e + 1074)) 1 < 2 ^ 2098 ->
  is_real (binary_normalize 53 1024 z e false) = true /\
  valid_binary 53 1024 (binary_normalize 53 1024 z e false) = true /\
  scaled (binary_normalize 53 1024 z e false) = RndS (z * 2 ^ (e + 1074)).
Proof.
  intros He Hov.
  assert (Hp : 0 < 2 ^ (e + 1074)) by (apply Z.pow_pos_nonneg; lia).
  destruct z as [|p|p]; cbn [binary_normalize Z.abs] in *.
  - split; [reflexivity|]. split; [reflexivity|].
    rewrite Z.mul_0_l. unfold RndS. rewrite Z.ltb_irrefl, RndQ_0 by lia.
    reflexivity.
  - destruct (binary_round_scaled false p e He Hov) as (R1 & R2 & R3).
    split; [exact R1|]. split; [exact R2|]. rewrite R3. unfold RndS.
    destruct (Z.ltb_spec (Zpos p * 2 ^ (e + 1074)) 0); [lia|]. reflexivity.
  - destruct (binary_round_scaled true p e He Hov) as (R1 & R2 & R3).
    split; [exact R1|]. split; [exact R2|]. rewrite R3. unfold RndS.
    destruct (Z.ltb_spec (Zneg p * 2 ^ (e + 1074)) 0); [|lia].
    cbn [cond_Zopp]. f_equal. f_equal.
    change (Z.neg p) with (- Z.pos p). ring.
Qed.

Lemma aligned_scaled (s : bool) (m : positive) (e ez : Z) :
  -1074 <= ez -> ez <= e ->
  cond_Zopp s (Zpos (fst (shl_align m e ez))) * 2 ^ (ez + 1074) =
  scaled (S754_finite s m e).
Proof.
  intros H1 H2. destruct (shl_align_spec m e ez) as (mz & -> & Hmz).
  cbn [fst scaled]. rewrite Hmz, Z.min_r by lia.
  replace (e + 1074) with (e - ez + (ez + 1074)) by lia.
  rewrite (Z.pow_add_r 2 (e - ez) (ez + 1074)) by lia.
  destruct s; cbn [cond_Zopp]; ring.
Qed.

(** The difference of two real binary64 values that are not negative is
    the exact difference rounded. *)
Lemma sub_nonneg_scaled (x y : JS.number) :
  valid_binary 53 1024 x = true -> valid_binary 53 1024 y = true ->
  is_real x = true -> is_real y = true ->
  sign_bit x = false -> sign_bit y = false ->
  is_real (x - y)%js = true /\
  valid_binary 53 1024 (x - y)%js = true /\
  scaled (x - y)%js = RndS (scaled x - scaled y).
Proof.
  intros Vx Vy Rx Ry Sx Sy.
  destruct x as [sx|sx| |sx mx ex]; try discriminate;
    destruct y as [sy|sy| |sy my ey]; try discriminate;
    cbn [sign_bit] in Sx, Sy; subst sx sy.
  - repeat split.
  - split; [reflexivity|]. split; [exact Vy|].
    cbn [JS.sub SFsub negb].
    rewrite <- (RndS_scaled (S754_finite true my ey) Vy).
    f_equal; try (cbn [scaled cond_Zopp]; lia).
  - split; [reflexivity|]. split; [exact Vx|].
    cbn [JS.sub SFsub]. rewrite <- (RndS_scaled _ Vx) at 1.
    f_equal; try (cbn [scaled cond_Zopp]; lia).
  - cbn [valid_binary] in Vx, Vy.
    pose proof (bounded_digits mx ex Vx) as (Bx & _).
    pose proof (bounded_digits my ey Vy) as (By & _).
    pose proof (scaled_finite_pos mx ex Vx) as Px.
    pose proof (scaled_finite_pos my ey Vy) as Py.
    unfold JS.sub, SFsub. cbv zeta.
    set (ez := Z.min ex ey).
    set (z := cond_Zopp false (Zpos (fst (shl_align mx ex ez))) -
              cond_Zopp false (Zpos (fst (shl_align my ey ez)))).
    assert (Ez : z * 2 ^ (ez + 1074) =
                 scaled (S754_finite false mx ex) -
                 scaled (S754_finite false my ey)).
    { unfold z. rewrite Z.mul_sub_distr_r.
      rewrite !aligned_scaled by (unfold ez; lia). reflexivity. }
    rewrite <- Ez.
    apply binary_normalize_scaled; [unfold ez; lia|].
    assert (Hp : 0 < 2 ^ (ez + 1074))
      by (apply Z.pow_pos_nonneg; unfold ez; lia).
    replace (Z.abs z * 2 ^ (ez + 1074)) with (Z.abs (z * 2 ^ (ez + 1074)))
      by (rewrite Z.abs_mul, (Z.abs_eq (2 ^ _)) by lia; reflexivity).
    rewrite Ez. cbn [scaled cond_Zopp].
    set (X := Zpos mx * 2 ^ (ex + 1074)) in *.
    set (Y := Zpos my * 2 ^ (ey + 1074)) in *.
    destruct (Z.le_gt_cases Y X).
    + apply Z.le_lt_trans with X; [|apply scaled_bound; assumption].
      unfold X at 2. rewrite <- (RndQ_representable mx ex Vx). fold X.
      apply RndQ_mono; lia.
    + apply Z.le_lt_trans with Y; [|apply scaled_bound; assumption].
      unfold Y at 2. rewrite <- (RndQ_representable my ey Vy). fold Y.
      apply RndQ_mono; lia.
Qed.

(** The sum of two real binary64 values that are not negative, when it does
    not overflow, is the exact sum rounded. *)
Lemma add_nonneg_scaled (x y : JS.number) :
  valid_binary 53 1024 x = true -> valid_binary 53 1024 y = true ->
  is_real x = true -> is_real y = true ->
  sign_bit x = false -> sign_bit y = false ->
  RndQ (scaled x + scaled y) 1 < 2 ^ 2098 ->
  is_real (x + y)%js = true /\
  valid_binary 53 1024 (x + y)%js = true /\
  scaled (x + y)%js = RndS (scaled x + scaled y).
Proof.
  intros Vx Vy Rx Ry Sx Sy.
  destruct x as [sx|sx| |sx mx ex]; try discriminate;
    destruct y as [sy|sy| |sy my ey]; try discriminate;
    cbn [sign_bit] in Sx, Sy; subst sx sy; intros Hov.
  - repeat split.
  - split; [reflexivity|]. split; [exact Vy|].
    cbn [JS.add SFadd]. rewrite <- (RndS_scaled _ Vy) at 1.
    f_equal; try (cbn [scaled cond_Zopp]; lia).
  - split; [reflexivity|]. split; [exact Vx|].
    cbn [JS.add SFadd]. rewrite <- (RndS_scaled _ Vx) at 1.
    f_equal; try (cbn [scaled cond_Zopp]; lia).
  - cbn [valid_binary] in Vx, Vy.
    pose proof (bounded_digits mx ex Vx) as (Bx & _).
    pose proof (bounded_digits my ey Vy) as (By & _).
    pose proof (scaled_finite_pos mx ex Vx) as Px.
    pose proof (scaled_finite_pos my ey Vy) as Py.
    unfold JS.add, SFadd. cbv zeta.
    set (ez := Z.min ex ey).
    set (z := cond_Zopp false (Zpos (fst (shl_align mx ex ez))) +
              cond_Zopp false (Zpos (fst (shl_align my ey ez)))).
    assert (Ez : z * 2 ^ (ez + 1074) =
                 scaled (S754_finite false mx ex) +
                 scaled (S754_finite false my ey)).
    { unfold z. rewrite Z.mul_add_distr_r.
      rewrite !aligned_scaled by (unfold ez; lia). reflexivity. }
    rewrite <- Ez.
    apply binary_normalize_scaled; [unfold ez; lia|].
    assert (Hp : 0 < 2 ^ (ez + 1074))
      by (apply Z.pow_pos_nonneg; unfold ez; lia).
    replace (Z.abs z * 2 ^ (ez + 1074)) with (Z.abs (z * 2 ^ (ez + 1074)))
      by (rewrite Z.abs_mul, (Z.abs_eq (2 ^ _)) by lia; reflexivity).
    rewrite Ez. cbn [scaled cond_Zopp] in *.
    rewrite Z.abs_eq by lia. exact Hov.
Qed.

(** The product of two real binary64 values that are not negative, when it
    does not overflow. *)
Lemma mul_nonneg_scaled (x y : JS.number) :
  valid_binary 53 1024 x = true -> valid_binary 53 1024 y = true ->
  is_real x = true -> is_real y = true ->
  sign_bit x = false -> sign_bit y = false ->
  RndQ (scaled x * scaled y) (2 ^ 1074) < 2 ^ 2098 ->
  is_real (x * y)%js = true /\
  valid_binary 53 1024 (x * y)%js = true /\
  scaled (x * y)%js = RndQ (scaled x * scaled y) (2 ^ 1074).
Proof.
  intros Vx Vy Rx Ry Sx Sy.
  assert (HU : 0 < 2 ^ 1074) by (apply Z.pow_pos_nonneg; lia).
  destruct x as [sx|sx| |sx mx ex]; try discriminate;
    destruct y as [sy|sy| |sy my ey]; try discriminate;
    cbn [sign_bit] in Sx, Sy; subst sx sy; intros Hov;
    try (split; [reflexivity|]; split; [reflexivity|];
         cbn [JS.mul SFmul scaled xorb];
         rewrite ?Z.mul_0_l, ?Z.mul_0_r, RndQ_0 by assumption; reflexivity).
  cbn [valid_binary] in Vx, Vy. cbn [scaled cond_Zopp] in *.
  exact (mul_finite_scaled false false mx my ex ey Vx Vy Hov).
Qed.

End Subtraction.

(** ** The top of the stem *)

Section StemTop.

Lemma sub_finite_not_nan (s : bool) (m : positive) (e : Z) (y : JS.number) :
  JS.is_nan y = false -> JS.is_nan (S754_finite s m e - y)%js = false.
Proof.
  destruct y as [sy|sy| |sy my ey]; try discriminate; intros _;
    try reflexivity.
  unfold JS.sub, SFsub. cbv zeta. apply binary_normalize_not_nan.
Qed.

Lemma positive_sign (x : JS.number) :
  valid_binary 53 1024 x = true -> is_real x = true -> 0 < scaled x ->
  sign_bit x = false.
Proof.
  destruct x as [s|s| |s m e]; intros V R H; try discriminate R;
    try (cbn [scaled] in H; lia).
  cbn [valid_binary] in V. pose proof (scaled_finite_pos m e V).
  destruct s; [cbn [scaled cond_Zopp] in H; lia|reflexivity].
Qed.

(** [190 - s] does not grow with [s], from [s = 10] on. *)
Lemma sub_190_antitone (s1 s2 : JS.number) :
  valid_binary 53 1024 s1 = true -> valid_binary 53 1024 s2 = true ->
  (s1 >=? #10)%js = true -> (s1 <=? s2)%js = true ->
  (#190 - s2 <=? #190 - s1)%js = true.
Proof.
  intros V1 V2 H10 H.
  destruct (leb_not_nan _ _ H) as [N1 N2].
  assert (U : 0 < 2 ^ 1074) by (apply Z.pow_pos_nonneg; lia).
  assert (V190 : valid_binary 53 1024 (#190)%js = true) by reflexivity.
  assert (V10 : valid_binary 53 1024 (#10)%js = true) by reflexivity.
  assert (S10 : scaled (#10)%js = 10 * 2 ^ 1074)
    by (apply (binary_normalize_exact 10); reflexivity).
  assert (P : forall s, valid_binary 53 1024 s = true -> is_real s = true ->
                (#10 <=? s)%js = true -> sign_bit s = false).
  { intros s V R L. apply positive_sign; try assumption.
    apply (leb_scaled _ _ V10 V eq_refl R) in L. rewrite S10 in L. lia. }
  change (s1 >=? #10)%js with (#10 <=? s1)%js in H10.
  pose proof (leb_trans _ _ _ H10 H) as H20.
  destruct (is_real s1) eqn:R1, (is_real s2) eqn:R2.
  - pose proof (P s1 V1 R1 H10) as Sg1. pose proof (P s2 V2 R2 H20) as Sg2.
    destruct (sub_nonneg_scaled (#190)%js s1 V190 V1 eq_refl R1 eq_refl Sg1)
      as (A1 & B1 & C1).
    destruct (sub_nonneg_scaled (#190)%js s2 V190 V2 eq_refl R2 eq_refl Sg2)
      as (A2 & B2 & C2).
    apply (leb_scaled _ _ B2 B1 A2 A1). rewrite C1, C2. apply RndS_mono.
    apply (leb_scaled _ _ V1 V2 R1 R2) in H. lia.
  - destruct s2 as [?|[|]| |? ? ?]; try discriminate.
    apply leb_neg_Infinity. apply sub_finite_not_nan. assumption.
  - destruct s1 as [?|[|]| |? ? ?]; try discriminate.
    destruct s2 as [[|]|[|]| |[|] ? ?]; discriminate.
  - destruct s1 as [?|[|]| |? ? ?], s2 as [?|[|]| |? ? ?];
      try discriminate; reflexivity.
Qed.

(** X3.  [190 - stemHeight] is the [y] of the stem and the [cy] of the
    flower centre and of the fruit.  It never goes down the picture when the
    progress grows (a larger percentage gives a smaller or equal [y]); it is
    at most 180 for every percentage; and up to 100 percent it is at least
    142, so the top of the plant stays inside the 200 by 200 view box. *)
Theorem stem_top_position :
  (forall p1 p2 : JS.number,
     binary64 p1 -> binary64 p2 -> (p1 <=? p2)%js = true ->
     (#190 - stemHeight p2 <=? #190 - stemHeight p1)%js = true) /\
  (forall p : JS.number,
     binary64 p -> JS.is_nan p = false ->
     (#190 - stemHeight p <=? #180)%js = true) /\
  (forall p : JS.number,
     binary64 p -> (p <=? #100)%js = true ->
     (#142 <=? #190 - stemHeight p)%js = true).
Proof.
  split; [|split].
  - intros p1 p2 V1 V2 H. destruct (leb_not_nan _ _ H) as [N1 N2].
    apply sub_190_antitone; try (apply stemHeight_valid; assumption).
    + apply stemHeight_ge_10. assumption.
    + apply stemHeight_mono; assumption.
  - intros p V N.
    pose proof (stemHeight_ge_10 p N) as G.
    assert (G' : (#10 <=? stemHeight p)%js = true) by exact G.
    exact (sub_190_antitone (#10)%js (stemHeight p) eq_refl
             (stemHeight_valid p V) eq_refl G').
  - intros p V H. destruct (leb_not_nan _ _ H) as [N _].
    pose proof (stemHeight_mono p (#100)%js V eq_refl H) as L.
    exact (sub_190_antitone (stemHeight p) (#48)%js
             (stemHeight_valid p V) eq_refl (stemHeight_ge_10 p N) L).
Qed.

(** At 60 percent the top of the stem is between 142 and 180. *)
Lemma stem_top_position_witness :
  (#142 <=? #190 - stemHeight (#60))%js = true /\
  (#190 - stemHeight (#60) <=? #180)%js = true.
Proof.
  destruct stem_top_position as (_ & H1 & H2).
  split; [apply H2|apply H1]; reflexivity.
Defined.

End StemTop.

(** ** The printed percentage *)

Section ProgressText.

Lemma binary_normalize_sign (z : Z) :
  z <> 0 -> sign_bit (binary_normalize 53 1024 z 0 false) = (z <? 0).
Proof.
  intros Hz. destruct z as [|p|p]; [congruence| |];
    cbn [binary_normalize]; unfold binary_round;
    destruct (shl_align p 0 _) as [mz ez];
    apply (binary_round_aux_sign _ _ _ _ _ _ (Zpos mz) 1); try lia;
    apply located_exact.
Qed.

Lemma Math_round_real (y : JS.number) :
  valid_binary 53 1024 y = true -> is_real y = true ->
  is_real (Math_round y) = true /\
  valid_binary 53 1024 (Math_round y) = true /\
  scaled (Math_round y) = round_scaled (scaled y) /\
  sign_bit (Math_round y) = sign_bit y.
Proof.
  unfold round_scaled.
  assert (Hu : 0 < 2 ^ 1074) by (apply Z.pow_pos_nonneg; lia).
  destruct y as [s|s| |s m e]; try discriminate; intros Hv _.
  - split; [reflexivity|]. split; [reflexivity|]. split; [|reflexivity].
    cbn [Math_round scaled]. rewrite Z.mul_0_r, Z.add_0_l.
    rewrite Z.div_small by lia. reflexivity.
  - cbn [valid_binary] in Hv.
    pose proof (bounded_digits m e Hv) as (Be & Um & _).
    cbn [Math_round]. unfold JS.prec, JS.emax.
    destruct (Z.leb_spec 0 e) as [He|He].
    + split; [reflexivity|]. split; [assumption|]. split; [|reflexivity].
      cbn [scaled].
      assert (E : cond_Zopp s (Zpos m * 2 ^ (e + 1074)) =
                  cond_Zopp s (Zpos m * 2 ^ e) * 2 ^ 1074).
      { rewrite Z.pow_add_r by lia. generalize dependent (2 ^ 1074).
        intros u _. destruct s; cbn [cond_Zopp]; ring. }
      rewrite E. f_equal.
      generalize dependent (2 ^ 1074). intros u Hu _.
      replace (2 * (cond_Zopp s (Z.pos m * 2 ^ e) * u) + u)
        with (u + cond_Zopp s (Z.pos m * 2 ^ e) * (2 * u)) by ring.
      rewrite Z.div_add by lia. rewrite Z.div_small by lia. lia.
    + set (P := 2 ^ (- e)).
      assert (HP : 2 <= P).
      { unfold P. change 2 with (2 ^ 1) at 1. apply Z.pow_le_mono_r; lia. }
      set (z := Z.shiftr (2 * cond_Zopp s (Zpos m) + P) (1 - e)).
      assert (E2 : 2 ^ (1 - e) = 2 * P).
      { unfold P. replace (1 - e) with (1 + - e) by lia.
        rewrite Z.pow_add_r by lia. reflexivity. }
      assert (Hz : z = (2 * cond_Zopp s (Zpos m) + P) / (2 * P)).
      { unfold z. rewrite Z.shiftr_div_pow2 by lia. rewrite E2. reflexivity. }
      assert (Hsgn : if s then - 2 ^ 53 < z <= 0 else 0 <= z < 2 ^ 53).
      { rewrite Hz. destruct s; cbn [cond_Zopp].
        - split.
          + assert (- 2 ^ 53 + 1 <= (2 * - Zpos m + P) / (2 * P));
              [|lia].
            apply Z.div_le_lower_bound; [lia|]. nia.
          + assert ((2 * - Zpos m + P) / (2 * P) < 1); [|lia].
            apply Z.div_lt_upper_bound; lia.
        - split.
          + apply Z.div_pos; lia.
          + apply Z.div_lt_upper_bound; [lia|]. nia. }
      assert (ES : scaled (S754_finite s m e) = cond_Zopp s (Zpos m) * 2 ^ (e + 1074)).
      { cbn [scaled]. destruct s; cbn [cond_Zopp]; ring. }
      assert (EU : 2 ^ 1074 = P * 2 ^ (e + 1074)).
      { unfold P. rewrite <- Z.pow_add_r by lia. f_equal. lia. }
      assert (Hp2 : 0 < 2 ^ (e + 1074)) by (apply Z.pow_pos_nonneg; lia).
      assert (EQ : (2 * scaled (S754_finite s m e) + 2 ^ 1074) / (2 * 2 ^ 1074)
                   = z).
      { rewrite ES, Hz. rewrite EU.
        replace (2 * (cond_Zopp s (Z.pos m) * 2 ^ (e + 1074)) + P * 2 ^ (e + 1074))
          with ((2 * cond_Zopp s (Z.pos m) + P) * 2 ^ (e + 1074)) by ring.
        replace (2 * (P * 2 ^ (e + 1074))) with (2 * P * 2 ^ (e + 1074)) by ring.
        apply Z.div_mul_cancel_r; lia. }
      rewrite EQ. clear EQ ES Hz. clearbody z.
      destruct (Z.eqb_spec z 0) as [Z0|Z0].
      * rewrite Z0, Z.mul_0_l. split; [reflexivity|]. split; [reflexivity|].
        split; reflexivity.
      * assert (Habs : Z.abs z < 2 ^ 53) by (destruct s; lia).
        pose proof (binary_normalize_exact z Habs) as (R1 & R2 & R3).
        cbv zeta in R1, R2, R3.
        split; [assumption|]. split; [assumption|]. split; [assumption|].
        rewrite binary_normalize_sign by assumption. cbn [sign_bit].
        destruct s; [apply Z.ltb_lt|apply Z.ltb_ge]; lia.
Qed.

Lemma Math_round_not_real (y : JS.number) :
  is_real y = false -> Math_round y = y.
Proof. destruct y; try discriminate; reflexivity. Qed.

(** The rounded value is a whole number within one half of the argument. *)
Lemma round_scaled_spec (Y : Z) :
  exists n : Z,
    round_scaled Y = n * 2 ^ 1074 /\
    2 * Y - 2 ^ 1074 < 2 * (n * 2 ^ 1074) <= 2 * Y + 2 ^ 1074.
Proof.
  assert (Hu : 0 < 2 ^ 1074) by (apply Z.pow_pos_nonneg; lia).
  unfold round_scaled. generalize dependent (2 ^ 1074). intros u Hu.
  exists ((2 * Y + u) / (2 * u)). split; [reflexivity|].
  pose proof (Z.div_mod (2 * Y + u) (2 * u) ltac:(lia)).
  pose proof (Z.mod_pos_bound (2 * Y + u) (2 * u) ltac:(lia)). lia.
Qed.

Lemma round_scaled_between (Y t : Z) :
  2 * t * 2 ^ 1074 - 2 ^ 1074 <= 2 * Y < 2 * t * 2 ^ 1074 + 2 ^ 1074 ->
  round_scaled Y = t * 2 ^ 1074.
Proof.
  assert (Hu : 0 < 2 ^ 1074) by (apply Z.pow_pos_nonneg; lia).
  unfold round_scaled. generalize dependent (2 ^ 1074). intros u Hu H.
  f_equal. symmetry. apply Z.div_unique with (2 * Y + u - t * (2 * u)); lia.
Qed.

Lemma ltb_scaled (a b : JS.number) :
  valid_binary 53 1024 a = true -> valid_binary 53 1024 b = true ->
  is_real a = true -> is_real b = true ->
  ((a <? b)%js = true <-> scaled a < scaled b).
Proof.
  intros Va Vb Ra Rb. unfold JS.ltb, JS.IsLessThan.
  rewrite (SFcompare_scaled a b Va Vb Ra Rb).
  destruct (Z.compare_spec (scaled a) (scaled b)); split; intros;
    try reflexivity; try discriminate; lia.
Qed.

Lemma between_real (p lo hi : JS.number) :
  is_real lo = true -> is_real hi = true ->
  (p >=? lo)%js = true -> (p <? hi)%js = true -> is_real p = true.
Proof.
  destruct p as [?|[|]| |? ? ?]; try reflexivity;
    destruct lo as [?|?| |[|] ? ?], hi as [?|?| |[|] ? ?]; discriminate.
Qed.

Lemma geb_ltb_false (p a b : JS.number) :
  (p >=? a)%js = true -> (b <=? a)%js = true -> (p <? b)%js = false.
Proof.
  intros H1 H2. apply geb_not_ltb.
  change ((b <=? p)%js = true). apply (leb_trans b a p); assumption.
Qed.

(** A value from [z - 1/2] up to, but excluding, [z] rounds to [z]. *)
Lemma Math_round_half_below (p half : JS.number) (z : Z) :
  binary64 p -> 0 < z < 2 ^ 52 ->
  valid_binary 53 1024 half = true -> is_real half = true ->
  2 * scaled half = (2 * z - 1) * 2 ^ 1074 ->
  (p >=? half)%js = true -> (p <? #z)%js = true ->
  Math_round p = (#z)%js.
Proof.
  unfold binary64. change JS.prec with 53. change JS.emax with 1024.
  intros V Hz Vh Rh Sh Hge Hlt.
  assert (U : 0 < 2 ^ 1074) by (apply Z.pow_pos_nonneg; lia).
  destruct (binary_normalize_exact z ltac:(lia)) as (Rz & Vz & Sz).
  cbv zeta in Rz, Vz, Sz. change (binary_normalize 53 1024 z 0 false)
    with (#z)%js in Rz, Vz, Sz.
  pose proof (between_real p half (#z)%js Rh Rz Hge Hlt) as Rp.
  destruct (Math_round_real p V Rp) as (R1 & V1 & S1 & G1).
  change (p >=? half)%js with (half <=? p)%js in Hge.
  apply (leb_scaled _ _ Vh V Rh Rp) in Hge.
  apply (ltb_scaled _ _ V Vz Rp Rz) in Hlt. rewrite Sz in Hlt.
  assert (Pp : sign_bit p = false).
  { apply positive_sign; try assumption.
    generalize dependent (2 ^ 1074). intros. nia. }
  apply scaled_inj; try assumption.
  - rewrite G1, Pp. symmetry. apply of_Z_sign_bit. lia.
  - rewrite S1, Sz. apply round_scaled_between.
    generalize dependent (2 ^ 1074). intros. nia.
Qed.

(** X4.  The printed percentage can be ahead of the plant.  Within half a
    unit below each threshold the text already shows the threshold, while
    [getStage] still gives the stage below it: from 99.5 up to, but excluding,
    100 percent the text reads 100 and the plant is still [flowering], not
    [fruiting]; likewise at 10, 25, 50, 75 and 95. *)
Theorem progress_text_ahead_of_stage (p : JS.number) :
  binary64 p ->
  ((p >=? JS.decimal 95 1)%js = true -> (p <? #10)%js = true ->
   progressText p = (#10)%js /\ getStage p = seed) /\
  ((p >=? JS.decimal 245 1)%js = true -> (p <? #25)%js = true ->
   progressText p = (#25)%js /\ getStage p = sprout) /\
  ((p >=? JS.decimal 495 1)%js = true -> (p <? #50)%js = true ->
   progressText p = (#50)%js /\ getStage p = small) /\
  ((p >=? JS.decimal 745 1)%js = true -> (p <? #75)%js = true ->
   progressText p = (#75)%js /\ getStage p = medium) /\
  ((p >=? JS.decimal 945 1)%js = true -> (p <? #95)%js = true ->
   progressText p = (#95)%js /\ getStage p = large) /\
  ((p >=? JS.decimal 995 1)%js = true -> (p <? #100)%js = true ->
   progressText p = (#100)%js /\ getStage p = flowering).
Proof.
  intros V. unfold progressText.
  split; [|split; [|split; [|split; [|split]]]]; intros Hge Hlt;
    (split;
     [ refine (Math_round_half_below p _ _ V _ _ _ _ Hge Hlt);
       [lia|reflexivity|reflexivity|vm_compute; reflexivity]
     | ]);
    unfold getStage;
    repeat match goal with
    | |- context [(p <? #?t)%js] =>
        first [ rewrite Hlt
              | rewrite (geb_ltb_false p _ (#t)%js Hge eq_refl) ]
    end; reflexivity.
Qed.

(** At 99.6 percent. *)
Lemma progress_text_ahead_of_stage_witness :
  progressText (JS.decimal 996 1) = (#100)%js /\
  getStage (JS.decimal 996 1) = flowering.
Proof.
  destruct (progress_text_ahead_of_stage (JS.decimal 996 1) eq_refl)
    as (_ & _ & _ & _ & _ & H).
  apply H; reflexivity.
Defined.

(** X5.  The printed percentage is [Math.round(progressPercentage)]: a whole
    percentage is printed as it is; for any real percentage [p] the number
    printed is the integer [n] with [p - 1/2 < n <= p + 1/2] (written in
    units of [2^-1074]); [NaN] and the infinities are printed as they
    are. *)
Theorem progress_text_rounds :
  (forall z : Z, Z.abs z < 2 ^ 53 -> progressText (#z)%js = (#z)%js) /\
  (forall p : JS.number,
     binary64 p -> is_real p = true ->
     exists n : Z,
       is_real (progressText p) = true /\
       scaled (progressText p) = n * 2 ^ 1074 /\
       2 * scaled p - 2 ^ 1074 < 2 * (n * 2 ^ 1074) <= 2 * scaled p + 2 ^ 1074) /\
  (forall p : JS.number, is_real p = false -> progressText p = p).
Proof.
  unfold progressText. split; [|split].
  - intros z Hz.
    destruct (binary_normalize_exact z Hz) as (R & V & S). cbv zeta in R, V, S.
    change (binary_normalize 53 1024 z 0 false) with (#z)%js in R, V, S.
    destruct (Math_round_real _ V R) as (R1 & V1 & S1 & G1).
    apply scaled_inj; try assumption.
    rewrite S1, S. apply round_scaled_between.
    assert (0 < 2 ^ 1074) by (apply Z.pow_pos_nonneg; lia).
    generalize dependent (2 ^ 1074). intros. nia.
  - intros p V R. unfold binary64 in V.
    change JS.prec with 53 in V. change JS.emax with 1024 in V.
    destruct (Math_round_real _ V R) as (R1 & V1 & S1 & G1).
    destruct (round_scaled_spec (scaled p)) as (n & E & B).
    exists n. rewrite S1, E. auto.
  - apply Math_round_not_real.
Qed.

(** 42 percent is printed as 42. *)
Lemma progress_text_rounds_witness :
  progressText (#42)%js = (#42)%js.
Proof.
  apply (proj1 progress_text_rounds). reflexivity.
Defined.

End ProgressText.

(** ** The shape of a completed render *)

Section RenderShape.

Lemma PlantVisualization_shapes (p : JS.number) (t : option string)
      (els : list element) :
  PlantVisualization p t = JS.Normal els ->
  List.hd_error els = Some soil /\
  List.filter is_soil els = [soil] /\
  List.filter is_seed_shape els = rendered (seedChild p) /\
  List.filter is_sprout_shape els = rendered (sproutChild p) /\
  List.filter is_flower_center els = rendered (flowerCenterChild p t).
Proof.
  intros E. apply PlantVisualization_inv in E.
  destruct E as (leaves & petals & sparkles & EL & EP & ES & ->).
  pose proof (leafChildren_leaves _ _ EL) as FL.
  pose proof (petalChildren_petals _ _ _ EP) as FP.
  pose proof (sparkleChildren_sparkles _ _ ES) as FS.
  split; [reflexivity|]. rewrite !filter_app.
  rewrite (filter_none is_soil leaves), (filter_none is_soil petals),
    (filter_none is_soil sparkles), (filter_none is_seed_shape leaves),
    (filter_none is_seed_shape petals), (filter_none is_seed_shape sparkles),
    (filter_none is_sprout_shape leaves), (filter_none is_sprout_shape petals),
    (filter_none is_sprout_shape sparkles),
    (filter_none is_flower_center leaves),
    (filter_none is_flower_center petals),
    (filter_none is_flower_center sparkles)
    by (first [kind_of FL | kind_of FP | kind_of FS]).
  unfold stemChild, flowerCenterChild, fruitChild, seedChild, sproutChild,
    when. cbv zeta.
  destruct (negb (Stage_eqb (getStage p) seed)),
           (is_flower (getStage p)), (Stage_eqb (getStage p) fruiting),
           (Stage_eqb (getStage p) seed), (Stage_eqb (getStage p) sprout);
    cbn; rewrite ?app_nil_r; repeat split.
Qed.

(** X6.  Every completed render starts with the soil, which occurs once,
    and holds exactly one of the seed shape and the stem: the seed shape in
    stage [seed] and the stem in every other stage.  The sprout shape is
    rendered in stage [sprout] only, and then with the stem and with neither
    petals nor fruit. *)
Theorem seed_or_stem (p : JS.number) (t : option string)
        (els : list element) :
  PlantVisualization p t = JS.Normal els ->
  List.hd_error els = Some soil /\
  List.filter is_soil els = [soil] /\
  (List.length (List.filter is_seed_shape els) +
   List.length (List.filter is_stem els) = 1)%nat /\
  (List.filter is_seed_shape els = [seed_shape] <-> getStage p = seed) /\
  (List.filter is_sprout_shape els = [sprout_shape] <-> getStage p = sprout) /\
  (List.filter is_sprout_shape els <> [] ->
   List.filter is_stem els <> [] /\ List.filter is_petal els = [] /\
   List.filter is_fruit els = []).
Proof.
  intros E.
  destruct (PlantVisualization_shapes p t els E) as (H0 & H1 & H2 & H3 & _).
  destruct (PlantVisualization_kinds p t els E) as (K1 & K2 & _ & K4 & _).
  rewrite petalChildren_eval in K4. injection K4 as K4.
  split; [exact H0|]. split; [exact H1|].
  rewrite H2, H3, K1, K2, K4.
  unfold seedChild, sproutChild, stemChild, fruitChild, when. cbv zeta.
  destruct (getStage p); cbn;
    (split; [reflexivity|]); (split; [split; congruence|]);
    (split; [split; congruence|]); intros; try congruence;
    repeat split; congruence.
Qed.

(** At 5 percent: the seed shape and no stem. *)
Lemma seed_or_stem_witness :
  exists els : list element,
    PlantVisualization (#5)%js None = JS.Normal els /\
    List.filter is_seed_shape els = [seed_shape] /\
    List.filter is_stem els = [].
Proof.
  exists [soil; seed_shape]. split; [reflexivity|].
  destruct (seed_or_stem (#5)%js None [soil; seed_shape] eq_refl)
    as (_ & _ & _ & (_ & H) & _).
  split; [apply H; reflexivity|reflexivity].
Defined.

(** X7.  In a completed render the flower centre is there exactly when the
    petals are.  A flower centre has the colour of the plant type and sits on
    the top of the stem: its [cy] is the [y] of the rendered stem; the eight
    petals have its colour.  A fruit is only rendered on a flower centre, at
    the same [cy]. *)
Theorem flower_sits_on_stem (p : JS.number) (t : option string)
        (els : list element) :
  PlantVisualization p t = JS.Normal els ->
  (List.filter is_flower_center els <> [] <->
   List.filter is_petal els <> []) /\
  (forall (cy : JS.number) (fill : string),
     In (flower_center cy fill) els ->
     fill = plantColor t /\
     In (stem cy (stemHeight p)) els /\
     List.filter is_petal els = eight_petals fill) /\
  (forall cy : JS.number,
     In (fruit cy) els -> In (flower_center cy (plantColor t)) els).
Proof.
  intros E.
  destruct (PlantVisualization_shapes p t els E) as (_ & _ & _ & _ & H4).
  destruct (PlantVisualization_kinds p t els E) as (K1 & K2 & _ & K4 & _).
  rewrite petalChildren_eval in K4. injection K4 as K4.
  assert (Hc : forall cy fill, In (flower_center cy fill) els <->
                 In (flower_center cy fill) (rendered (flowerCenterChild p t))).
  { intros cy fill. rewrite <- H4, filter_In. cbn. tauto. }
  assert (Hs : forall y h, In (stem y h) els <->
                 In (stem y h) (rendered (stemChild p))).
  { intros y h. rewrite <- K1, filter_In. cbn. tauto. }
  assert (Hf : forall cy, In (fruit cy) els <->
                 In (fruit cy) (rendered (fruitChild p))).
  { intros cy. rewrite <- K2, filter_In. cbn. tauto. }
  split; [|split].
  - rewrite H4, K4. unfold flowerCenterChild. cbv zeta.
    destruct (is_flower (getStage p)); cbn; split; congruence.
  - intros cy fill Hin. apply Hc in Hin. rewrite Hs, K4.
    revert Hin. unfold flowerCenterChild, stemChild, when. cbv zeta.
    destruct (getStage p); cbn; intros Hin; try contradiction;
      destruct Hin as [Hin|[]]; injection Hin as <- <-; auto.
  - intros cy Hin. apply Hf in Hin. rewrite Hc.
    revert Hin. unfold flowerCenterChild, fruitChild, when. cbv zeta.
    destruct (getStage p); cbn; intros Hin; try contradiction.
    destruct Hin as [Hin|[]]. injection Hin as <-. auto.
Qed.

(** At 100 percent the flower centre and the top of the stem are at 142. *)
Lemma flower_sits_on_stem_witness :
  exists els : list element,
    PlantVisualization (#100)%js None = JS.Normal els /\
    In (flower_center (#142)%js "#ffd700"%string) els /\
    In (stem (#142)%js (#48)%js) els.
Proof.
  eexists. split; [vm_compute; reflexivity|].
  match goal with |- In ?c ?l /\ _ =>
    assert (Hin : In c l) by (vm_compute; tauto);
    destruct (flower_sits_on_stem (#100)%js None l eq_refl) as (_ & H & _)
  end.
  split; [exact Hin|].
  exact (proj1 (proj2 (H _ _ Hin))).
Defined.

End RenderShape.

(** ** Leaves by percentage and by stage *)

Section LeafBands.

Lemma leaf_count_upper (p : JS.number) (m : positive) (e n : Z) :
  binary64 p ->
  (p <? S754_finite false (Pos.succ m) e)%js = true ->
  valid_binary 53 1024 (S754_finite false m e) = true ->
  JS.ToLength (leafCount (S754_finite false m e)) = n ->
  JS.ToLength (leafCount p) <= n.
Proof.
  unfold binary64. change JS.prec with 53. change JS.emax with 1024.
  intros V H Vq <-. apply ltb_leb_pred in H.
  apply ToLength_mono; try (apply leafCount_valid; assumption).
  apply leafCount_monotone; assumption.
Qed.

Lemma leaf_count_lower (p lo : JS.number) (n : Z) :
  binary64 p -> valid_binary 53 1024 lo = true ->
  (p >=? lo)%js = true ->
  JS.ToLength (leafCount lo) = n ->
  n <= JS.ToLength (leafCount p).
Proof.
  unfold binary64. change JS.prec with 53. change JS.emax with 1024.
  intros V Vlo H <-.
  apply ToLength_mono; try (apply leafCount_valid; assumption).
  apply leafCount_monotone; assumption.
Qed.

Lemma leaves_below (p : JS.number) (hi : Z) (m : positive) (e n : Z) :
  binary64 p ->
  (#hi)%js = S754_finite false (Pos.succ m) e ->
  valid_binary 53 1024 (S754_finite false m e) = true ->
  JS.ToLength (leafCount (S754_finite false m e)) = n ->
  (p <? #hi)%js = true ->
  JS.ToLength (leafCount p) <= n.
Proof.
  intros V E Vq L H. rewrite E in H.
  exact (leaf_count_upper p m e n V H Vq L).
Qed.

Lemma below_10 (p : JS.number) :
  binary64 p -> (p <? #10)%js = true -> JS.ToLength (leafCount p) <= 0.
Proof.
  intros V. apply (leaves_below p 10 5629499534213119 (-49) 0 V);
    reflexivity.
Qed.
Lemma below_20 (p : JS.number) :
  binary64 p -> (p <? #20)%js = true -> JS.ToLength (leafCount p) <= 0.
Proof.
  intros V. apply (leaves_below p 20 5629499534213119 (-48) 0 V);
    reflexivity.
Qed.
Lemma below_40 (p : JS.number) :
  binary64 p -> (p <? #40)%js = true -> JS.ToLength (leafCount p) <= 1.
Proof.
  intros V. apply (leaves_below p 40 5629499534213119 (-47) 1 V);
    reflexivity.
Qed.
Lemma below_60 (p : JS.number) :
  binary64 p -> (p <? #60)%js = true -> JS.ToLength (leafCount p) <= 2.
Proof.
  intros V. apply (leaves_below p 60 8444249301319679 (-47) 2 V);
    reflexivity.
Qed.
Lemma below_80 (p : JS.number) :
  binary64 p -> (p <? #80)%js = true -> JS.ToLength (leafCount p) <= 3.
Proof.
  intros V. apply (leaves_below p 80 5629499534213119 (-46) 3 V);
    reflexivity.
Qed.
Lemma below_100 (p : JS.number) :
  binary64 p -> (p <? #100)%js = true -> JS.ToLength (leafCount p) <= 4.
Proof.
  intros V. apply (leaves_below p 100 7036874417766399 (-46) 4 V);
    reflexivity.
Qed.
Lemma below_120 (p : JS.number) :
  binary64 p -> (p <? #120)%js = true -> JS.ToLength (leafCount p) <= 5.
Proof.
  intros V. apply (leaves_below p 120 8444249301319679 (-46) 5 V);
    reflexivity.
Qed.

Lemma leafChildren_length (p : JS.number) (leaves : list element) :
  leafChildren p = JS.Normal leaves ->
  Z.of_nat (List.length leaves) = JS.ToLength (leafCount p).
Proof. apply (Array_from_length (leafCount p) (fun i => leaf i)). Qed.

Lemma leafChildren_small (p : JS.number) :
  JS.ToLength (leafCount p) <= 5 ->
  leafChildren p =
  JS.Normal (List.map (fun k => leaf (#k)%js)
                      (JS.indices (JS.ToLength (leafCount p)))).
Proof.
  intros H. apply leafChildren_cases. change (2 ^ 32 - 1) with 4294967295.
  lia.
Qed.

(** X8.  One leaf per started band of twenty percent, for every binary64
    percentage and not only for whole ones: below 20 percent (negative
    percentages included) there is no leaf, from 20 to below 40 one leaf, and
    so on up to five leaves from 100 to below 120; the leaves are numbered
    from 0 in order.  The rounding of the division never moves a percentage
    across a band's border. *)
Theorem leaves_in_bands_of_20 (p : JS.number) :
  binary64 p ->
  ((p <? #20)%js = true -> leafChildren p = JS.Normal []) /\
  ((p >=? #20)%js = true -> (p <? #40)%js = true ->
   leafChildren p = JS.Normal [leaf (#0)%js]) /\
  ((p >=? #40)%js = true -> (p <? #60)%js = true ->
   leafChildren p = JS.Normal [leaf (#0)%js; leaf (#1)%js]) /\
  ((p >=? #60)%js = true -> (p <? #80)%js = true ->
   leafChildren p = JS.Normal [leaf (#0)%js; leaf (#1)%js; leaf (#2)%js]) /\
  ((p >=? #80)%js = true -> (p <? #100)%js = true ->
   leafChildren p =
   JS.Normal [leaf (#0)%js; leaf (#1)%js; leaf (#2)%js; leaf (#3)%js]) /\
  ((p >=? #100)%js = true -> (p <? #120)%js = true ->
   leafChildren p =
   JS.Normal [leaf (#0)%js; leaf (#1)%js; leaf (#2)%js; leaf (#3)%js;
              leaf (#4)%js]).
Proof.
  intros V.
  pose proof (ToLength_range (leafCount p)) as R.
  assert (K : forall n, JS.ToLength (leafCount p) = n -> n <= 5 ->
                leafChildren p =
                JS.Normal (List.map (fun k => leaf (#k)%js) (JS.indices n))).
  { intros n <- Hn. apply leafChildren_small. assumption. }
  split; [|split; [|split; [|split; [|split]]]].
  - intros H. pose proof (below_20 p V H). apply (K 0); lia.
  - intros L H. pose proof (below_40 p V H).
    pose proof (leaf_count_lower p (#20)%js 1 V eq_refl L eq_refl).
    apply (K 1); lia.
  - intros L H. pose proof (below_60 p V H).
    pose proof (leaf_count_lower p (#40)%js 2 V eq_refl L eq_refl).
    apply (K 2); lia.
  - intros L H. pose proof (below_80 p V H).
    pose proof (leaf_count_lower p (#60)%js 3 V eq_refl L eq_refl).
    apply (K 3); lia.
  - intros L H. pose proof (below_100 p V H).
    pose proof (leaf_count_lower p (#80)%js 4 V eq_refl L eq_refl).
    apply (K 4); lia.
  - intros L H. pose proof (below_120 p V H).
    pose proof (leaf_count_lower p (#100)%js 5 V eq_refl L eq_refl).
    apply (K 5); lia.
Qed.

(** At 39.9 percent there is one leaf. *)
Lemma leaves_in_bands_of_20_witness :
  leafChildren (JS.decimal 399 1) = JS.Normal [leaf (#0)%js].
Proof.
  destruct (leaves_in_bands_of_20 (JS.decimal 399 1) eq_refl) as (_ & H & _).
  apply H; reflexivity.
Defined.





Lemma of_Z_inj (z1 z2 : Z) :
  Z.abs z1 < 2 ^ 53 -> Z.abs z2 < 2 ^ 53 -> (#z1)%js = (#z2)%js -> z1 = z2.
Proof.
  intros H1 H2 E.
  destruct (binary_normalize_exact z1 H1) as (_ & _ & S1).
  destruct (binary_normalize_exact z2 H2) as (_ & _ & S2).
  cbv zeta in S1, S2.
  change (binary_normalize 53 1024 z1 0 false) with (#z1)%js in S1.
  change (binary_normalize 53 1024 z2 0 false) with (#z2)%js in S2.
  rewrite E, S2 in S1.
  assert (0 < 2 ^ 1074) by (apply Z.pow_pos_nonneg; lia).
  generalize dependent (2 ^ 1074). intros. nia.
Qed.

Lemma indices_spec (len k : Z) : In k (JS.indices len) <-> 0 <= k < len.
Proof.
  unfold JS.indices. rewrite in_map_iff. split.
  - intros (n & <- & Hn). apply in_seq in Hn. lia.
  - intros H. exists (Z.to_nat k). rewrite in_seq. split; lia.
Qed.

Lemma NoDup_map_on {A B : Type} (f : A -> B) (l : list A) :
  (forall x y, In x l -> In y l -> f x = f y -> x = y) ->
  NoDup l -> NoDup (List.map f l).
Proof.
  intros Hinj H. induction H as [|x l Hx Hl IH]; [constructor|].
  cbn [List.map]. constructor.
  - intros Hin. apply in_map_iff in Hin. destruct Hin as (y & E & Hy).
    apply Hx. rewrite (Hinj x y); [exact Hy|left; reflexivity|right; exact Hy|].
    symmetry. exact E.
  - apply IH. intros a b Ha Hb. apply Hinj; right; assumption.
Qed.

Lemma indices_NoDup (len : Z) : NoDup (JS.indices len).
Proof.
  unfold JS.indices. apply NoDup_map_on; [|apply seq_NoDup].
  intros a b _ _. apply Nat2Z.inj.
Qed.

(** X10.  The leaves of a render are [leaf 0], [leaf 1], ... in this order,
    one for each index below their number; the index is also the React
    [key], and no two leaves have the same one. *)
Theorem leaf_keys_distinct (p : JS.number) (leaves : list element) :
  leafChildren p = JS.Normal leaves ->
  leaves = List.map (fun k => leaf (#k)%js)
             (JS.indices (Z.of_nat (List.length leaves))) /\
  NoDup leaves /\
  (forall i : JS.number,
     In (leaf i) leaves <->
     exists k : Z, 0 <= k < Z.of_nat (List.length leaves) /\ i = (#k)%js).
Proof.
  intros E. pose proof (leafChildren_length p leaves E) as L.
  apply Array_from_inv in E. destruct E as [Hle E]. rewrite <- L in E, Hle.
  split; [exact E|]. split.
  - rewrite E. apply NoDup_map_on; [|apply indices_NoDup].
    intros x y Hx Hy Q. apply indices_spec in Hx. apply indices_spec in Hy.
    injection Q as Q. change (2 ^ 32 - 1) with 4294967295 in Hle.
    apply of_Z_inj; try assumption;
      change (2 ^ 53) with 9007199254740992; lia.
  - intros i. rewrite E at 1. rewrite in_map_iff. split.
    + intros (k & Q & Hk). injection Q as <-. apply indices_spec in Hk.
      exists k. auto.
    + intros (k & Hk & ->). exists k. split; [reflexivity|].
      apply indices_spec. exact Hk.
Qed.

(** The three leaves at 60 percent. *)
Lemma leaf_keys_distinct_witness :
  NoDup [leaf (#0)%js; leaf (#1)%js; leaf (#2)%js].
Proof.
  apply (leaf_keys_distinct (#60)%js). reflexivity.
Defined.

(** X11.  Below 10 percent, negative percentages and [-Infinity] included,
    the picture is the soil and the seed shape and nothing else, whatever the
    plant type. *)
Theorem seed_stage_render (p : JS.number) (t : option string) :
  binary64 p -> (p <? #10)%js = true ->
  PlantVisualization p t = JS.Normal [soil; seed_shape].
Proof.
  intros V H.
  assert (L : leafChildren p = JS.Normal []).
  { pose proof (below_10 p V H). pose proof (ToLength_range (leafCount p)).
    assert (E : JS.ToLength (leafCount p) = 0) by lia.
    rewrite leafChildren_small by lia. rewrite E. reflexivity. }
  assert (G : (p >=? #25)%js = false).
  { destruct (p >=? #25)%js eqn:G; [|reflexivity].
    rewrite (geb_ltb_false p (#25)%js (#10)%js G eq_refl) in H. discriminate. }
  unfold PlantVisualization. cbv zeta.
  rewrite L, petalChildren_eval, sparkleChildren_eval, G.
  unfold stemChild, flowerCenterChild, fruitChild, seedChild, sproutChild,
    getStage. rewrite H. reflexivity.
Qed.

(** At 9.9 percent, for a rose. *)
Lemma seed_stage_render_witness :
  PlantVisualization (JS.decimal 99 1) (Some "rose"%string)
  = JS.Normal [soil; seed_shape].
Proof. apply seed_stage_render; reflexivity. Defined.

End LeafBands.

(** ** The canary metrics checker *)

Section CanaryChecks.
Import Canary.

Lemma leb_nan_l (a b : JS.number) :
  JS.is_nan a = true -> (a <=? b)%js = false.
Proof. destruct a; try discriminate. destruct b; reflexivity. Qed.

Lemma geb_nan_l (a b : JS.number) :
  JS.is_nan a = true -> (a >=? b)%js = false.
Proof. destruct a; try discriminate. destruct b; reflexivity. Qed.

Lemma evaluateMetrics_passed (m : Metrics) :
  passed (evaluateMetrics m) =
  (errorRate m <=? #5)%js && (responseTime m <=? #2000)%js
  && (throughput m >=? #10)%js && (availability m >=? JS.decimal 995 1)%js.
Proof.
  unfold evaluateMetrics, push_check. cbv zeta.
  cbn [passed check_passed maxErrorRate maxResponseTime minThroughput
       minAvailability thresholds].
  destruct (errorRate m <=? #5)%js, (responseTime m <=? #2000)%js,
           (throughput m >=? #10)%js,
           (availability m >=? JS.decimal 995 1)%js; reflexivity.
Qed.

(** X12.  [evaluateMetrics] always yields the four checks, in the order
    error rate, response time, throughput, availability, each with the
    metric's value; the overall [passed] is the conjunction of the four
    checks' [passed], that is: error rate at most 5, response time at most
    2000, throughput at least 10 and availability at least 99.5.  A metric
    that is [NaN] fails its check, and with it the whole evaluation. *)
Theorem canary_verdict (m : Metrics) :
  List.map metric (checks (evaluateMetrics m)) =
    ["Error Rate"; "Response Time"; "Throughput"; "Availability"]%string /\
  List.map value (checks (evaluateMetrics m)) =
    [errorRate m; responseTime m; throughput m; availability m] /\
  passed (evaluateMetrics m) =
    List.forallb check_passed (checks (evaluateMetrics m)) /\
  (passed (evaluateMetrics m) = true <->
   (errorRate m <=? #5)%js = true /\ (responseTime m <=? #2000)%js = true /\
   (throughput m >=? #10)%js = true /\
   (availability m >=? JS.decimal 995 1)%js = true) /\
  (JS.is_nan (errorRate m) || JS.is_nan (responseTime m)
   || JS.is_nan (throughput m) || JS.is_nan (availability m) = true ->
   passed (evaluateMetrics m) = false).
Proof.
  split; [reflexivity|]. split; [reflexivity|].
  rewrite evaluateMetrics_passed. split; [|split].
  - unfold evaluateMetrics, push_check. cbv zeta.
    cbn [checks check_passed List.app List.forallb maxErrorRate
         maxResponseTime minThroughput minAvailability thresholds].
    rewrite andb_true_r, !andb_assoc. reflexivity.
  - rewrite !andb_true_iff. tauto.
  - intros H. repeat (apply orb_prop in H; destruct H as [H|H]).
    + rewrite (leb_nan_l _ _ H). reflexivity.
    + rewrite (leb_nan_l _ _ H), andb_false_r. reflexivity.
    + rewrite (geb_nan_l _ _ H), andb_false_r. reflexivity.
    + rewrite (geb_nan_l _ _ H), andb_false_r. reflexivity.
Qed.

(** An error rate that is [NaN] fails the evaluation. *)
Lemma canary_verdict_witness :
  passed (evaluateMetrics (mkMetrics JS.NaN (#600)%js (#20)%js (#100)%js))
  = false.
Proof.
  apply (canary_verdict (mkMetrics JS.NaN (#600)%js (#20)%js (#100)%js)).
  reflexivity.
Defined.

(** X13.  The comparison sign that [logResults] prints next to a check is
    the comparison that [evaluateMetrics] made: [>=] for throughput and
    availability, [<=] for error rate and response time. *)
Theorem canary_printed_comparison (m : Metrics) (c : Check) :
  In c (checks (evaluateMetrics m)) ->
  check_passed c =
  if (comparison c =? ">=")%string then (value c >=? threshold c)%js
  else (value c <=? threshold c)%js.
Proof.
  unfold evaluateMetrics, push_check. cbv zeta.
  cbn [checks List.app]. intros [<-|[<-|[<-|[<-|[]]]]]; reflexivity.
Qed.

(** The throughput check of a run with 20 requests per second. *)
Lemma canary_printed_comparison_witness :
  (#20 >=? #10)%js = true.
Proof.
  pose proof (canary_printed_comparison
                (mkMetrics (#1)%js (#600)%js (#20)%js (#100)%js)
                (mkCheck "Throughput" (#20)%js (#10)%js true "rps")
                ltac:(cbn; tauto)) as H.
  symmetry. exact H.
Defined.

End CanaryChecks.

Section CanaryMock.
Import Canary.

Lemma mul_sign_bit (x y : JS.number) :
  is_real x = true -> is_real y = true ->
  sign_bit (x * y)%js = xorb (sign_bit x) (sign_bit y).
Proof.
  destruct x as [sx|sx| |sx mx ex]; try discriminate;
    destruct y as [sy|sy| |sy my ey]; try discriminate; intros _ _;
    try reflexivity.
  unfold JS.mul, SFmul. cbn [sign_bit].
  apply (binary_round_aux_sign _ _ _ _ _ _ (Zpos (mx * my)) 1);
    [apply Pos2Z.is_nonneg|lia|apply located_exact].
Qed.

Lemma scaled_lt_top (x : JS.number) :
  valid_binary 53 1024 x = true -> scaled x < 2 ^ 2098.
Proof.
  assert (0 < 2 ^ 2098) by (apply Z.pow_pos_nonneg; lia).
  destruct x as [s|s| |s m e]; intros V; try assumption.
  cbn [valid_binary] in V. pose proof (scaled_bound m e V).
  pose proof (scaled_finite_pos m e V).
  cbn [scaled]. destruct s; cbn [cond_Zopp]; lia.
Qed.

Lemma RndQ_of_Z (k : Z) :
  0 <= k < 2 ^ 53 -> RndQ (k * 2 ^ 1074) 1 = k * 2 ^ 1074.
Proof.
  intros Hk. destruct (binary_normalize_exact k ltac:(lia)) as (R & V & S).
  cbv zeta in R, V, S. pose proof (RndS_scaled _ V) as E. rewrite S in E.
  unfold RndS in E.
  assert (0 < 2 ^ 1074) by (apply Z.pow_pos_nonneg; lia).
  destruct (Z.ltb_spec (k * 2 ^ 1074) 0); [nia|exact E].
Qed.

Lemma of_Z_top (k : Z) : 0 <= k < 2 ^ 53 -> k * 2 ^ 1074 < 2 ^ 2098.
Proof.
  intros Hk. destruct (binary_normalize_exact k ltac:(lia)) as (R & V & S).
  cbv zeta in R, V, S. rewrite <- S. apply scaled_lt_top. exact V.
Qed.

Lemma random_draw_scaled (r : JS.number) :
  random_draw r ->
  valid_binary 53 1024 r = true /\ is_real r = true /\
  0 <= scaled r < 2 ^ 1074.
Proof.
  intros (V & S & L). unfold binary64 in V.
  change JS.prec with 53 in V. change JS.emax with 1024 in V.
  assert (R : is_real r = true)
    by (destruct r as [?|[|]| |? ? ?]; try reflexivity; discriminate).
  split; [exact V|]. split; [exact R|].
  destruct (binary_normalize_exact 1 ltac:(lia)) as (R1 & V1 & S1).
  cbv zeta in R1, V1, S1.
  apply (ltb_scaled r _ V V1 R R1) in L.
  change (scaled (#1)%js) with (scaled (binary_normalize 53 1024 1 0 false)) in L.
  rewrite S1, Z.mul_1_l in L. split; [|exact L].
  destruct r as [s|s| |s m e]; try discriminate R; cbn [scaled]; try lia.
  cbn [sign_bit] in S. subst s. cbn [cond_Zopp valid_binary] in *.
  pose proof (scaled_finite_pos m e V). lia.
Qed.

(** [random * k] lies between 0 and [k]. *)
Lemma random_times (r : JS.number) (k : Z) :
  random_draw r -> 0 < k < 2 ^ 53 ->
  is_real (r * #k)%js = true /\ valid_binary 53 1024 (r * #k)%js = true /\
  sign_bit (r * #k)%js = false /\ 0 <= scaled (r * #k)%js <= k * 2 ^ 1074.
Proof.
  intros D Hk. pose proof D as (_ & Sr & _).
  destruct (random_draw_scaled r D) as (V & R & B).
  destruct (binary_normalize_exact k ltac:(lia)) as (Rk & Vk & Sk).
  cbv zeta in Rk, Vk, Sk.
  change (binary_normalize 53 1024 k 0 false) with (#k)%js in Rk, Vk, Sk.
  pose proof (of_Z_sign_bit k ltac:(lia)) as Gk.
  assert (HU : 0 < 2 ^ 1074) by (apply Z.pow_pos_nonneg; lia).
  assert (Hle : RndQ (scaled r * scaled (#k)%js) (2 ^ 1074) <= k * 2 ^ 1074).
  { rewrite Sk. rewrite <- (RndQ_of_Z k) at 2 by lia.
    rewrite <- (RndQ_scale (k * 2 ^ 1074) 1 (2 ^ 1074)) by lia.
    rewrite Z.mul_1_l. apply RndQ_mono; [assumption|].
    generalize dependent (2 ^ 1074). intros. nia. }
  pose proof (of_Z_top k ltac:(lia)) as Top.
  destruct (mul_nonneg_scaled r (#k)%js V Vk R Rk Sr Gk ltac:(lia))
    as (R1 & V1 & S1).
  split; [exact R1|]. split; [exact V1|]. split.
  - rewrite mul_sign_bit by assumption. rewrite Sr, Gk. reflexivity.
  - rewrite S1. split; [|exact Hle].
    apply RndQ_nonneg; [assumption|]. rewrite Sk.
    generalize dependent (2 ^ 1074). intros. nia.
Qed.

(** [a + y] lies between [a] and [a + k] when [y] lies between 0 and [k]. *)
Lemma const_plus (a k : Z) (y : JS.number) :
  0 < a -> 0 < k -> a + k < 2 ^ 53 ->
  is_real y = true -> valid_binary 53 1024 y = true ->
  sign_bit y = false -> 0 <= scaled y <= k * 2 ^ 1074 ->
  is_real (#a + y)%js = true /\ valid_binary 53 1024 (#a + y)%js = true /\
  a * 2 ^ 1074 <= scaled (#a + y)%js <= (a + k) * 2 ^ 1074.
Proof.
  intros Ha Hk Hak Ry Vy Sy By.
  destruct (binary_normalize_exact a ltac:(lia)) as (Ra & Va & Sa).
  cbv zeta in Ra, Va, Sa.
  change (binary_normalize 53 1024 a 0 false) with (#a)%js in Ra, Va, Sa.
  pose proof (of_Z_sign_bit a ltac:(lia)) as Ga.
  assert (HU : 0 < 2 ^ 1074) by (apply Z.pow_pos_nonneg; lia).
  pose proof (RndQ_of_Z (a + k) ltac:(lia)) as Eak.
  pose proof (RndQ_of_Z a ltac:(lia)) as Ea.
  pose proof (of_Z_top (a + k) ltac:(lia)) as Top.
  assert (Hle : RndQ (scaled (#a)%js + scaled y) 1 <= (a + k) * 2 ^ 1074).
  { rewrite <- Eak, Sa. apply RndQ_mono; [lia|].
    generalize dependent (2 ^ 1074). intros. nia. }
  assert (Hge : a * 2 ^ 1074 <= RndQ (scaled (#a)%js + scaled y) 1).
  { rewrite <- Ea at 1. rewrite Sa. apply RndQ_mono; [lia|].
    generalize dependent (2 ^ 1074). intros. nia. }
  destruct (add_nonneg_scaled (#a)%js y Va Vy Ra Ry Ga Sy ltac:(lia))
    as (R1 & V1 & S1).
  split; [exact R1|]. split; [exact V1|]. rewrite S1. unfold RndS.
  destruct (Z.ltb_spec (scaled (#a)%js + scaled y) 0) as [Q|Q].
  - rewrite Sa in Q. generalize dependent (2 ^ 1074). intros. nia.
  - lia.
Qed.

(** X14.  On the mock metrics of [collectMetrics] the response time,
    [500 + random * 1000], is never above 2000 and the throughput,
    [15 + random * 10], never below 10: these two checks always pass.  So
    [checkMetrics] leaves with code 1 exactly when the error rate
    [random * 10] is above 5 or the availability [99 + random * 1] is below
    99.5, and otherwise returns the evaluation, which passed. *)
Theorem canary_mock_verdict (r1 r2 r3 r4 : JS.number) :
  random_draw r1 -> random_draw r2 -> random_draw r3 -> random_draw r4 ->
  (responseTime (collectMetrics r1 r2 r3 r4) <=? #2000)%js = true /\
  (throughput (collectMetrics r1 r2 r3 r4) >=? #10)%js = true /\
  (checkMetrics r1 r2 r3 r4 = Exited 1 <->
   (r1 * #10 <=? #5)%js = false \/
   (#99 + r4 * #1 >=? JS.decimal 995 1)%js = false) /\
  (checkMetrics r1 r2 r3 r4 <> Exited 1 ->
   checkMetrics r1 r2 r3 r4 =
   Returned (evaluateMetrics (collectMetrics r1 r2 r3 r4)) /\
   passed (evaluateMetrics (collectMetrics r1 r2 r3 r4)) = true).
Proof.
  intros D1 D2 D3 D4.
  assert (HU : 0 < 2 ^ 1074) by (apply Z.pow_pos_nonneg; lia).
  assert (T : (#500 + r2 * #1000 <=? #2000)%js = true).
  { destruct (random_times r2 1000 D2 ltac:(lia)) as (R & V & S & B).
    destruct (const_plus 500 1000 _ ltac:(lia) ltac:(lia) ltac:(lia)
                R V S B) as (R' & V' & B').
    destruct (binary_normalize_exact 2000 ltac:(lia)) as (Rk & Vk & Sk).
    cbv zeta in Rk, Vk, Sk.
    apply (leb_scaled _ _ V' Vk R' Rk).
    change (scaled (#2000)%js)
      with (scaled (binary_normalize 53 1024 2000 0 false)).
    rewrite Sk. generalize dependent (2 ^ 1074). intros. nia. }
  assert (P : (#15 + r3 * #10 >=? #10)%js = true).
  { destruct (random_times r3 10 D3 ltac:(lia)) as (R & V & S & B).
    destruct (const_plus 15 10 _ ltac:(lia) ltac:(lia) ltac:(lia)
                R V S B) as (R' & V' & B').
    destruct (binary_normalize_exact 10 ltac:(lia)) as (Rk & Vk & Sk).
    cbv zeta in Rk, Vk, Sk.
    change (#15 + r3 * #10 >=? #10)%js with (#10 <=? #15 + r3 * #10)%js.
    apply (leb_scaled _ _ Vk V' Rk R').
    rewrite Sk. generalize dependent (2 ^ 1074). intros. nia. }
  split; [exact T|]. split; [exact P|].
  assert (E : passed (evaluateMetrics (collectMetrics r1 r2 r3 r4)) =
              (r1 * #10 <=? #5)%js
              && (#99 + r4 * #1 >=? JS.decimal 995 1)%js).
  { rewrite evaluateMetrics_passed.
    cbn [collectMetrics errorRate responseTime throughput availability].
    rewrite T, P, !andb_true_r. reflexivity. }
  unfold checkMetrics. cbv zeta. rewrite E.
  destruct (r1 * #10 <=? #5)%js, (#99 + r4 * #1 >=? JS.decimal 995 1)%js;
    cbn [andb negb].
  - split; [split; [discriminate|intros [Q|Q]; discriminate]|].
    intros _. split; reflexivity.
  - split; [split; [auto|reflexivity]|].
    intros Q. exfalso. apply Q. reflexivity.
  - split; [split; [auto|reflexivity]|].
    intros Q. exfalso. apply Q. reflexivity.
  - split; [split; [auto|reflexivity]|].
    intros Q. exfalso. apply Q. reflexivity.
Qed.

(** A draw of 0.75 for the error rate: 7.5 percent, above the threshold. *)
Lemma canary_mock_verdict_witness :
  checkMetrics (JS.decimal 75 2) (JS.decimal 5 1) (JS.decimal 5 1)
               (JS.decimal 9 1) = Exited 1.
Proof.
  apply (canary_mock_verdict (JS.decimal 75 2) (JS.decimal 5 1)
           (JS.decimal 5 1) (JS.decimal 9 1));
    try (repeat split; reflexivity).
  left. reflexivity.
Defined.

End CanaryMock.

(** ** The data retention checker *)

Section RetentionChecks.
Import Retention.
Context {Profile : Type}.

Lemma checkDataRetention_resolved (a b c : Z) (l : list Profile) :
  checkDataRetention (Resolved a) (Resolved b) (Resolved c) (Resolved l) =
  match List.filter (fun issue => 0 <? count issue)
          (candidate_issues a b c (Z.of_nat (List.length l))) with
  | [] => Finished [] [] 0
  | issues =>
      Finished issues (List.flat_map recommended_action issues)
        (if List.existsb (fun issue => (severity issue =? "high")%string)
              issues
         then 1 else 0)
  end.
Proof.
  unfold checkDataRetention, awaited, candidate_issues. cbv zeta.
  cbn [List.filter count].
  destruct (0 <? a), (0 <? b), (0 <? c), (0 <? Z.of_nat (List.length l));
    reflexivity.
Qed.

Lemma NoDup_map_filter {A B : Type} (g : A -> B) (f : A -> bool)
      (l : list A) :
  NoDup (List.map g l) -> NoDup (List.map g (List.filter f l)).
Proof.
  induction l as [|x l IH]; cbn [List.map List.filter]; intros H;
    [constructor|].
  inversion_clear H as [|? ? Hx Hl]. destruct (f x); [|auto].
  cbn [List.map]. constructor; [|auto].
  intros Hin. apply Hx. apply in_map_iff in Hin.
  destruct Hin as (y & E & Hy). apply filter_In in Hy.
  apply in_map_iff. exists y. tauto.
Qed.

Lemma flat_map_singletons {A B : Type} (f : A -> list B) (l : list A) :
  Forall (fun x => List.length (f x) = 1%nat) l ->
  List.length (List.flat_map f l) = List.length l.
Proof.
  induction 1 as [|x l Hx _ IH]; [reflexivity|].
  cbn [List.flat_map List.length]. rewrite length_app, Hx, IH. reflexivity.
Qed.

Lemma candidate_issues_facts (a b c n : Z) :
  NoDup (List.map type (candidate_issues a b c n)) /\
  Forall (fun issue => List.length (recommended_action issue) = 1%nat)
         (candidate_issues a b c n).
Proof.
  split.
  - cbn. repeat constructor; cbn; intuition discriminate.
  - repeat constructor.
Qed.

Lemma Forall_filter {A : Type} (P : A -> Prop) (f : A -> bool) (l : list A) :
  Forall P l -> Forall P (List.filter f l).
Proof.
  intros H. apply Forall_forall. intros x Hx. apply filter_In in Hx.
  rewrite Forall_forall in H. apply H. tauto.
Qed.

Lemma has_high_severity (a b c n : Z) :
  List.existsb (fun issue => (severity issue =? "high")%string)
    (List.filter (fun issue => 0 <? count issue) (candidate_issues a b c n))
  = (0 <? b) || (0 <? n).
Proof.
  unfold candidate_issues. cbn [List.filter count].
  destruct (0 <? a), (0 <? b), (0 <? c), (0 <? n); reflexivity.
Qed.

Lemma resolved_exit_code (a b c : Z) (l : list Profile) :
  exit_code (checkDataRetention (Resolved a) (Resolved b) (Resolved c)
               (Resolved l)) =
  if (0 <? b) || (0 <? Z.of_nat (List.length l)) then 1 else 0.
Proof.
  rewrite checkDataRetention_resolved.
  rewrite <- has_high_severity with (a := a) (c := c).
  destruct (List.filter _ _); reflexivity.
Qed.

(** X15.  [checkDataRetention] leaves with code 1 exactly when a query is
    rejected, or deleted user records are past their grace period, or child
    profiles belong to adults: the two issues of high severity.  Otherwise it
    leaves with code 0; expired sessions and old completed goals are reported
    but never fail the run by themselves. *)
Theorem retention_exit_code
    (session_count deletedUser_count savingGoal_count : query Z)
    (childProfile_findMany : query (list Profile)) :
  (exit_code (checkDataRetention session_count deletedUser_count
                savingGoal_count childProfile_findMany) = 1 <->
   session_count = Rejected \/ deletedUser_count = Rejected \/
   savingGoal_count = Rejected \/ childProfile_findMany = Rejected \/
   (exists n : Z, deletedUser_count = Resolved n /\ 0 < n) \/
   (exists l : list Profile,
      childProfile_findMany = Resolved l /\ l <> [])) /\
  (exit_code (checkDataRetention session_count deletedUser_count
                savingGoal_count childProfile_findMany) <> 1 ->
   exit_code (checkDataRetention session_count deletedUser_count
                savingGoal_count childProfile_findMany) = 0).
Proof.
  destruct session_count as [a|]; [|split; [cbn; tauto|cbn; congruence]].
  destruct deletedUser_count as [b|]; [|split; [cbn; tauto|cbn; congruence]].
  destruct savingGoal_count as [c|]; [|split; [cbn; tauto|cbn; congruence]].
  destruct childProfile_findMany as [l|];
    [|split; [cbn; tauto|cbn; congruence]].
  rewrite resolved_exit_code.
  assert (Hhi : (0 <? b) || (0 <? Z.of_nat (List.length l)) = true <->
                0 < b \/ l <> []).
  { assert (Hl : 0 < Z.of_nat (List.length l) <-> l <> []).
    { destruct l; cbn [List.length]; split; intros H;
        [lia|congruence|discriminate|lia]. }
    rewrite orb_true_iff, !Z.ltb_lt, Hl. tauto. }
  destruct ((0 <? b) || (0 <? Z.of_nat (List.length l))).
  - split; [|congruence]. split; [intros _|reflexivity].
    destruct (proj1 Hhi eq_refl) as [H|H].
    + right; right; right; right; left. exists b. auto.
    + right; right; right; right; right. exists l. auto.
  - split; [|reflexivity]. split; [discriminate|].
    intros [H|[H|[H|[H|[(n & E & H)|(l' & E & H)]]]]]; try discriminate;
      injection E as <-; exfalso;
      assert (false = true) by (apply Hhi; auto); discriminate.
Qed.

(** X16.  When the four queries resolve and issues are reported, the issues
    are the candidates with a positive count, in the order sessions, deleted
    users, goals, child profiles: no issue has a count of zero, no type is
    reported twice, one action is recommended for each issue, and the code is
    1 exactly when an issue of high severity is among them, else 0. *)
Theorem retention_report (oldSessions deletedUsers completedGoals : Z)
        (childProfiles : list Profile) (issues : list Issue)
        (actions : list string) (code : Z) :
  checkDataRetention (Resolved oldSessions) (Resolved deletedUsers)
    (Resolved completedGoals) (Resolved childProfiles)
  = Finished issues actions code ->
  issues =
    List.filter (fun issue => 0 <? count issue)
      (candidate_issues oldSessions deletedUsers completedGoals
         (Z.of_nat (List.length childProfiles))) /\
  Forall (fun issue => 0 < count issue) issues /\
  NoDup (List.map type issues) /\
  List.length actions = List.length issues /\
  (code = 1 <->
   exists issue, In issue issues /\ severity issue = "high"%string) /\
  (code = 0 \/ code = 1).
Proof.
  rewrite checkDataRetention_resolved.
  set (cands := candidate_issues _ _ _ _).
  destruct (candidate_issues_facts oldSessions deletedUsers completedGoals
              (Z.of_nat (List.length childProfiles))) as [ND SG].
  fold cands in ND, SG.
  assert (P : Forall (fun issue => 0 < count issue)
                (List.filter (fun issue => 0 <? count issue) cands)).
  { apply Forall_forall. intros x Hx. apply filter_In in Hx.
    apply Z.ltb_lt. tauto. }
  assert (D := NoDup_map_filter type (fun issue => 0 <? count issue) cands ND).
  assert (S := flat_map_singletons recommended_action _
                 (Forall_filter _ (fun issue => 0 <? count issue) _ SG)).
  assert (X : forall l : list Issue,
            List.existsb (fun issue => (severity issue =? "high")%string) l
            = true <->
            exists issue, In issue l /\ severity issue = "high"%string).
  { intros l. rewrite existsb_exists. split; intros (x & H1 & H2);
      exists x; (split; [exact H1|]); apply String.eqb_eq; exact H2. }
  destruct (List.filter _ cands) as [|i rest] eqn:E.
  - intros Q. injection Q as <- <- <-. repeat split; auto.
    + discriminate.
    + intros (x & [] & _).
  - intros Q. injection Q as <- <- <-.
    split; [reflexivity|]. split; [exact P|]. split; [exact D|].
    split; [exact S|]. rewrite <- X.
    cbn [List.existsb].
    destruct ((severity i =? "high")%string || List.existsb _ rest);
      (split; [split; congruence|auto]).
Qed.

End RetentionChecks.

Section RetentionExamples.
Import Retention.

(** Twelve expired sessions and three old goals: reported, with code 0. *)
Lemma retention_exit_code_witness :
  exit_code (checkDataRetention (Profile := Datatypes.unit) (Resolved 12)
               (Resolved 0) (Resolved 3) (Resolved [])) = 0.
Proof.
  apply retention_exit_code. discriminate.
Defined.

(** The same run: two issues and two actions. *)
Lemma retention_report_witness :
  exists issues actions,
    checkDataRetention (Profile := Datatypes.unit) (Resolved 12) (Resolved 0)
      (Resolved 3) (Resolved []) = Finished issues actions 0 /\
    List.map type issues = ["user_sessions"; "plant_data"]%string /\
    List.length actions = 2%nat.
Proof.
  eexists. eexists. split; [reflexivity|].
  match goal with |- List.map type ?i = _ /\ List.length ?a = _ =>
    destruct (retention_report (Profile := Datatypes.unit) 12 0 3 [] i a 0
                eq_refl) as (_ & _ & _ & L & _)
  end.
  split; [reflexivity|exact L].
Defined.

End RetentionExamples.

(** ** The health checker *)

Section HealthChecks.
Import Health.

Lemma filter_negb_all {A : Type} (f : A -> bool) (l : list A) :
  Forall (fun x => f x = true) l ->
  List.filter (fun x => negb (f x)) l = [].
Proof.
  induction 1 as [|x l Hx _ IH]; [reflexivity|].
  cbn [List.filter]. rewrite Hx. exact IH.
Qed.

Lemma run_check_counted (results : Results) (hc : string * check_run) :
  counted results ->
  counted (run_check results hc) /\
  List.map name (checks (run_check results hc)) =
    List.map name (checks results) ++ [fst hc] /\
  failed (run_check results hc) =
    failed results + (if succeeded (snd hc) then 0 else 1).
Proof.
  intros (T & P & F). unfold counted, run_check.
  destruct hc as [n [[[|]]|]]; cbn [fst snd success succeeded passed failed
                                     total checks];
    rewrite ?map_app, ?filter_app, ?length_app; cbn; rewrite ?T, ?P, ?F;
    repeat split; lia.
Qed.

Lemma fold_run_check (hcs : list (string * check_run)) (results : Results) :
  counted results ->
  counted (List.fold_left run_check hcs results) /\
  List.map name (checks (List.fold_left run_check hcs results)) =
    List.map name (checks results) ++ List.map fst hcs /\
  failed (List.fold_left run_check hcs results) =
    failed results +
    Z.of_nat (List.length
                (List.filter (fun hc => negb (succeeded (snd hc))) hcs)).
Proof.
  revert results. induction hcs as [|hc hcs IH]; intros results C.
  - cbn. rewrite app_nil_r. repeat split; try apply C. lia.
  - cbn [List.fold_left List.map List.filter].
    destruct (run_check_counted results hc C) as (C1 & N1 & F1).
    destruct (IH _ C1) as (C2 & N2 & F2).
    split; [exact C2|]. split.
    + rewrite N2, N1, <- app_assoc. reflexivity.
    + rewrite F2, F1. destruct (succeeded (snd hc)); cbn [negb List.length];
        lia.
Qed.

Lemma run_checks_counted (hcs : list (string * check_run)) :
  counted (run_checks hcs).
Proof.
  unfold run_checks. apply fold_run_check. repeat split.
Qed.

Lemma filter_nil_Forall {A : Type} (f : A -> bool) (l : list A) :
  List.filter (fun x => negb (f x)) l = [] -> Forall (fun x => f x = true) l.
Proof.
  induction l as [|x l IH]; [constructor|]. cbn [List.filter].
  destruct (f x) eqn:E; cbn [negb]; [|discriminate].
  intros H. constructor; auto.
Qed.

Lemma filter_partition_length {A : Type} (f : A -> bool) (l : list A) :
  (List.length (List.filter f l) +
   List.length (List.filter (fun x => negb (f x)) l) = List.length l)%nat.
Proof.
  induction l as [|x l IH]; [reflexivity|].
  cbn [List.filter]. destruct (f x); cbn [negb List.length]; lia.
Qed.

(** After the loop: the counters count the records, the records follow the
    checks in order, and [failed] counts the checks that did not succeed. *)
Lemma run_checks_facts (hcs : list (string * check_run)) :
  counted (run_checks hcs) /\
  List.map name (checks (run_checks hcs)) = List.map fst hcs /\
  failed (run_checks hcs) =
    Z.of_nat (List.length
                (List.filter (fun hc => negb (succeeded (snd hc))) hcs)).
Proof.
  unfold run_checks.
  apply (fold_run_check hcs
           {| passed := 0; failed := 0; total := 0; checks := [] |}).
  repeat split.
Qed.

Lemma no_failure_iff (hcs : list (string * check_run)) :
  failed (run_checks hcs) = 0 <->
  Forall (fun hc => succeeded (snd hc) = true) hcs.
Proof.
  destruct (run_checks_facts hcs) as (_ & _ & ->). split.
  - intros Z0. apply filter_nil_Forall. apply length_zero_iff_nil. lia.
  - intros Hall. rewrite (filter_negb_all _ _ Hall). reflexivity.
Qed.

(** X17.  The counters of [runAllChecks], for any list of checks, whether
    they resolve or throw: [total] is the number of checks run,
    [passed + failed = total], the records carry the checks' names in order,
    [passed] counts the checks that resolved with success, [failed] is the
    number of checks that [printSummary] lists as failed, and it is zero
    exactly when every check succeeded. *)
Theorem health_counters (hcs : list (string * check_run)) :
  total (run_checks hcs) = Z.of_nat (List.length hcs) /\
  passed (run_checks hcs) + failed (run_checks hcs) = total (run_checks hcs) /\
  List.map name (checks (run_checks hcs)) = List.map fst hcs /\
  passed (run_checks hcs) =
    Z.of_nat (List.length (List.filter (fun hc => succeeded (snd hc)) hcs)) /\
  failed (run_checks hcs) =
    Z.of_nat (List.length (printed_failures (run_checks hcs))) /\
  (failed (run_checks hcs) = 0 <->
   Forall (fun hc => succeeded (snd hc) = true) hcs).
Proof.
  destruct (run_checks_facts hcs) as ((T & P & F) & N & Fl).
  set (r := run_checks hcs) in *.
  assert (L : List.length (checks r) = List.length hcs).
  { rewrite <- (length_map name), N, length_map. reflexivity. }
  pose proof (filter_partition_length is_PASSED (checks r)) as Pc.
  pose proof (filter_partition_length (fun hc => succeeded (snd hc)) hcs)
    as Ph.
  split; [rewrite T, L; reflexivity|].
  split; [rewrite T, P, F; lia|].
  split; [exact N|].
  split; [rewrite P; rewrite Fl in F; lia|].
  split; [|apply no_failure_iff].
  unfold printed_failures. destruct (Z.ltb_spec 0 (failed r)) as [H|H].
  - exact F.
  - cbn [List.length]. rewrite F in *. lia.
Qed.

End HealthChecks.

Section HealthVerdict.
Import Health.

Lemma answered_status (r : response) :
  status_differs (status_of r) 200 && status_differs (status_of r) 404 = false
  <-> answered r.
Proof.
  unfold answered. destruct r as [code|]; cbn [status_of status_differs].
  - rewrite andb_false_iff, !negb_false_iff, !Z.eqb_eq.
    split; intros [H|H]; [left|right|left|right]; congruence.
  - cbn. split; [discriminate|intros [H|H]; discriminate].
Qed.

Lemma filter_nil_iff {A : Type} (f : A -> bool) (l : list A) :
  List.filter f l = [] <-> forall x, In x l -> f x = false.
Proof.
  induction l as [|x l IH]; cbn [List.filter].
  - split; [intros _ y []|reflexivity].
  - destruct (f x) eqn:E.
    + split; [discriminate|]. intros H.
      rewrite (H x (or_introl eq_refl)) in E. discriminate.
    + rewrite IH. split.
      * intros H y [<-|Hy]; auto.
      * intros H y Hy. apply H. right. exact Hy.
Qed.

(** The API check succeeds exactly when every endpoint answered with 200 or
    404. *)
Lemma checkApiEndpoints_success (makeRequest : string -> response) :
  success (checkApiEndpoints makeRequest) = true <->
  forall endpoint : string,
    In endpoint api_endpoints -> answered (makeRequest endpoint).
Proof.
  unfold checkApiEndpoints. cbv zeta.
  set (results := List.map _ api_endpoints).
  set (bad := fun r : string * Status =>
                status_differs (snd r) 200 && status_differs (snd r) 404).
  assert (H : List.filter bad results = [] <->
              forall endpoint : string,
                In endpoint api_endpoints -> answered (makeRequest endpoint)).
  { rewrite filter_nil_iff. unfold results. split.
    - intros H e He. apply answered_status.
      apply (H (e, status_of (makeRequest e))).
      apply in_map_iff. exists e. auto.
    - intros H r Hr. apply in_map_iff in Hr. destruct Hr as (e & <- & He).
      apply answered_status. apply H. exact He. }
  rewrite <- H. destruct (List.filter bad results); cbn; split;
    intros; try reflexivity; discriminate.
Qed.

(** X18.  [checkApiEndpoints] succeeds exactly when each of the three
    endpoints answers with status 200 or 404: a missing route is accepted,
    while a refused or timed-out request, and any other status, fails the
    check. *)
Theorem api_endpoints_answering (makeRequest : string -> response) :
  (success (checkApiEndpoints makeRequest) = true <->
   forall endpoint : string,
     In endpoint api_endpoints -> answered (makeRequest endpoint)) /\
  (forall endpoint : string,
     In endpoint api_endpoints -> makeRequest endpoint = Refused ->
     success (checkApiEndpoints makeRequest) = false) /\
  (forall (endpoint : string) (code : Z),
     In endpoint api_endpoints -> makeRequest endpoint = Responded code ->
     code <> 200 -> code <> 404 ->
     success (checkApiEndpoints makeRequest) = false).
Proof.
  pose proof (checkApiEndpoints_success makeRequest) as K.
  split; [exact K|]. split.
  - intros e He E.
    destruct (success (checkApiEndpoints makeRequest)); [|reflexivity].
    destruct (proj1 K eq_refl e He) as [H|H]; rewrite E in H; discriminate.
  - intros e code He E H1 H2.
    destruct (success (checkApiEndpoints makeRequest)); [|reflexivity].
    destruct (proj1 K eq_refl e He) as [H|H]; rewrite E in H;
      injection H as ->; congruence.
Qed.

(** Every endpoint missing: the check passes; one endpoint answering 500:
    it fails. *)
Lemma api_endpoints_answering_witness :
  success (checkApiEndpoints (fun _ => Responded 404)) = true /\
  success (checkApiEndpoints
             (fun endpoint => if (endpoint =? "/api/goals")%string
                              then Responded 500 else Responded 200)) = false.
Proof.
  split.
  - apply api_endpoints_answering. intros e _. right. reflexivity.
  - apply (proj2 (proj2 (api_endpoints_answering _)) "/api/goals"%string 500);
      try reflexivity; try discriminate.
    right. left. reflexivity.
Defined.




(** X20.  A heap total that rounds to 0 MB fails the memory check: the
    division by zero makes the usage [Infinity] or [NaN], and neither is
    below 80. *)
Theorem memory_check_zero_total (memUsage : MemoryUsage) :
  megabytes (heapTotal memUsage) = S754_zero false ->
  sign_bit (megabytes (heapUsed memUsage)) = false ->
  success (checkMemoryUsage memUsage) = false.
Proof.
  unfold checkMemoryUsage. cbv zeta. cbn [success heapUsed heapTotal].
  intros -> S.
  destruct (megabytes (heapUsed memUsage)) as [s|s| |s m e];
    cbn [sign_bit] in S; try subst s; reflexivity.
Qed.

(** A heap of 300000 bytes, of which 200000 are used. *)
Lemma memory_check_zero_total_witness :
  success (checkMemoryUsage
             (mkMemoryUsage (#400000)%js (#300000)%js (#200000)%js (#0)%js))
  = false.
Proof.
  apply memory_check_zero_total; reflexivity.
Defined.

End HealthVerdict.
